(** * document_tagger: a shallow embedding of the classification core

    The development follows [document_tagger.py]: the class [DocumentTagger]
    with its two catalogs, the project classifier ([identify_project] and its
    helpers), the document-type classifier ([classify_document_type]), the
    keyword extractor ([extract_keywords]), the summary generator
    ([generate_content_summary]) and the orchestrator ([process_document]).

    Python strings are sequences of Unicode code points, so a [str] is a list
    of code points.  What Python takes from the Unicode character database
    ([str.lower], [str.isspace], [str.isdigit], the regex classes \w, \d, \s)
    is an interface, [UnicodeDB]; the optional jieba tokenizer is another one,
    [Tokenizer]. *)

From Stdlib Require Import String Ascii.
From Stdlib Require Import List NArith ZArith Bool Arith Lia.
From Stdlib Require Import Permutation Sorted.
Import ListNotations.

Set Implicit Arguments.

(** ** Python strings *)

Definition str := list N.

Fixpoint bytes_of_string (s : string) : list N :=
  match s with
  | EmptyString => []
  | String a s' => N_of_ascii a :: bytes_of_string s'
  end.

(** Source literals are written in UTF-8; [utf8_decode] turns the bytes of a
    literal into its code points. *)
Fixpoint utf8_decode (bs : list N) : str :=
  match bs with
  | [] => []
  | b0 :: r0 =>
    if (b0 <? 128)%N then b0 :: utf8_decode r0
    else
      match r0 with
      | [] => [b0]
      | b1 :: r1 =>
        if (b0 <? 224)%N then ((b0 - 192) * 64 + (b1 - 128))%N :: utf8_decode r1
        else
          match r1 with
          | [] => [b0; b1]
          | b2 :: r2 =>
            if (b0 <? 240)%N
            then ((b0 - 224) * 4096 + (b1 - 128) * 64 + (b2 - 128))%N
                   :: utf8_decode r2
            else
              match r2 with
              | [] => [b0; b1; b2]
              | b3 :: r3 =>
                ((b0 - 240) * 262144 + (b1 - 128) * 4096
                 + (b2 - 128) * 64 + (b3 - 128))%N :: utf8_decode r3
              end
          end
      end
  end.

Definition py (s : string) : str := utf8_decode (bytes_of_string s).

Fixpoint str_eqb (a b : str) : bool :=
  match a, b with
  | [], [] => true
  | x :: a', y :: b' => (x =? y)%N && str_eqb a' b'
  | _, _ => false
  end.

(** [x in l] for a list or a set of strings. *)
Definition mem (x : str) (l : list str) : bool := existsb (str_eqb x) l.

(** [s.startswith(p)] *)
Fixpoint startswith (p s : str) : bool :=
  match p, s with
  | [], _ => true
  | a :: p', b :: s' => (a =? b)%N && startswith p' s'
  | _ :: _, [] => false
  end.

(** [sub in s] *)
Fixpoint str_in (sub s : str) : bool :=
  startswith sub s
  || match s with
     | [] => false
     | _ :: s' => str_in sub s'
     end.

(** [s.find(sub)]: the least index at which [sub] starts, if any. *)
Fixpoint find_from (sub s : str) (pos : nat) : option nat :=
  if startswith sub s then Some pos
  else match s with
       | [] => None
       | _ :: s' => find_from sub s' (S pos)
       end.

Definition find (s sub : str) : option nat := find_from sub s 0.

(** [s.count(sub)]: the number of non-overlapping occurrences, scanning from
    the left; [skip] is the number of characters still covered by the last
    occurrence. *)
Fixpoint count_from (sub s : str) (skip : nat) : nat :=
  match s with
  | [] => 0
  | _ :: s' =>
    match skip with
    | S k => count_from sub s' k
    | O => if startswith sub s
           then S (count_from sub s' (length sub - 1))
           else count_from sub s' 0
    end
  end.

Definition count (s sub : str) : nat :=
  match sub with
  | [] => S (length s)
  | _ => count_from sub s 0
  end.

Fixpoint dropwhile (p : N -> bool) (s : str) : str :=
  match s with
  | [] => []
  | c :: s' => if p c then dropwhile p s' else s
  end.

(** [s.strip(chars)], with the stripped characters given as a predicate. *)
Definition strip_with (p : N -> bool) (s : str) : str :=
  rev (dropwhile p (rev (dropwhile p s))).

Definition in_chars (chars : str) (c : N) : bool := existsb (N.eqb c) chars.

(** [s.split()] with the separator characters given as a predicate: runs of
    separators delimit the words and no empty word is produced.  [cur] is the
    word being read, reversed. *)
Fixpoint split_runs (sep : N -> bool) (s : str) (cur : str) : list str :=
  match s with
  | [] => match cur with [] => [] | _ => [rev cur] end
  | c :: s' =>
    if sep c
    then match cur with
         | [] => split_runs sep s' []
         | _ => rev cur :: split_runs sep s' []
         end
    else split_runs sep s' (c :: cur)
  end.

(** [s.split(c)] for a one-character separator: empty pieces are kept. *)
Fixpoint split_on (c : N) (s : str) (cur : str) : list str :=
  match s with
  | [] => [rev cur]
  | x :: s' =>
    if (x =? c)%N then rev cur :: split_on c s' [] else split_on c s' (x :: cur)
  end.

(** [s.replace(a, b)] for one-character [a] and [b]. *)
Definition replace_char (a b : N) (s : str) : str :=
  map (fun c => if (c =? a)%N then b else c) s.

(** [sep.join(l)] *)
Fixpoint join (sep : str) (l : list str) : str :=
  match l with
  | [] => []
  | [x] => x
  | x :: l' => x ++ sep ++ join sep l'
  end.

(** [s[i:j]] for [0 <= i], [0 <= j]. *)
Definition slice (s : str) (i j : nat) : str := firstn (j - i) (skipn i s).

(** The position of the first element that satisfies [p]; [length l] when
    there is none. *)
Fixpoint find_index (A : Type) (p : A -> bool) (l : list A) : nat :=
  match l with
  | [] => 0
  | y :: l' => if p y then 0 else S (find_index p l')
  end.

(** [l.index(x)] on a list of strings *)
Definition index (x : str) (l : list str) : nat := find_index (str_eqb x) l.

(** [string.punctuation] *)
Definition string_punctuation : str :=
  [33; 34; 35; 36; 37; 38; 39; 40; 41; 42; 43; 44; 45; 46; 47;
   58; 59; 60; 61; 62; 63; 64; 91; 92; 93; 94; 95; 96; 123; 124; 125; 126]%N.

(** ** The Unicode character database and the tokenizer *)

Class UnicodeDB := {
  lower : str -> str;        (* str.lower *)
  isspace : N -> bool;       (* str.isspace of one character; regex \s *)
  isalnum : N -> bool;       (* str.isalnum of one character; regex \w adds _ *)
  isdecimal : N -> bool;     (* regex \d *)
  isdigit : N -> bool        (* str.isdigit of one character *)
}.

(** jieba is an optional import: [HAS_JIEBA] says whether it is there, and
    [jieba.analyse.extract_tags(text, topK=k, withWeight=False)] is its only
    entry point used. *)
Class Tokenizer := {
  jieba_extract_tags : option (str -> nat -> list str)
}.

Definition HAS_JIEBA {T : Tokenizer} : bool :=
  match jieba_extract_tags with Some _ => true | None => false end.

(** The characters the examples of this development are written in: ASCII and
    the CJK unified ideographs of the first Unicode versions. *)
Definition is_ascii (c : N) : bool := (c <? 128)%N.
Definition is_cjk (c : N) : bool := (19968 <=? c)%N && (c <=? 40869)%N.
Definition is_plain (c : N) : bool := is_ascii c || is_cjk c.

Definition ascii_lower (c : N) : N :=
  if (65 <=? c)%N && (c <=? 90)%N then (c + 32)%N else c.
Definition ascii_digit (c : N) : bool := (48 <=? c)%N && (c <=? 57)%N.
Definition ascii_alpha (c : N) : bool :=
  ((65 <=? c)%N && (c <=? 90)%N) || ((97 <=? c)%N && (c <=? 122)%N).

(** Python's whitespace characters. *)
Definition unicode_space (c : N) : bool :=
  ((9 <=? c)%N && (c <=? 13)%N) || ((28 <=? c)%N && (c <=? 32)%N)
  || in_chars [133; 160; 5760; 8232; 8233; 8239; 8287; 12288]%N c
  || ((8192 <=? c)%N && (c <=? 8202)%N).

(** What every Unicode version says about the plain characters. *)
Class UnicodeLaws (U : UnicodeDB) : Prop := {
  lower_plain : forall s, forallb is_plain s = true -> lower s = map ascii_lower s;
  isspace_plain : forall c, is_plain c = true -> isspace c = unicode_space c;
  isalnum_plain : forall c, is_plain c = true ->
                  isalnum c = ascii_alpha c || ascii_digit c || is_cjk c;
  isdecimal_plain : forall c, is_plain c = true -> isdecimal c = ascii_digit c;
  isdigit_plain : forall c, is_plain c = true -> isdigit c = ascii_digit c
}.

(** The database restricted to the plain characters, and the two tokenizer
    configurations. *)
Definition plain_db : UnicodeDB := {|
  lower := map ascii_lower;
  isspace := unicode_space;
  isalnum := fun c => ascii_alpha c || ascii_digit c || is_cjk c;
  isdecimal := ascii_digit;
  isdigit := ascii_digit
|}.

Definition no_jieba : Tokenizer := {| jieba_extract_tags := None |}.

(** ** Regular expressions

    The patterns of the source are sequences of literals and of greedy
    repetitions of one character class, with at most one capturing group.
    Python's [re] matches them by backtracking: a repetition first takes as
    many characters as it can and gives them back one at a time. *)

Inductive cls :=
| CChars (chars : str)        (* the listed characters *)
| CRange (lo hi : N)          (* lo-hi *)
| CSpace                      (* \s *)
| CWord                       (* \w *)
| CDigit.                     (* \d *)

Inductive charset :=
| Pos (l : list cls)          (* [...] *)
| Neg (l : list cls).         (* [^...] *)

Inductive atom :=
| Lit (s : str)
| Rep (c : charset) (lo : nat) (hi : option nat)   (* c{lo,hi}; c* c+ c? *)
| GOpen                                            (* ( *)
| GClose.                                          (* ) *)

Definition regex := list atom.

(** A match: where it starts, where it ends, and the span of group 1. *)
Record rmatch := { m_start : nat; m_end : nat; m_group : nat * nat }.

Section Regex.
Context {U : UnicodeDB}.

Definition cls_test (k : cls) (c : N) : bool :=
  match k with
  | CChars chars => in_chars chars c
  | CRange lo hi => (lo <=? c)%N && (c <=? hi)%N
  | CSpace => isspace c
  | CWord => isalnum c || (c =? 95)%N
  | CDigit => isdecimal c
  end.

Definition charset_test (cs : charset) (c : N) : bool :=
  match cs with
  | Pos l => existsb (fun k => cls_test k c) l
  | Neg l => negb (existsb (fun k => cls_test k c) l)
  end.

(** The longest run of characters of [p] at the head of [s], at most
    [limit] long. *)
Fixpoint run_length (p : N -> bool) (limit : option nat) (s : str) : nat :=
  match s with
  | [] => 0
  | c :: s' =>
    if p c
    then match limit with
         | Some 0 => 0
         | Some (S k) => S (run_length p (Some k) s')
         | None => S (run_length p None s')
         end
    else 0
  end.

(** Try [k], [k-1], ..., [lo] characters, in this order. *)
Fixpoint backtrack (A : Type) (k lo : nat) (try : nat -> option A) : option A :=
  match try k with
  | Some r => Some r
  | None =>
    match k with
    | 0 => None
    | S k' => if lo <=? k' then backtrack k' lo try else None
    end
  end.

(** Match [re] at the head of [s], which starts at position [pos]; [g] is
    the span of group 1 so far.  The result is the end position and the
    group span. *)
Fixpoint match_here (re : regex) (s : str) (pos : nat) (g : nat * nat)
  : option (nat * (nat * nat)) :=
  match re with
  | [] => Some (pos, g)
  | Lit l :: re' =>
    if startswith l s
    then match_here re' (skipn (length l) s) (pos + length l) g
    else None
  | GOpen :: re' => match_here re' s pos (pos, snd g)
  | GClose :: re' => match_here re' s pos (fst g, pos)
  | Rep c lo hi :: re' =>
    let n := run_length (charset_test c) hi s in
    if n <? lo then None
    else backtrack n lo (fun k => match_here re' (skipn k s) (pos + k) g)
  end.

(** [re.search]: the leftmost match. *)
Fixpoint search_from (re : regex) (s : str) (pos : nat) : option rmatch :=
  match match_here re s pos (pos, pos) with
  | Some (e, g) => Some {| m_start := pos; m_end := e; m_group := g |}
  | None =>
    match s with
    | [] => None
    | _ :: s' => search_from re s' (S pos)
    end
  end.

Definition re_search (re : regex) (s : str) : option rmatch :=
  search_from re s 0.

(** The successive non-overlapping matches, from the left; [skip] counts
    the characters still covered by the last match.  No pattern of the
    source matches the empty string; after an empty match the scan would go
    on at the next character. *)
Fixpoint matches_from (re : regex) (s : str) (pos skip : nat) : list rmatch :=
  match s with
  | [] =>
    match skip with
    | S _ => []
    | O => match match_here re [] pos (pos, pos) with
           | Some (e, g) => [{| m_start := pos; m_end := e; m_group := g |}]
           | None => []
           end
    end
  | _ :: s' =>
    match skip with
    | S k => matches_from re s' (S pos) k
    | O =>
      match match_here re s pos (pos, pos) with
      | Some (e, g) =>
        {| m_start := pos; m_end := e; m_group := g |}
          :: matches_from re s' (S pos) (e - pos - 1)
      | None => matches_from re s' (S pos) 0
      end
    end
  end.

(** [re.findall] for a pattern without group, and with one group. *)
Definition re_findall0 (re : regex) (s : str) : list str :=
  map (fun m => slice s (m_start m) (m_end m)) (matches_from re s 0 0).

Definition re_findall1 (re : regex) (s : str) : list str :=
  map (fun m => slice s (fst (m_group m)) (snd (m_group m)))
      (matches_from re s 0 0).

(** [re.sub(re, repl, s)] *)
Fixpoint sub_from (re : regex) (repl s : str) (pos skip : nat) : str :=
  match s with
  | [] =>
    match skip with
    | S _ => []
    | O => match match_here re [] pos (pos, pos) with
           | Some _ => repl
           | None => []
           end
    end
  | c :: s' =>
    match skip with
    | S k => sub_from re repl s' (S pos) k
    | O =>
      match match_here re s pos (pos, pos) with
      | Some (e, _) =>
        if e =? pos
        then repl ++ c :: sub_from re repl s' (S pos) 0
        else repl ++ sub_from re repl s' (S pos) (e - pos - 1)
      | None => c :: sub_from re repl s' (S pos) 0
      end
    end
  end.

Definition re_sub (re : regex) (repl s : str) : str := sub_from re repl s 0 0.

End Regex.

(** ** Dictionaries, counters and sorting *)

(** A Python [dict] keeps its keys in insertion order: an association list
    in which [dict_set] overwrites in place or appends. *)
Fixpoint dict_set (A : Type) (d : list (str * A)) (k : str) (v : A)
  : list (str * A) :=
  match d with
  | [] => [(k, v)]
  | (k', v') :: d' =>
    if str_eqb k k' then (k', v) :: d' else (k', v') :: dict_set d' k v
  end.

Fixpoint dict_get (A : Type) (d : list (str * A)) (k : str) : option A :=
  match d with
  | [] => None
  | (k', v') :: d' => if str_eqb k k' then Some v' else dict_get d' k
  end.

(** [c[w] += 1] on a [Counter] *)
Fixpoint counter_incr (c : list (str * nat)) (w : str) : list (str * nat) :=
  match c with
  | [] => [(w, 1)]
  | (k, n) :: c' =>
    if str_eqb w k then (k, S n) :: c' else (k, n) :: counter_incr c' w
  end.

(** [Counter(words)] *)
Definition Counter (words : list str) : list (str * nat) :=
  fold_left counter_incr words [].

(** [sorted(l, key=key, reverse=True)]: Python's sort is stable, also with
    [reverse=True], and a stable sort has one possible result; it is computed
    here by insertion. *)
Fixpoint insert_desc (A : Type) (key : A -> nat) (x : A) (l : list A) : list A :=
  match l with
  | [] => [x]
  | y :: l' => if key x <? key y then y :: insert_desc key x l' else x :: l
  end.

Fixpoint sorted_desc (A : Type) (key : A -> nat) (l : list A) : list A :=
  match l with
  | [] => []
  | x :: l' => insert_desc key x (sorted_desc key l')
  end.

(** [c.most_common()] is [sorted(c.items(), key=itemgetter(1), reverse=True)]
    and [c.most_common(n)] is its first [n] items. *)
Definition most_common (c : list (str * nat)) : list (str * nat) :=
  sorted_desc snd c.

Definition most_common_n (n : nat) (c : list (str * nat)) : list (str * nat) :=
  firstn n (most_common c).

(** [max(d, key=d.get)] and [max(d.values())] on a dict with first item
    [first]: the earliest item wins among those of maximal value. *)
Definition max_item (first : str * nat) (rest : list (str * nat)) : str * nat :=
  fold_left (fun best kv => if snd best <? snd kv then kv else best) rest first.

Definition max_value (first : str * nat) (rest : list (str * nat)) : nat :=
  fold_left Nat.max (map snd rest) (snd first).

Fixpoint first_some (A B : Type) (f : A -> option B) (l : list A) : option B :=
  match l with
  | [] => None
  | x :: l' => match f x with
               | Some y => Some y
               | None => first_some f l'
               end
  end.

Definition pys (l : list string) : list str := map py l.

(** [any(word in s for word in words)] *)
Definition any_in (words : list str) (s : str) : bool :=
  existsb (fun word => str_in word s) words.

(** ** The catalogs of [DocumentTagger.__init__] *)

Definition document_types : list (str * list str) :=
  [ (py "需求类文档",
     pys ["需求"; "功能需求"; "业务需求"; "产品需求"; "PRD"; "需求分析";
          "requirement"; "feature"; "用户需求"; "功能规格"; "需求说明"]%string);
    (py "技术类文档",
     pys ["技术"; "开发"; "编程"; "代码"; "实现"; "架构"; "设计"; "API";
          "development"; "coding"; "技术方案"; "系统设计"; "接口文档";
          "数据库"; "算法"; "框架"; "技术规范"]%string);
    (py "测试类文档",
     pys ["测试"; "质量"; "QA"; "测试用例"; "测试计划"; "testing";
          "测试报告"; "缺陷"; "bug"; "质量保证"; "验收测试"; "性能测试"]%string);
    (py "运维类文档",
     pys ["运维"; "部署"; "监控"; "服务器"; "系统运维"; "devops";
          "deploy"; "运维手册"; "故障处理"; "备份"; "安全"; "配置管理"]%string);
    (py "知识类文档",
     pys ["知识"; "教程"; "培训"; "说明"; "指南"; "手册"; "介绍";
          "学习"; "分享"; "总结"; "经验"; "最佳实践"; "规范"; "标准"]%string);
    (py "管理类文档",
     pys ["管理"; "项目管理"; "计划"; "流程"; "规范"; "management";
          "process"; "会议"; "决策"; "报告"; "总结"; "制度"; "政策"]%string) ].

Definition project_keywords : list (str * list str) :=
  [ (py "超品中心项目", pys ["超品"; "超级品牌"; "品牌中心"; "品牌运营"]%string);
    (py "直播业务项目", pys ["直播"; "主播"; "直播间"; "直播运营"; "直播平台"]%string);
    (py "电商系统项目", pys ["订单"; "商品"; "购物车"; "支付"; "物流"; "OMS"]%string);
    (py "财务管理项目",
     pys ["财务"; "会计"; "成本"; "预算"; "收入"; "支出"; "结算"]%string);
    (py "营销推广项目", pys ["营销"; "推广"; "广告"; "活动"; "用户增长"; "转化"]%string);
    (py "内容运营项目", pys ["内容"; "创作"; "视频"; "图片"; "文章"; "创意"]%string);
    (py "用户运营项目", pys ["用户运营"; "私域"; "客服"; "用户管理"; "客户服务"]%string);
    (py "技术平台项目", pys ["平台"; "系统"; "架构"; "技术"; "开发"; "产研"]%string);
    (py "数据分析项目", pys ["数据"; "分析"; "统计"; "指标"; "报表"; "数据库"]%string);
    (py "移动端项目", pys ["移动"; "APP"; "小程序"; "移动端"; "iOS"; "Android"]%string);
    (py "运维保障项目", pys ["运维"; "部署"; "监控"; "服务器"; "运维保障"]%string);
    (py "人力资源项目",
     pys ["人力"; "HR"; "招聘"; "培训"; "绩效"; "薪酬"; "员工"]%string);
    (py "质量管控项目", pys ["质量"; "品控"; "品质管理"; "质量保证"; "测试"]%string);
    (py "流程优化项目", pys ["流程"; "优化"; "规范"; "标准化"; "制度"; "管理"]%string) ].

Section Tagger.
Context {U : UnicodeDB} {T : Tokenizer}.

(** [s.strip()], [s.split()], [s.isdigit()], [s.isspace()] *)
Definition strip (s : str) : str := strip_with isspace s.
Definition split (s : str) : list str := split_runs isspace s [].
Definition str_isdigit (s : str) : bool :=
  match s with [] => false | _ => forallb isdigit s end.
Definition str_isspace (s : str) : bool :=
  match s with [] => false | _ => forallb isspace s end.

(** A string is true when it is not empty. *)
Definition nonempty (A : Type) (l : list A) : bool :=
  match l with [] => false | _ => true end.

(** *** ProjectClassifier *)

(** The loop body shared by the two scorings: the occurrences of each
    keyword in the combined text, and [bonus] more when the title has it. *)
Definition keyword_score (bonus : nat) (combined_text title_lower : str)
           (keywords : list str) : nat :=
  fold_left
    (fun score keyword =>
       let keyword_lower := lower keyword in
       let content_count := count combined_text keyword_lower in
       let score := score + content_count in
       if str_in keyword_lower title_lower then score + bonus else score)
    keywords 0.

(** The dict of the positive scores, in catalog order. *)
Definition score_table (bonus : nat) (combined_text title_lower : str)
           (catalog : list (str * list str)) : list (str * nat) :=
  fold_left
    (fun scores entry =>
       let score := keyword_score bonus combined_text title_lower (snd entry) in
       if 0 <? score then dict_set scores (fst entry) score else scores)
    catalog [].

(** [\s*[vV]?\d*\.?\d*], the tail of every title pattern *)
Definition version_tail : regex :=
  [ Rep (Pos [CSpace]) 0 None;
    Rep (Pos [CChars (py "vV")]) 0 (Some 1);
    Rep (Pos [CDigit]) 0 None;
    Rep (Pos [CChars (py ".")]) 0 (Some 1);
    Rep (Pos [CDigit]) 0 None ].

Definition title_patterns : list regex :=
  [ [GOpen; Rep (Pos [CWord]) 0 None; Lit (py "中心"); GClose] ++ version_tail;
    [GOpen; Rep (Pos [CWord]) 1 None; Lit (py "系统"); GClose] ++ version_tail;
    [GOpen; Rep (Pos [CWord]) 1 None; Lit (py "平台"); GClose] ++ version_tail;
    [GOpen; Rep (Pos [CWord]) 1 None; Lit (py "项目"); GClose] ++ version_tail;
    [GOpen; Rep (Pos [CWord]) 1 None; Lit (py "业务"); GClose] ++ version_tail ].

(** [[^\s\n,，。]] and its relatives *)
Definition name_chars : charset :=
  Neg [CSpace; CChars (10%N :: py ",，。")].

Definition content_patterns : list regex :=
  [ [Lit (py "项目"); Rep (Pos [CChars (py ":：")]) 0 (Some 1);
     Rep (Pos [CSpace]) 0 None; GOpen; Rep name_chars 2 (Some 10); GClose];
    [Lit (py "所属项目"); Rep (Pos [CChars (py ":：")]) 0 (Some 1);
     Rep (Pos [CSpace]) 0 None; GOpen; Rep name_chars 2 (Some 10); GClose];
    [GOpen; Rep (Neg [CSpace]) 2 (Some 8); GClose;
     Rep (Pos [CSpace]) 0 None; Lit (py "PRD")];
    [GOpen; Rep (Neg [CSpace; CChars [10%N]]) 2 (Some 10); GClose;
     Rep (Pos [CSpace]) 0 None; Lit (py "需求文档")] ].

(** [[vV]?\d+\.?\d*] *)
Definition version_number : regex :=
  [ Rep (Pos [CChars (py "vV")]) 0 (Some 1);
    Rep (Pos [CDigit]) 1 None;
    Rep (Pos [CChars (py ".")]) 0 (Some 1);
    Rep (Pos [CDigit]) 0 None ].

Definition standardization_map : list (str * str) :=
  [ (py "超品中心", py "超品中心项目");
    (py "超品", py "超品中心项目");
    (py "财务", py "财务管理项目");
    (py "财务系统", py "财务管理项目");
    (py "财务专项", py "财务管理项目");
    (py "新人", py "人力资源项目");
    (py "入职", py "人力资源项目");
    (py "部门", py "组织管理项目");
    (py "组织", py "组织管理项目");
    (py "文档分类", py "知识管理项目");
    (py "文档", py "知识管理项目");
    (py "知识", py "知识管理项目");
    (py "商家端", py "超品中心项目");
    (py "遥望星选", py "超品中心项目");
    (py "背景", py "技术平台项目") ].

Definition _standardize_project_name (project_core : str) : str :=
  let project_core := strip (re_sub version_number [] project_core) in
  match first_some
          (fun entry =>
             if str_in (fst entry) project_core then Some (snd entry) else None)
          standardization_map with
  | Some standard_name => standard_name
  | None =>
    if any_in (pys ["中心"; "平台"; "系统"]%string) project_core
    then project_core ++ py "项目"
    else if str_in (py "管理") project_core
         then project_core ++ py "项目"
         else project_core ++ py "项目"
  end.

(** The body of the loop over the matches of a content pattern. *)
Definition accept_content_match (m : str) : option str :=
  let m := strip m in
  if (2 <=? length m) && negb (str_isdigit m)
     && negb (startswith (py "：") m) && negb (str_in (py "解决") m)
  then
    let standardized := _standardize_project_name m in
    if negb (str_eqb standardized (m ++ py "项目"))
    then Some standardized
    else None
  else None.

Definition _extract_explicit_project_name (title text : str) : str :=
  let search_text := title ++ py " " ++ firstn 500 text in
  match first_some
          (fun pattern =>
             match re_search pattern title with
             | Some m =>
               let project_core :=
                   slice title (fst (m_group m)) (snd (m_group m)) in
               Some (_standardize_project_name project_core)
             | None => None
             end)
          title_patterns with
  | Some name => name
  | None =>
    match first_some
            (fun pattern =>
               first_some accept_content_match
                          (re_findall1 pattern search_text))
            content_patterns with
    | Some name => name
    | None => []
    end
  end.

(** The keywords [_infer_project_from_content] works on. *)
Definition infer_keywords (text : str) : list str :=
  match jieba_extract_tags with
  | Some extract_tags => extract_tags text 15
  | None =>
    let words :=
        fold_left
          (fun words word =>
             let word :=
                 strip_with
                   (in_chars ([32; 9; 10]%N ++ py ".,!?;:()[]{}" ++ [34; 39; 45]%N))
                   word in
             if (2 <=? length word) && (length word <=? 8)
             then words ++ [word] else words)
          (split (replace_char 12290 32 (replace_char 65292 32 text))) [] in
    map fst (most_common_n 15 (Counter words))
  end.

(** [sum(1 for kw in keywords if any(w in kw for w in words))] *)
Definition domain_count (keywords words : list str) : nat :=
  length (filter (fun kw => any_in words kw) keywords).

(** What [_infer_project_from_content] does after its title checks. *)
Definition infer_from_keywords (keywords : list str) : str :=
  let financial_words :=
      pys ["财务"; "结算"; "业绩"; "毛利"; "成本"; "收入"; "支出"; "预算";
           "会计"]%string in
  let hr_words :=
      pys ["人力"; "招聘"; "培训"; "员工"; "入职"; "薪酬"; "绩效"; "考核"]%string in
  let product_words :=
      pys ["产品"; "需求"; "PRD"; "功能"; "用户"; "体验"; "设计"]%string in
  let tech_words :=
      pys ["技术"; "开发"; "系统"; "平台"; "架构"; "数据库"; "接口"; "API"]%string in
  let operation_words :=
      pys ["运营"; "营销"; "推广"; "活动"; "转化"; "渠道"; "客户"]%string in
  let management_words :=
      pys ["管理"; "流程"; "制度"; "规范"; "优化"; "团队"; "组织"]%string in
  let knowledge_words :=
      pys ["文档"; "知识"; "分类"; "收集"; "整理"; "归档"; "指南"]%string in
  let first_domain := (py "财务管理项目", domain_count keywords financial_words) in
  let other_domains :=
      [ (py "人力资源项目", domain_count keywords hr_words);
        (py "产品研发项目", domain_count keywords product_words);
        (py "技术平台项目", domain_count keywords tech_words);
        (py "运营推广项目", domain_count keywords operation_words);
        (py "组织管理项目", domain_count keywords management_words);
        (py "知识管理项目", domain_count keywords knowledge_words) ] in
  let max_score := max_value first_domain other_domains in
  if 0 <? max_score then fst (max_item first_domain other_domains)
  else
    let business_count :=
        domain_count keywords
          (pys ["用户"; "产品"; "业务"; "运营"; "营销"; "商业"]%string) in
    let tech_count :=
        domain_count keywords
          (pys ["系统"; "平台"; "技术"; "开发"; "数据"; "功能"]%string) in
    let mgmt_count :=
        domain_count keywords
          (pys ["管理"; "流程"; "制度"; "培训"; "团队"]%string) in
    if (business_count <=? tech_count) && (mgmt_count <=? tech_count)
    then py "技术平台项目"
    else if mgmt_count <=? business_count
         then py "业务运营项目"
         else py "组织管理项目".

Definition _infer_project_from_content (text title : str) : str :=
  let keywords := infer_keywords text in
  let title_lower := lower title in
  if any_in (pys ["超品中心"; "超品"]%string) title_lower
  then py "超品中心项目"
  else if any_in (pys ["财务"; "结算"; "业绩"; "毛利"]%string) title_lower
  then py "财务管理项目"
  else if any_in (pys ["新人"; "入职"; "培训"; "onboard"]%string) title_lower
  then py "人力资源项目"
  else if any_in (pys ["部门"; "组织"; "团队"; "职责"]%string) title_lower
  then py "组织管理项目"
  else if any_in (pys ["商家"; "星选"; "遥望星选"]%string) title_lower
  then py "超品中心项目"
  else if any_in (pys ["文档"; "分类"; "收集"; "知识"]%string) title_lower
  then py "知识管理项目"
  else infer_from_keywords keywords.

(** What [identify_project] does when no title check fires; [infer] is the
    last step. *)
Definition identify_after_title_checks (infer : str -> str -> str)
           (text title title_lower combined_text : str) : str :=
  let extracted_project := _extract_explicit_project_name title text in
  if nonempty extracted_project then extracted_project
  else
    let project_scores :=
        score_table 3 combined_text title_lower project_keywords in
    let by_inference := infer combined_text title in
    match project_scores with
    | [] => by_inference
    | first :: rest =>
      let max_score := max_value first rest in
      if 3 <=? max_score then fst (max_item first rest) else by_inference
    end.

Definition identify_project_with (infer : str -> str -> str)
           (text title : str) : str :=
  let title_lower := lower title in
  let combined_text := lower (title ++ py " " ++ text) in
  if any_in (pys ["超品中心"; "超品"]%string) title_lower
  then py "超品中心项目"
  else if any_in (pys ["财务"; "结算"; "业绩"; "毛利"]%string) title_lower
  then py "财务管理项目"
  else if any_in (pys ["新人"; "入职"; "培训"]%string) title_lower
  then py "人力资源项目"
  else if any_in (pys ["部门"; "组织"; "团队"; "职责"]%string) title_lower
  then py "组织管理项目"
  else if any_in (pys ["商家"; "星选"; "遥望星选"]%string) title_lower
  then py "超品中心项目"
  else if any_in (pys ["文档"; "分类"; "收集"; "知识"]%string) title_lower
  then py "知识管理项目"
  else identify_after_title_checks infer text title title_lower combined_text.

Definition identify_project (text title : str) : str :=
  identify_project_with _infer_project_from_content text title.

(** The variant without the second copy of the title checks: the fallback
    goes straight to the keywords. *)
Definition _infer_project_from_content_without_title_checks
           (text title : str) : str :=
  infer_from_keywords (infer_keywords text).

Definition identify_project_without_second_checks (text title : str) : str :=
  identify_project_with _infer_project_from_content_without_title_checks
                        text title.

(** *** DocumentTypeClassifier *)

Definition classify_document_type (text title : str) : str :=
  let title_lower := lower title in
  let combined_text := lower (title ++ py " " ++ text) in
  let type_scores := score_table 5 combined_text title_lower document_types in
  match type_scores with
  | first :: rest => fst (max_item first rest)
  | [] => py "知识类文档"
  end.

(** *** KeywordExtractor *)

(** [int(text_length / 1000)] goes through a float; the quotient of a
    length by 1000 is far from the next integer compared to the rounding of
    a float, and from 27000 on the minimum is 30 anyway, so the integer
    quotient is what Python computes. *)
Definition _get_keywords_count (text_length : Z) : Z :=
  if (text_length <? 200)%Z then 2%Z
  else if (text_length <? 500)%Z then 3%Z
  else if (text_length <? 1000)%Z then 5%Z
  else if (text_length <? 2000)%Z then 8%Z
  else if (text_length <? 3000)%Z then 10%Z
  else if (text_length <? 5000)%Z then 12%Z
  else if (text_length <? 8000)%Z then 15%Z
  else if (text_length <? 12000)%Z then 18%Z
  else if (text_length <? 20000)%Z then 22%Z
  else Z.min (text_length / 1000 + 3) 30.

Definition _absolute_strict_verify_word_in_text (word text : str) : bool :=
  str_in word text.

(** The separators of the first split: Chinese punctuation, the double
    quote, brackets and whitespace; and of the second: Latin punctuation,
    both quotes, brackets and whitespace.  The pattern of the first split is
    written as two adjacent string literals, the first of which ends at the
    first single quote, so the single quote is not in its class. *)
Definition chinese_separators : regex :=
  [ Rep (Pos [CChars (py "，。！？；：" ++ [34]%N
                       ++ py "（）【】[]{}<>《》、"); CSpace]) 1 None ].

Definition latin_separators : regex :=
  [ Rep (Pos [CChars (py ".,!?;:" ++ [34; 39]%N ++ py "()[]{}<>"); CSpace])
        1 None ].

(** [[\u4e00-\u9fff]{2,8}] *)
Definition chinese_run : regex :=
  [ Rep (Pos [CRange 19968 40959]) 2 (Some 8) ].

Definition candidate_words (text : str) : list str :=
  let text_clean := re_sub chinese_separators (py " ") text in
  let words1 := split text_clean in
  let text_clean2 := re_sub latin_separators (py " ") text in
  let words2 := split text_clean2 in
  let chinese_words := re_findall0 chinese_run text in
  words1 ++ words2 ++ chinese_words.

(** [word.strip(string.punctuation + ' \t\n')] *)
Definition strip_punctuation (word : str) : str :=
  strip_with (in_chars (string_punctuation ++ [32; 9; 10]%N)) word.

(** The conditions a stripped candidate has to pass to be counted. *)
Definition candidate_ok (word text : str) : bool :=
  ((2 <=? length word) && (length word <=? 8)
   && negb (str_isdigit word)
   && nonempty (strip word)
   && negb (str_isspace word)
   && negb (mem (lower word) (pys ["html"; "http"; "https"; "www"]%string)))
  && _absolute_strict_verify_word_in_text word text.

(** The counter after the loop over the candidates. *)
Definition word_count (text : str) : list (str * nat) :=
  fold_left
    (fun word_count word =>
       let word := strip_punctuation word in
       if candidate_ok word text then counter_incr word_count word
       else word_count)
    (candidate_words text) [].

Definition common_words : list str :=
  pys ["的"; "了"; "在"; "和"; "与"; "为"; "是"; "有"; "及"; "等"; "可以";
       "进行"; "通过"; "或者"; "如果"; "但是"; "因为"; "所以"; "这个"; "那个";
       "我们"; "他们"; "她们"; "它们"; "之后"; "之前"; "什么"; "怎么"; "哪里";
       "什么时候"; "为什么"; "一个"; "一种"; "一些"; "所有"; "每个"; "所以";
       "因此"; "然后"; "现在"; "已经"; "仍然"; "只是"; "也是"; "还是"; "或是";
       "就是"; "不是"; "没有"; "这些"; "那些"]%string.

Definition _extract_verified_keywords_from_text (text : str) (num_keywords : Z)
  : list str :=
  fold_left
    (fun result_keywords item =>
       let '(word, count) := item in
       if negb (mem word common_words) && (1 <=? count)
          && (Z.of_nat (length result_keywords) <? num_keywords)%Z
       then result_keywords ++ [word]
       else result_keywords)
    (most_common (word_count text)) [].

Definition extract_keywords (text : str) : list str :=
  if negb (nonempty (strip text)) then []
  else
    let num_keywords := _get_keywords_count (Z.of_nat (length text)) in
    _extract_verified_keywords_from_text text num_keywords.

(** *** SummaryGenerator *)

(** [[p.strip() for p in text.split('\n') if p.strip()]] *)
Definition paragraphs_of (text : str) : list str :=
  map strip (filter (fun p => nonempty (strip p)) (split_on 10 text [])).

Record buckets := {
  background_info : list str;
  objective_info : list str;
  content_info : list str;
  solution_info : list str;
  result_info : list str
}.

Definition no_buckets : buckets :=
  {| background_info := []; objective_info := []; content_info := [];
     solution_info := []; result_info := [] |}.

Definition background_patterns : list str :=
  pys ["背景"; "现状"; "问题"; "挑战"; "原因"; "情况"]%string.
Definition objective_patterns : list str :=
  pys ["目标"; "目的"; "期望"; "预期"; "计划"; "要求"]%string.
Definition content_patterns_summary : list str :=
  pys ["内容"; "功能"; "特点"; "特性"; "包括"; "包含"; "具体"]%string.
Definition solution_patterns : list str :=
  pys ["方案"; "解决"; "实现"; "实施"; "执行"; "操作"; "步骤"; "流程"]%string.
Definition result_patterns : list str :=
  pys ["结果"; "效果"; "收益"; "价值"; "成果"; "总结"; "结论"]%string.

(** One turn of the loop over the paragraphs. *)
Definition bucket_paragraph (b : buckets) (para : str) : buckets :=
  let para_lower := lower para in
  if any_in background_patterns para_lower then
    if 15 <? length para
    then {| background_info := background_info b ++ [para];
            objective_info := objective_info b;
            content_info := content_info b;
            solution_info := solution_info b;
            result_info := result_info b |}
    else b
  else if any_in objective_patterns para_lower then
    if 15 <? length para
    then {| background_info := background_info b;
            objective_info := objective_info b ++ [para];
            content_info := content_info b;
            solution_info := solution_info b;
            result_info := result_info b |}
    else b
  else if any_in solution_patterns para_lower then
    if 15 <? length para
    then {| background_info := background_info b;
            objective_info := objective_info b;
            content_info := content_info b;
            solution_info := solution_info b ++ [para];
            result_info := result_info b |}
    else b
  else if any_in result_patterns para_lower then
    if 15 <? length para
    then {| background_info := background_info b;
            objective_info := objective_info b;
            content_info := content_info b;
            solution_info := solution_info b;
            result_info := result_info b ++ [para] |}
    else b
  else if any_in content_patterns_summary para_lower then
    if 15 <? length para
    then {| background_info := background_info b;
            objective_info := objective_info b;
            content_info := content_info b ++ [para];
            solution_info := solution_info b;
            result_info := result_info b |}
    else b
  else b.

Definition bucketed (paragraphs : list str) : buckets :=
  fold_left bucket_paragraph paragraphs no_buckets.

(** [not any([background_info, ..., result_info])] *)
Definition nothing_bucketed (b : buckets) : bool :=
  negb (nonempty (background_info b) || nonempty (objective_info b)
        || nonempty (content_info b) || nonempty (solution_info b)
        || nonempty (result_info b)).

Definition important_keywords : list str :=
  pys ["项目"; "系统"; "平台"; "功能"; "需求"; "设计"; "开发"; "测试"; "运维";
       "管理"; "流程"; "规范"; "优化"; "升级"; "改进"; "实现"; "支持"; "提供";
       "用户"; "客户"; "业务"; "服务"; "产品"; "方案"; "计划"; "目标";
       "效果"]%string.

(** The score of a paragraph: the occurrences of the important keywords in
    it, lower-cased. *)
Definition paragraph_score (para : str) : nat :=
  let para_lower := lower para in
  fold_left (fun score keyword => score + count para_lower keyword)
            important_keywords 0.

Definition scored_paragraphs (paragraphs : list str) : list (str * nat) :=
  fold_left
    (fun scored para =>
       if 30 <? length para
       then let score := paragraph_score para in
            if 0 <? score then scored ++ [(para, score)] else scored
       else scored)
    (firstn 15 paragraphs) [].

(** [content_info] when the summary is composed, with jieba. *)
Definition content_bucket (paragraphs : list str) : list str :=
  let b := bucketed paragraphs in
  if nothing_bucketed b
  then map fst (firstn 8 (sorted_desc snd (scored_paragraphs paragraphs)))
  else content_info b.

(** A labelled section, when its bucket is not empty. *)
Definition section (label : str) (n : nat) (bucket : list str) : list str :=
  match bucket with
  | [] => []
  | _ => [label ++ join (py " ") (firstn n bucket)]
  end.

Definition generate_content_summary (text title : str) : str :=
  if negb (nonempty (strip text)) then py "文档内容为空"
  else
    let paragraphs := paragraphs_of text in
    let summary_parts :=
        if HAS_JIEBA then
          let b := bucketed paragraphs in
          section (py "【背景情况】") 2 (background_info b)
          ++ section (py "【项目目标】") 2 (objective_info b)
          ++ section (py "【主要内容】") 4 (content_bucket paragraphs)
          ++ section (py "【实施方案】") 3 (solution_info b)
          ++ section (py "【预期效果】") 2 (result_info b)
        else
          let important_paragraphs :=
              filter (fun para => 30 <? length para) (firstn 10 paragraphs) in
          section (py "【文档内容】") 5 important_paragraphs in
    let summary_parts :=
        match summary_parts with
        | [] =>
          let content_preview :=
              filter (fun para => 20 <? length para) (firstn 6 paragraphs) in
          match content_preview with
          | [] => [py "【文档概述】本文档描述了" ++ title ++ py "相关内容："
                      ++ firstn 300 text ++ py "..."]
          | _ => [py "【文档概述】本文档主要阐述了" ++ title
                     ++ py "的相关内容，包括：" ++ join (py " ") content_preview]
          end
        | _ => summary_parts
        end in
    join (py " ") summary_parts.

(** *** The orchestrator *)

Definition format_output (title project doc_type : str) (keywords : list str)
           (summary : str) : list (str * str) :=
  [ (py "文档标题", title);
    (py "所属项目", project);
    (py "文档关键词",
     doc_type ++ py "; "
              ++ (if nonempty keywords then join (py "; ") keywords else []));
    (py "文档内容概述", summary) ].

(** [process_document] from the point where the title and the text have
    been read from the file; what it prints is left out.  The four
    operations it calls are logged, in call order. *)
Inductive component :=
| ProjectClassifier
| DocumentTypeClassifier
| KeywordExtractor
| SummaryGenerator.

Definition logged (A : Type) : Type := list component * A.
Definition ret (A : Type) (x : A) : logged A := ([], x).
Definition bind (A B : Type) (m : logged A) (k : A -> logged B) : logged B :=
  let '(l1, x) := m in
  let '(l2, y) := k x in
  (l1 ++ l2, y).
Definition invoke (A : Type) (c : component) (x : A) : logged A := ([c], x).

Definition process_document (title text : str) : logged (list (str * str)) :=
  if negb (nonempty (strip text))
  then ret (format_output title (py "未知项目") (py "知识类文档") []
                          (py "文档内容为空"))
  else
    bind (invoke ProjectClassifier (identify_project text title))
      (fun project =>
    bind (invoke DocumentTypeClassifier (classify_document_type text title))
      (fun doc_type =>
    bind (invoke KeywordExtractor (extract_keywords text))
      (fun keywords =>
    bind (invoke SummaryGenerator (generate_content_summary text title))
      (fun summary =>
    ret (format_output title project doc_type keywords summary))))).

End Tagger.

(** ** Notions the properties are stated with *)

Section Notions.
Context {U : UnicodeDB} {T : Tokenizer}.

(** The outcome of the six title checks at the head of [identify_project]. *)
Definition first_title_checks (title_lower : str) : option str :=
  if any_in (pys ["超品中心"; "超品"]%string) title_lower
  then Some (py "超品中心项目")
  else if any_in (pys ["财务"; "结算"; "业绩"; "毛利"]%string) title_lower
  then Some (py "财务管理项目")
  else if any_in (pys ["新人"; "入职"; "培训"]%string) title_lower
  then Some (py "人力资源项目")
  else if any_in (pys ["部门"; "组织"; "团队"; "职责"]%string) title_lower
  then Some (py "组织管理项目")
  else if any_in (pys ["商家"; "星选"; "遥望星选"]%string) title_lower
  then Some (py "超品中心项目")
  else if any_in (pys ["文档"; "分类"; "收集"; "知识"]%string) title_lower
  then Some (py "知识管理项目")
  else None.

(** The score of a document-type bucket as the specification words it: the
    occurrences of each trigger keyword in the lower-cased title, space and
    text, plus 5 for each trigger keyword the lower-cased title contains. *)
Definition bucket_score (title text : str) (keywords : list str) : nat :=
  list_sum
    (map (fun keyword =>
            count (lower (title ++ py " " ++ text)) (lower keyword)
            + (if str_in (lower keyword) (lower title) then 5 else 0))
         keywords).

(** The candidates of the keyword extractor after stripping, in the order
    in which the loop sees them, and those of them that are counted. *)
Definition stripped_candidates (text : str) : list str :=
  map strip_punctuation (candidate_words text).

Definition counted_candidates (text : str) : list str :=
  filter (fun word => candidate_ok word text) (stripped_candidates text).

(** The frequency the extractor ranks a word by: its count in the counter. *)
Definition frequency (text word : str) : nat :=
  match dict_get (word_count text) word with
  | Some n => n
  | None => 0
  end.

(** An item of the counter that the selection loop may take. *)
Definition selectable (item : str * nat) : bool :=
  negb (mem (fst item) common_words) && (1 <=? snd item).

(** The hits of a paragraph against the importance vocabulary. *)
Definition hits (para : str) : nat :=
  list_sum (map (fun keyword => count (lower para) keyword) important_keywords).

(** The paragraphs the fallback of the summary ranks: those of the first 15
    that are longer than 30 characters and have a hit. *)
Definition ranked_paragraphs (paragraphs : list str) : list str :=
  filter (fun para => (30 <? length para) && (0 <? hits para))
         (firstn 15 paragraphs).

(** The content bucket as the specification words it: every paragraph
    longer than 30 characters among the first 15 is ranked. *)
Definition content_bucket_as_specified (paragraphs : list str) : list str :=
  firstn 8 (sorted_desc hits
                        (filter (fun para => 30 <? length para)
                                (firstn 15 paragraphs))).

End Notions.

(** Two databases agree on a string when they say the same about each of its
    characters. *)
Definition agree_on (U1 U2 : UnicodeDB) (s : str) : Prop :=
  forall c, In c s ->
            @isspace U1 c = @isspace U2 c
            /\ @isalnum U1 c = @isalnum U2 c
            /\ @isdecimal U1 c = @isdecimal U2 c.

(** Where a word first occurs in a text; the length of the text when it
    does not occur. *)
Definition first_occurrence (word text : str) : nat :=
  match find text word with
  | Some i => i
  | None => length text
  end.

(** A text of 600 characters with five words. *)
Definition text600 : str :=
  py "alpha beta gamma delta omega" ++ repeat 32%N 572.

(** A text in which "ab" comes first but is only found by the second split. *)
Definition tie_text : str := py "ab.c e.f ab.d e.f".

(** A paragraph of 31 characters with no important keyword, and a text of
    two paragraphs with one and two of them. *)
Definition plain_paragraph : str := repeat 97%N 31.

Definition two_paragraphs : str :=
  py "项目 aaaaaaaaaaaaaaaaaaaaaaaaaaaaaaaa" ++ [10%N]
     ++ py "系统 平台 bbbbbbbbbbbbbbbbbbbbbbbbbbbbbb".

(** ** The rest of [document_tagger.py] and the two scripts that read its
       output *)

(** [s.endswith(suffix)] *)
Definition endswith (suffix s : str) : bool := startswith (rev suffix) (rev s).

(** [s.split(sep)] for a separator that is not empty: the pieces between the
    occurrences of [sep], found from the left; empty pieces are kept.  [cur]
    is the piece being read, reversed, and [skip] the number of characters
    that still belong to the separator just found. *)
Fixpoint split_str_from (sep s cur : str) (skip : nat) : list str :=
  match s with
  | [] => [rev cur]
  | c :: s' =>
    match skip with
    | S k => split_str_from sep s' cur k
    | O => if startswith sep s
           then rev cur :: split_str_from sep s' [] (length sep - 1)
           else split_str_from sep s' (c :: cur) 0
    end
  end.

Definition split_str (sep s : str) : list str := split_str_from sep s [] 0.

(** Python compares strings by code points, the shorter first when one is
    the head of the other. *)
Fixpoint str_ltb (a b : str) : bool :=
  match a, b with
  | _, [] => false
  | [], _ :: _ => true
  | x :: a', y :: b' => (x <? y)%N || ((x =? y)%N && str_ltb a' b')
  end.

(** [sorted(l)] on strings, by insertion, and [s.add(x)] on a set kept as a
    list without repetition. *)
Fixpoint insert_asc (x : str) (l : list str) : list str :=
  match l with
  | [] => [x]
  | y :: l' => if str_ltb y x then y :: insert_asc x l' else x :: l
  end.

Fixpoint sorted_asc (l : list str) : list str :=
  match l with
  | [] => []
  | x :: l' => insert_asc x (sorted_asc l')
  end.

Definition set_add (s : list str) (x : str) : list str :=
  if mem x s then s else s ++ [x].

(** A row as [csv.DictReader] yields it: a field the line is too short for
    is [None]. *)
Definition csv_row : Type := list (str * option str).

(** [row.get(key, '')] *)
Definition row_get (row : csv_row) (key : str) : option str :=
  match dict_get row key with
  | Some value => value
  | None => Some []
  end.

(** A value in an f-string: [None] is written "None". *)
Definition format_value (value : option str) : str :=
  match value with
  | Some s => s
  | None => py "None"
  end.

Section Scripts.
Context {U : UnicodeDB} {T : Tokenizer}.

(** *** [main]: the line of the table for one result

    The fields [main] prints for a result: the title, the project, the
    document type and the number of keywords; a missing key is a
    [KeyError]. *)
Definition table_line (result : list (str * str))
  : option (str * str * str * nat) :=
  match dict_get result (py "文档关键词") with
  | None => None
  | Some field =>
    let keywords :=
        if nonempty field then tl (split_str (py "; ") field) else [] in
    let keyword_count := length keywords in
    let doc_type :=
        if nonempty field then hd [] (split_str (py "; ") field) else [] in
    match dict_get result (py "文档标题"), dict_get result (py "所属项目") with
    | Some title, Some project => Some (title, project, doc_type, keyword_count)
    | _, _ => None
    end
  end.

(** *** [save_results_to_csv]: which results are new

    The identifier of a row read from the file, and of a result; a result
    without one of the three keys is a [KeyError]. *)
Definition row_identifier (row : csv_row) : str :=
  format_value (row_get row (py "文档标题")) ++ py "-"
  ++ format_value (row_get row (py "所属项目")) ++ py "-"
  ++ format_value (row_get row (py "文档关键词")).

Definition result_identifier (result : list (str * str)) : option str :=
  match dict_get result (py "文档标题"), dict_get result (py "所属项目"),
        dict_get result (py "文档关键词") with
  | Some title, Some project, Some keywords =>
    Some (title ++ py "-" ++ project ++ py "-" ++ keywords)
  | _, _, _ => None
  end.

(** [new_results] after the loop over the results, given the rows read from
    the file. *)
Definition new_results (existing : list csv_row)
           (results : list (list (str * str)))
  : option (list (list (str * str))) :=
  let existing_results :=
      fold_left (fun ids row => set_add ids (row_identifier row)) existing [] in
  fold_left
    (fun new_results result =>
       match new_results, result_identifier result with
       | Some new_results, Some identifier =>
         if negb (mem identifier existing_results)
         then Some (new_results ++ [result])
         else Some new_results
       | _, _ => None
       end)
    results (Some []).

(** *** [document_mover.py] and [project_directory_manager.py]

    [row.get(key, '').strip()]: an [AttributeError] when the field is
    [None]. *)
Definition row_field (row : csv_row) (key : str) : option str :=
  match row_get row key with
  | Some value => Some (strip value)
  | None => None
  end.

(** [read_csv_mapping] on the rows of the file. *)
Definition read_csv_mapping (rows : list csv_row) : option (list (str * str)) :=
  fold_left
    (fun mapping row =>
       match mapping with
       | None => None
       | Some mapping =>
         match row_field row (py "文档标题") with
         | None => None
         | Some title =>
           match row_field row (py "所属项目") with
           | None => None
           | Some project =>
             if nonempty title && nonempty project
             then Some (dict_set mapping title project)
             else Some mapping
           end
         end
       end)
    rows (Some []).

(** [extract_projects_from_csv] on the rows of the file. *)
Definition extract_projects_from_csv (rows : list csv_row) : option (list str) :=
  match fold_left
          (fun projects row =>
             match projects with
             | None => None
             | Some projects =>
               match row_field row (py "所属项目") with
               | None => None
               | Some project =>
                 if nonempty project then Some (set_add projects project)
                 else Some projects
               end
             end)
          rows (Some []) with
  | Some projects => Some (sorted_asc projects)
  | None => None
  end.

(** The pairs of title and project that [read_csv_mapping] stores, in the
    order of the rows: those of the rows in which both are there and neither
    is empty after stripping. *)
Definition mapped_pairs (rows : list csv_row) : list (str * str) :=
  flat_map
    (fun row =>
       match row_field row (py "文档标题"), row_field row (py "所属项目") with
       | Some title, Some project =>
         if nonempty title && nonempty project then [(title, project)] else []
       | _, _ => []
       end)
    rows.

(** *** [_extract_simple_keywords_from_text] *)

(** The separators: Chinese punctuation, the double quote, brackets and
    whitespace.  As in [chinese_separators] the pattern is two adjacent
    string literals and the single quote is not in the class. *)
Definition simple_separators : regex :=
  [ Rep (Pos [CChars (py "，。！？；：" ++ [34]%N ++ py "（）【】"); CSpace])
        1 None ].

Definition simple_word_count (text : str) : list (str * nat) :=
  let text_clean := re_sub simple_separators (py " ") text in
  let word_candidates := split text_clean in
  fold_left
    (fun word_count word =>
       let word := strip_punctuation word in
       if (2 <=? length word) && (length word <=? 8)
          && negb (str_isdigit word) && nonempty (strip word)
       then dict_set word_count word
                     (match dict_get word_count word with
                      | Some n => n
                      | None => 0
                      end + 1)
       else word_count)
    word_candidates [].

Definition _extract_simple_keywords_from_text (text : str) (num_keywords : Z)
  : list str :=
  let sorted_words := sorted_desc snd (simple_word_count text) in
  fold_left
    (fun result item =>
       let '(word, count) := item in
       if (1 <=? count) && (Z.of_nat (length result) <? num_keywords)%Z
       then result ++ [word]
       else result)
    sorted_words [].

(** *** Notions for the properties of the project classifier *)

(** The name the first matching title pattern gives, standardized. *)
Definition title_pattern_name (title : str) : option str :=
  first_some
    (fun pattern =>
       match re_search pattern title with
       | Some m =>
         let project_core := slice title (fst (m_group m)) (snd (m_group m)) in
         Some (_standardize_project_name project_core)
       | None => None
       end)
    title_patterns.

(** A match of a content pattern is refused when, stripped, it has fewer
    than 2 characters, is a number, starts with ： or contains 解决, or when
    standardization does no more than append 项目 to it. *)
Definition refused_match (m : str) : Prop :=
  length (strip m) < 2
  \/ str_isdigit (strip m) = true
  \/ startswith (py "：") (strip m) = true
  \/ str_in (py "解决") (strip m) = true
  \/ _standardize_project_name (strip m) = strip m ++ py "项目".

(** The score of a catalog project: the occurrences of each of its keywords
    in the lower-cased title, space and text, plus 3 for each keyword the
    lower-cased title contains. *)
Definition project_score (title text : str) (keywords : list str) : nat :=
  list_sum
    (map (fun keyword =>
            count (lower (title ++ py " " ++ text)) (lower keyword)
            + (if str_in (lower keyword) (lower title) then 3 else 0))
         keywords).

(** *** Notions for the properties of the summary generator *)

(** A paragraph is in its place in the bucket of [group] when it is longer
    than 15 characters, contains a trigger word of the group and none of the
    groups tested before it. *)
Definition in_place (group : list str) (tested_before : list (list str))
           (para : str) : Prop :=
  15 < length para
  /\ any_in group (lower para) = true
  /\ Forall (fun earlier => any_in earlier (lower para) = false) tested_before.

Definition buckets_in_priority (b : buckets) : Prop :=
  Forall (in_place background_patterns []) (background_info b)
  /\ Forall (in_place objective_patterns [background_patterns])
            (objective_info b)
  /\ Forall (in_place solution_patterns
                      [background_patterns; objective_patterns])
            (solution_info b)
  /\ Forall (in_place result_patterns
                      [background_patterns; objective_patterns;
                       solution_patterns])
            (result_info b)
  /\ Forall (in_place content_patterns_summary
                      [background_patterns; objective_patterns;
                       solution_patterns; result_patterns])
            (content_info b).

(** The number of paragraphs in the five buckets. *)
Definition bucketed_count (b : buckets) : nat :=
  length (background_info b) + length (objective_info b)
  + length (solution_info b) + length (result_info b)
  + length (content_info b).

End Scripts.

(** *** Sample inputs for the scripts *)

(** Three rows of a results file: the second repeats the title of the first,
    with blanks around it, under another project. *)
Definition sample_rows : list csv_row :=
  [ [(py "文档标题", Some (py "a")); (py "所属项目", Some (py "P2"))];
    [(py "文档标题", Some (py " a ")); (py "所属项目", Some (py "P1"))];
    [(py "文档标题", Some (py "b")); (py "所属项目", Some (py "P2"))] ].

(** A file whose last line stops after the title. *)
Definition short_rows : list csv_row :=
  [ [(py "文档标题", Some (py "a")); (py "所属项目", Some (py "P1"))];
    [(py "文档标题", Some (py "b")); (py "所属项目", None)] ].

(** A batch of two results, the second of which is already in the file. *)
Definition sample_results : list (list (str * str)) :=
  [ format_output (py "a") (py "P1") (py "知识类文档") [py "ab"] (py "s");
    format_output (py "b") (py "P2") (py "知识类文档") [] (py "t") ].

Definition sample_existing : list csv_row :=
  [ [(py "文档标题", Some (py "b")); (py "所属项目", Some (py "P2"));
     (py "文档关键词", Some (py "知识类文档; "));
     (py "文档内容概述", Some (py "t"))] ].

(** *** [_simple_keyword_extraction] *)

(** [l[:n]] for an integer [n]: the first [n] items, or all but the last
    [-n] when [n] is negative. *)
Definition prefix (A : Type) (n : Z) (l : list A) : list A :=
  if (0 <=? n)%Z then firstn (Z.to_nat n) l
  else firstn (length l - Z.to_nat (- n)) l.

Definition common_keywords : list str :=
  pys [ "用户"; "产品"; "功能"; "系统"; "平台"; "服务"; "管理"; "开发"; "设计";
        "测试";
        "优化"; "体验"; "需求"; "方案"; "项目"; "业务"; "数据"; "分析"; "运营";
        "营销";
        "技术"; "接口"; "数据库"; "前端"; "后端"; "移动端"; "网站"; "应用";
        "软件"; "架构";
        "流程"; "规范"; "标准"; "制度"; "政策"; "培训"; "考核"; "绩效"; "质量";
        "安全";
        "财务"; "成本"; "预算"; "收入"; "支出"; "利润"; "投资"; "风险"; "合规";
        "审计";
        "推广"; "活动"; "渠道"; "客户"; "市场"; "品牌"; "内容"; "社群"; "转化";
        "留存" ]%string.

Section SimpleExtraction.
Context {U : UnicodeDB}.

(** The catalog keywords that occur in the lower-cased text, with the number
    of their occurrences. *)
Definition catalog_count (text : str) : list (str * nat) :=
  let text_lower := lower text in
  fold_left
    (fun keyword_count keyword =>
       let count := count text_lower keyword in
       if 0 <? count then dict_set keyword_count keyword count
       else keyword_count)
    common_keywords [].

(** The words counted when the catalog gives too few keywords. *)
Definition catalog_words (text : str) : list str :=
  fold_left
    (fun words word =>
       let word := strip_punctuation word in
       if (2 <=? length word) && (length word <=? 6)
          && negb (str_isdigit word)
       then words ++ [word] else words)
    (split (replace_char 12289 32
              (replace_char 12290 32 (replace_char 65292 32 text))))
    [].

Definition _simple_keyword_extraction (text : str) (num_keywords : Z)
  : list str :=
  let sorted_keywords := sorted_desc snd (catalog_count text) in
  let result := map fst (prefix num_keywords sorted_keywords) in
  let result :=
      if (Z.of_nat (length result) <? num_keywords)%Z
      then
        let word_count := Counter (catalog_words text) in
        let additional_words :=
            filter (fun word => negb (mem word result))
                   (map fst
                        (most_common_n (Z.to_nat (num_keywords * 2))
                                       word_count)) in
        result
          ++ prefix (num_keywords - Z.of_nat (length result)) additional_words
      else result in
  prefix num_keywords result.

End SimpleExtraction.

Unset Implicit Arguments.

(** * Properties *)

(** ** Strings *)

Lemma str_eqb_eq (a b : str) : str_eqb a b = true <-> a = b.
Proof.
  revert b; induction a as [|x a IH]; intros [|y b]; simpl;
    try (split; [discriminate | discriminate]); try tauto.
  rewrite andb_true_iff, N.eqb_eq, IH.
  split; [intros [-> ->]; reflexivity | intros E; inversion E; auto].
Qed.

Lemma str_eqb_refl (a : str) : str_eqb a a = true.
Proof. apply str_eqb_eq; reflexivity. Qed.

Lemma str_eqb_neq (a b : str) : str_eqb a b = false <-> a <> b.
Proof.
  rewrite <- str_eqb_eq. destruct (str_eqb a b); split; congruence.
Qed.

Lemma str_eqb_sym (a b : str) : str_eqb a b = str_eqb b a.
Proof.
  destruct (str_eqb a b) eqn:E.
  - apply str_eqb_eq in E; subst; symmetry; apply str_eqb_refl.
  - destruct (str_eqb b a) eqn:E'; [|reflexivity].
    apply str_eqb_eq in E'; subst. rewrite str_eqb_refl in E; discriminate.
Qed.

Lemma mem_In (x : str) (l : list str) : mem x l = true <-> In x l.
Proof.
  unfold mem. rewrite existsb_exists. split.
  - intros (y & Hy & E). apply str_eqb_eq in E; subst; assumption.
  - intros H. exists x. split; [assumption | apply str_eqb_refl].
Qed.

Lemma startswith_spec (p s : str) :
  startswith p s = true <-> exists post, s = p ++ post.
Proof.
  revert s; induction p as [|a p IH]; intros s; simpl.
  - split; [intros _; exists s; reflexivity | reflexivity].
  - destruct s as [|b s].
    + split; [discriminate | intros (post & E); discriminate].
    + rewrite andb_true_iff, N.eqb_eq, IH. split.
      * intros (-> & post & ->). exists post; reflexivity.
      * intros (post & E). inversion E; subst. split; [reflexivity|].
        exists post; reflexivity.
Qed.

(** [sub in s] holds exactly when [sub] is a contiguous part of [s]. *)
Lemma str_in_spec (sub s : str) :
  str_in sub s = true <-> exists pre post, s = pre ++ sub ++ post.
Proof.
  induction s as [|c s IH].
  - simpl. rewrite orb_false_r, startswith_spec. split.
    + intros (post & E). exists [], post. assumption.
    + intros (pre & post & E). destruct pre; [|discriminate].
      exists post; assumption.
  - cbn [str_in]. rewrite orb_true_iff, startswith_spec, IH. split.
    + intros [(post & E) | (pre & post & E)].
      * exists [], post; assumption.
      * exists (c :: pre), post. rewrite E; reflexivity.
    + intros (pre & post & E). destruct pre as [|c' pre].
      * left. exists post; assumption.
      * right. inversion E; subst. exists pre, post; reflexivity.
Qed.

Lemma dropwhile_all (p : N -> bool) (s : str) :
  forallb p s = true -> dropwhile p s = [].
Proof.
  induction s as [|c s IH]; simpl; [reflexivity|].
  destruct (p c); simpl; [assumption | discriminate].
Qed.

Lemma dropwhile_nil_all (p : N -> bool) (s : str) :
  dropwhile p s = [] -> forallb p s = true.
Proof.
  induction s as [|c s IH]; simpl; [reflexivity|].
  destruct (p c); simpl; [assumption | discriminate].
Qed.

(** Stripping leaves nothing exactly when every character is stripped. *)
Lemma strip_with_nil (p : N -> bool) (s : str) :
  strip_with p s = [] <-> forallb p s = true.
Proof.
  unfold strip_with. split.
  - intros E. apply dropwhile_nil_all.
    destruct (dropwhile p s) as [|c r] eqn:D; [reflexivity|].
    exfalso.
    assert (E' : dropwhile p (rev (c :: r)) = [])
      by (rewrite <- (rev_involutive (dropwhile _ _)), E; reflexivity).
    apply dropwhile_nil_all in E'.
    rewrite forallb_forall in E'.
    assert (Hc : p c = true) by (apply E', in_rev; rewrite rev_involutive; left; reflexivity).
    destruct s as [|x s]; simpl in D; [discriminate|].
    revert D. clear -Hc. revert x.
    induction s as [|y s IH]; intros x; simpl.
    + destruct (p x) eqn:Px; [discriminate|]. intros D; inversion D; subst; congruence.
    + destruct (p x) eqn:Px.
      * apply IH.
      * intros D; inversion D; subst; congruence.
  - intros H. rewrite (dropwhile_all _ _ H). reflexivity.
Qed.

(** ** Lists: positions, filters and prefixes *)

Lemma find_index_map (A B : Type) (f : A -> B) (p : B -> bool) (l : list A) :
  find_index p (map f l) = find_index (fun x => p (f x)) l.
Proof.
  induction l as [|x l IH]; simpl; [reflexivity|].
  destruct (p (f x)); [reflexivity | rewrite IH; reflexivity].
Qed.

Lemma find_index_le (A : Type) (p : A -> bool) (l : list A) :
  find_index p l <= length l.
Proof.
  induction l as [|x l IH]; simpl; [lia|]. destruct (p x); lia.
Qed.

Lemma find_index_lt (A : Type) (p : A -> bool) (l : list A) :
  find_index p l < length l <-> exists x, In x l /\ p x = true.
Proof.
  induction l as [|x l IH]; simpl.
  - split; [lia | intros (x & [] & _)].
  - destruct (p x) eqn:Px.
    + split; [intros _; exists x; auto | lia].
    + rewrite <- Nat.succ_lt_mono, IH. split.
      * intros (y & Hy & Py). exists y; auto.
      * intros (y & [-> | Hy] & Py); [congruence | exists y; auto].
Qed.

Lemma find_index_app (A : Type) (p : A -> bool) (l1 l2 : list A) :
  find_index p (l1 ++ l2)
  = if existsb p l1 then find_index p l1 else length l1 + find_index p l2.
Proof.
  induction l1 as [|x l1 IH]; simpl; [reflexivity|].
  destruct (p x); simpl; [reflexivity|].
  rewrite IH. destruct (existsb p l1); reflexivity.
Qed.

(** Filtering keeps the order of the first positions of what it keeps. *)
Lemma find_index_filter (A : Type) (p q f : A -> bool) (l : list A) :
  (forall x, In x l -> p x = true -> f x = true) ->
  (forall x, In x l -> q x = true -> f x = true) ->
  (find_index p (filter f l) < find_index q (filter f l)
   <-> find_index p l < find_index q l).
Proof.
  induction l as [|x l IH]; intros Hp Hq; simpl; [tauto|].
  assert (IH' : find_index p (filter f l) < find_index q (filter f l)
                <-> find_index p l < find_index q l).
  { apply IH; intros y Hy; [apply Hp | apply Hq]; right; assumption. }
  destruct (p x) eqn:Px.
  - rewrite (Hp x (or_introl eq_refl) Px). simpl. rewrite Px.
    destruct (q x); split; lia.
  - destruct (q x) eqn:Qx.
    + rewrite (Hq x (or_introl eq_refl) Qx). simpl. rewrite Px, Qx.
      split; lia.
    + destruct (f x); simpl; rewrite ?Px, ?Qx; rewrite <- ?Nat.succ_lt_mono;
        exact IH'.
Qed.

(** A prefix that has an element of [p] has the first one at the position
    the whole list has it. *)
Lemma find_index_firstn (A : Type) (p : A -> bool) (n : nat) (l : list A) :
  (exists x, In x (firstn n l) /\ p x = true) ->
  find_index p (firstn n l) = find_index p l.
Proof.
  revert n; induction l as [|x l IH]; intros n H.
  - rewrite firstn_nil; reflexivity.
  - destruct n as [|n]; [destruct H as (y & [] & _)|].
    simpl. destruct (p x) eqn:Px; [reflexivity|].
    f_equal. apply IH. destruct H as (y & [-> | Hy] & Py).
    + congruence.
    + exists y; auto.
Qed.

Lemma filter_eq_cons_split (A : Type) (f : A -> bool) (l pre post : list A)
      (x : A) :
  filter f l = pre ++ x :: post ->
  exists pre' post',
    l = pre' ++ x :: post' /\ filter f pre' = pre /\ filter f post' = post.
Proof.
  revert pre; induction l as [|y l IH]; intros pre E; simpl in E.
  - destruct pre; discriminate.
  - destruct (f y) eqn:Fy.
    + destruct pre as [|z pre]; simpl in E; inversion E; subst.
      * exists [], l. simpl. auto.
      * destruct (IH pre H1) as (pre' & post' & -> & Hpre & Hpost).
        exists (z :: pre'), post'. simpl. rewrite Fy, Hpre. auto.
    + destruct (IH pre E) as (pre' & post' & -> & Hpre & Hpost).
      exists (y :: pre'), post'. simpl. rewrite Fy. auto.
Qed.

(** ** Sorting *)

Lemma insert_desc_perm (A : Type) (key : A -> nat) (x : A) (l : list A) :
  Permutation (insert_desc key x l) (x :: l).
Proof.
  induction l as [|y l IH]; simpl; [reflexivity|].
  destruct (key x <? key y); [|reflexivity].
  rewrite IH. apply perm_swap.
Qed.

Lemma sorted_desc_perm (A : Type) (key : A -> nat) (l : list A) :
  Permutation (sorted_desc key l) l.
Proof.
  induction l as [|x l IH]; simpl; [reflexivity|].
  rewrite insert_desc_perm, IH. reflexivity.
Qed.

Lemma sorted_desc_In (A : Type) (key : A -> nat) (l : list A) (x : A) :
  In x (sorted_desc key l) <-> In x l.
Proof.
  split; apply Permutation_in;
    [apply sorted_desc_perm | symmetry; apply sorted_desc_perm].
Qed.

Lemma insert_desc_sorted (A : Type) (key : A -> nat) (x : A) (l : list A) :
  StronglySorted (fun a b => key b <= key a) l ->
  StronglySorted (fun a b => key b <= key a) (insert_desc key x l).
Proof.
  induction l as [|y l IH]; intros S; simpl.
  - constructor; constructor.
  - inversion S as [|? ? S' F]; subst.
    destruct (Nat.ltb_spec (key x) (key y)) as [Lt|Ge].
    + constructor; [apply IH, S'|].
      rewrite Forall_forall in *. intros z Hz.
      apply (Permutation_in _ (insert_desc_perm _ key x l)) in Hz.
      destruct Hz as [<- | Hz]; [lia | apply F, Hz].
    + constructor; [assumption|].
      constructor; [assumption|].
      rewrite Forall_forall in *. intros z Hz.
      specialize (F z Hz). lia.
Qed.

(** The result is in descending order of the key. *)
Lemma sorted_desc_sorted (A : Type) (key : A -> nat) (l : list A) :
  StronglySorted (fun a b => key b <= key a) (sorted_desc key l).
Proof.
  induction l as [|x l IH]; simpl; [constructor|].
  apply insert_desc_sorted, IH.
Qed.

Lemma insert_desc_filter (A : Type) (key : A -> nat) (v : nat) (x : A)
      (l : list A) :
  filter (fun y => key y =? v) (insert_desc key x l)
  = filter (fun y => key y =? v) (x :: l).
Proof.
  induction l as [|y l IH]; [reflexivity|].
  cbn [insert_desc].
  destruct (Nat.ltb_spec (key x) (key y)) as [Lt|Ge]; [|reflexivity].
  cbn [filter] in *. rewrite IH.
  destruct (Nat.eqb_spec (key x) v) as [Ex|Nx];
    destruct (Nat.eqb_spec (key y) v) as [Ey|Ny]; try reflexivity.
  lia.
Qed.

(** The sort is stable: the elements of one key keep their order. *)
Lemma sorted_desc_stable (A : Type) (key : A -> nat) (v : nat) (l : list A) :
  filter (fun y => key y =? v) (sorted_desc key l)
  = filter (fun y => key y =? v) l.
Proof.
  induction l as [|x l IH]; [reflexivity|].
  cbn [sorted_desc]. rewrite insert_desc_filter. cbn [filter].
  rewrite IH. reflexivity.
Qed.

(** Among elements of one key, the sort keeps the order of the first
    positions. *)
Lemma sorted_desc_ties (A : Type) (key : A -> nat) (p q : A -> bool) (v : nat)
      (l : list A) :
  (forall x, In x l -> p x = true -> key x = v) ->
  (forall x, In x l -> q x = true -> key x = v) ->
  (find_index p (sorted_desc key l) < find_index q (sorted_desc key l)
   <-> find_index p l < find_index q l).
Proof.
  intros Hp Hq.
  rewrite <- (find_index_filter _ p q (fun y => key y =? v) (sorted_desc key l)).
  - rewrite sorted_desc_stable. apply find_index_filter.
    + intros x Hx Px. apply Nat.eqb_eq, Hp; assumption.
    + intros x Hx Qx. apply Nat.eqb_eq, Hq; assumption.
  - intros x Hx Px. apply Nat.eqb_eq, Hp; [apply sorted_desc_In in Hx|]; assumption.
  - intros x Hx Qx. apply Nat.eqb_eq, Hq; [apply sorted_desc_In in Hx|]; assumption.
Qed.

Lemma sorted_desc_map_fst (A : Type) (key : A -> nat) (l : list A) :
  map fst (sorted_desc snd (map (fun x => (x, key x)) l)) = sorted_desc key l.
Proof.
  assert (I : forall x s,
             map fst (insert_desc snd (x, key x) (map (fun y => (y, key y)) s))
             = insert_desc key x s).
  { intros x s. induction s as [|y s IH]; [reflexivity|].
    simpl. destruct (key x <? key y); simpl; [rewrite IH; reflexivity|].
    rewrite map_map. simpl. rewrite map_id. reflexivity. }
  induction l as [|x l IH]; [reflexivity|].
  simpl. rewrite <- IH.
  assert (E : sorted_desc snd (map (fun y => (y, key y)) l)
              = map (fun y => (y, key y)) (sorted_desc key l)).
  { clear IH. induction l as [|z l IHl]; [reflexivity|].
    simpl. rewrite IHl. generalize (sorted_desc key l) as s.
    induction s as [|y s IHs]; [reflexivity|].
    simpl. destruct (key z <? key y); simpl; [rewrite IHs|]; reflexivity. }
  rewrite E, I. rewrite map_map. simpl. rewrite map_id. reflexivity.
Qed.

(** ** Dictionaries and counters *)

Lemma dict_set_fresh (A : Type) (d : list (str * A)) (k : str) (v : A) :
  ~ In k (map fst d) -> dict_set d k v = d ++ [(k, v)].
Proof.
  induction d as [|[k' v'] d IH]; intros H; simpl; [reflexivity|].
  destruct (str_eqb k k') eqn:E.
  - apply str_eqb_eq in E. exfalso. apply H. left. symmetry; exact E.
  - rewrite IH; [reflexivity|]. intros Hin. apply H. right; exact Hin.
Qed.

Lemma dict_get_In (A : Type) (d : list (str * A)) (k : str) (v : A) :
  NoDup (map fst d) -> In (k, v) d -> dict_get d k = Some v.
Proof.
  induction d as [|[k' v'] d IH]; intros N H; [destruct H|].
  simpl in *. inversion N as [|? ? Nk N']; subst.
  destruct H as [E | H].
  - inversion E; subst. rewrite str_eqb_refl. reflexivity.
  - destruct (str_eqb k k') eqn:E.
    + apply str_eqb_eq in E; subst. exfalso. apply Nk.
      apply (in_map fst) in H. exact H.
    + apply IH; assumption.
Qed.

Lemma counter_incr_keys (c : list (str * nat)) (w : str) :
  map fst (counter_incr c w)
  = if mem w (map fst c) then map fst c else map fst c ++ [w].
Proof.
  induction c as [|[k n] c IH]; simpl; [reflexivity|].
  destruct (str_eqb w k); simpl; [reflexivity|].
  rewrite IH. destruct (mem w (map fst c)); reflexivity.
Qed.

Lemma counter_incr_NoDup (c : list (str * nat)) (w : str) :
  NoDup (map fst c) -> NoDup (map fst (counter_incr c w)).
Proof.
  intros N. rewrite counter_incr_keys.
  destruct (mem w (map fst c)) eqn:M; [assumption|].
  apply NoDup_app; [assumption | repeat constructor; intros [] | ].
  intros x Hx [<- | []].
  apply mem_In in Hx. congruence.
Qed.

Lemma Counter_from_NoDup (l : list str) (c : list (str * nat)) :
  NoDup (map fst c) -> NoDup (map fst (fold_left counter_incr l c)).
Proof.
  revert c; induction l as [|w l IH]; intros c N; simpl; [assumption|].
  apply IH, counter_incr_NoDup, N.
Qed.

Lemma Counter_from_keys (l : list str) (c : list (str * nat)) (k : str) :
  In k (map fst (fold_left counter_incr l c)) -> In k (map fst c) \/ In k l.
Proof.
  revert c; induction l as [|w l IH]; intros c H; simpl in *; [auto|].
  apply IH in H. destruct H as [H | H]; [|auto].
  rewrite counter_incr_keys in H.
  destruct (mem w (map fst c)); [auto|].
  apply in_app_or in H. destruct H as [H | [<- | []]]; auto.
Qed.

(** The keys of a counter are in the order in which the words first came. *)
Lemma Counter_from_order (l : list str) (c : list (str * nat)) (a b : str) :
  index a (map fst (fold_left counter_incr l c))
  < index b (map fst (fold_left counter_incr l c))
  <-> index a (map fst c ++ l) < index b (map fst c ++ l).
Proof.
  revert c; induction l as [|w l IH]; intros c.
  - simpl. rewrite app_nil_r. tauto.
  - cbn [fold_left]. rewrite IH, counter_incr_keys.
    destruct (mem w (map fst c)) eqn:M.
    + unfold index. rewrite !find_index_app. cbn [find_index].
      set (K := map fst c) in *.
      assert (Out : forall x, existsb (str_eqb x) K = false -> str_eqb x w = false).
      { intros x Hx. destruct (str_eqb x w) eqn:E; [|reflexivity].
        apply str_eqb_eq in E; subst. unfold mem in M. congruence. }
      assert (Inn : forall x, existsb (str_eqb x) K = true ->
                              find_index (str_eqb x) K < length K).
      { intros x Hx. apply find_index_lt. apply existsb_exists in Hx.
        exact Hx. }
      destruct (existsb (str_eqb a) K) eqn:Ea;
        destruct (existsb (str_eqb b) K) eqn:Eb;
        rewrite ?(Out a Ea), ?(Out b Eb);
        try specialize (Inn a Ea) as Ia; try specialize (Inn b Eb) as Ib;
        split; lia.
    + rewrite <- app_assoc. simpl. tauto.
Qed.

Lemma Counter_order (l : list str) (a b : str) :
  index a (map fst (Counter l)) < index b (map fst (Counter l))
  <-> index a l < index b l.
Proof. apply (Counter_from_order l [] a b). Qed.

Lemma Counter_NoDup (l : list str) : NoDup (map fst (Counter l)).
Proof. apply Counter_from_NoDup. constructor. Qed.

Lemma Counter_keys (l : list str) (k : str) :
  In k (map fst (Counter l)) -> In k l.
Proof.
  intros H. apply Counter_from_keys in H. destruct H as [[] | H]; exact H.
Qed.

(** ** Regular expressions depend on the database only through the
       characters of the subject *)

Lemma agree_on_skipn (U1 U2 : UnicodeDB) (k : nat) (s : str) :
  agree_on U1 U2 s -> agree_on U1 U2 (skipn k s).
Proof.
  intros H c Hc. apply H.
  rewrite <- (firstn_skipn k s). apply in_or_app; right; assumption.
Qed.

Lemma agree_on_tail (U1 U2 : UnicodeDB) (c : N) (s : str) :
  agree_on U1 U2 (c :: s) -> agree_on U1 U2 s.
Proof. intros H x Hx. apply H. right; assumption. Qed.

Lemma charset_test_agree (U1 U2 : UnicodeDB) (cs : charset) (s : str) :
  agree_on U1 U2 s ->
  forall c, In c s -> @charset_test U1 cs c = @charset_test U2 cs c.
Proof.
  intros H c Hc. destruct (H c Hc) as (Hs & Ha & Hd).
  assert (E : forall l, existsb (fun k => @cls_test U1 k c) l
                        = existsb (fun k => @cls_test U2 k c) l).
  { induction l as [|k l IH]; [reflexivity|].
    simpl. rewrite IH. f_equal.
    destruct k; simpl; congruence. }
  destruct cs; simpl; rewrite E; reflexivity.
Qed.

Lemma run_length_ext (p q : N -> bool) (s : str) :
  (forall c, In c s -> p c = q c) ->
  forall limit, run_length p limit s = run_length q limit s.
Proof.
  induction s as [|c s IH]; intros H limit; [reflexivity|].
  simpl. rewrite <- (H c (or_introl eq_refl)).
  destruct (p c); [|reflexivity].
  destruct limit as [[|k]|]; [reflexivity| |];
    f_equal; apply IH; intros x Hx; apply H; right; assumption.
Qed.

Lemma backtrack_ext (A : Type) (try1 try2 : nat -> option A) (lo : nat) :
  (forall k, try1 k = try2 k) ->
  forall k, backtrack k lo try1 = backtrack k lo try2.
Proof.
  intros H. induction k as [|k IH]; simpl; rewrite H.
  - reflexivity.
  - destruct (try2 (S k)); [reflexivity|].
    destruct (lo <=? k); [apply IH | reflexivity].
Qed.

Lemma match_here_agree (U1 U2 : UnicodeDB) (re : regex) :
  forall s pos g,
    agree_on U1 U2 s ->
    @match_here U1 re s pos g = @match_here U2 re s pos g.
Proof.
  induction re as [|a re IH]; intros s pos g H; [reflexivity|].
  destruct a as [l | cs lo hi | | ]; simpl.
  - destruct (startswith l s); [|reflexivity].
    apply IH, agree_on_skipn, H.
  - rewrite (run_length_ext _ _ s (charset_test_agree U1 U2 cs s H)).
    destruct (_ <? lo); [reflexivity|].
    apply backtrack_ext. intros k. apply IH, agree_on_skipn, H.
  - apply IH, H.
  - apply IH, H.
Qed.

Lemma search_from_agree (U1 U2 : UnicodeDB) (re : regex) :
  forall s pos,
    agree_on U1 U2 s -> @search_from U1 re s pos = @search_from U2 re s pos.
Proof.
  induction s as [|c s IH]; intros pos H; simpl;
    rewrite (match_here_agree U1 U2 re _ pos (pos, pos) H).
  - reflexivity.
  - destruct (match_here re (c :: s) pos (pos, pos)) as [[e g]|]; [reflexivity|].
    apply IH. eapply agree_on_tail, H.
Qed.

Lemma sub_from_agree (U1 U2 : UnicodeDB) (re : regex) (repl : str) :
  forall s pos skip,
    agree_on U1 U2 s ->
    @sub_from U1 re repl s pos skip = @sub_from U2 re repl s pos skip.
Proof.
  induction s as [|c s IH]; intros pos skip H; simpl.
  - destruct skip; [|reflexivity].
    rewrite (match_here_agree U1 U2 re _ pos (pos, pos) H). reflexivity.
  - pose proof (agree_on_tail _ _ _ _ H) as H'.
    destruct skip; [|apply IH, H'].
    rewrite (match_here_agree U1 U2 re _ pos (pos, pos) H).
    destruct (match_here re (c :: s) pos (pos, pos)) as [[e g]|].
    + destruct (e =? pos); rewrite (IH _ _ H'); reflexivity.
    + rewrite (IH _ _ H'); reflexivity.
Qed.

Lemma dropwhile_ext (p q : N -> bool) (s : str) :
  (forall c, In c s -> p c = q c) -> dropwhile p s = dropwhile q s.
Proof.
  induction s as [|c s IH]; intros H; [reflexivity|].
  simpl. rewrite <- (H c (or_introl eq_refl)).
  destruct (p c); [|reflexivity].
  apply IH. intros x Hx. apply H. right; assumption.
Qed.

Lemma dropwhile_incl (p : N -> bool) (s : str) :
  forall c, In c (dropwhile p s) -> In c s.
Proof.
  induction s as [|x s IH]; intros c; simpl; [tauto|].
  destruct (p x); [right; apply IH; assumption | tauto].
Qed.

Lemma strip_with_ext (p q : N -> bool) (s : str) :
  (forall c, In c s -> p c = q c) -> strip_with p s = strip_with q s.
Proof.
  intros H. unfold strip_with.
  rewrite <- (dropwhile_ext p q s H). f_equal.
  apply dropwhile_ext. intros c Hc. apply H.
  apply in_rev in Hc. eapply dropwhile_incl, Hc.
Qed.

(** On plain strings every lawful database behaves as [plain_db]. *)
Section Plain.
Context {U : UnicodeDB} {L : UnicodeLaws U}.

Lemma plain_agree (s : str) :
  forallb is_plain s = true -> agree_on U plain_db s.
Proof.
  intros H c Hc. rewrite forallb_forall in H. specialize (H c Hc).
  simpl. auto using isspace_plain, isalnum_plain, isdecimal_plain.
Qed.

Lemma re_search_plain (re : regex) (s : str) :
  forallb is_plain s = true ->
  re_search re s = @re_search plain_db re s.
Proof. intros H. apply search_from_agree, plain_agree, H. Qed.

Lemma re_sub_plain (re : regex) (repl s : str) :
  forallb is_plain s = true ->
  re_sub re repl s = @re_sub plain_db re repl s.
Proof. intros H. apply sub_from_agree, plain_agree, H. Qed.

Lemma strip_plain (s : str) :
  forallb is_plain s = true -> strip s = @strip plain_db s.
Proof.
  intros H. apply strip_with_ext. intros c Hc.
  apply (plain_agree s H c Hc).
Qed.

End Plain.

Lemma plain_db_laws : UnicodeLaws plain_db.
Proof. constructor; intros; reflexivity. Qed.

Section TaggerProperties.
Context {U : UnicodeDB} {T : Tokenizer}.

(** ** The orchestrator *)

Lemma strip_blank (text : str) :
  forallb isspace text = true <-> negb (nonempty (strip text)) = true.
Proof.
  unfold strip. rewrite <- strip_with_nil.
  destruct (strip_with isspace text); simpl; split; congruence.
Qed.

(** C1. For every title and every text made of whitespace only (the empty
    text included), [process_document] returns the record built from the
    project 未知项目, the type 知识类文档, no keyword and the summary
    文档内容为空, and calls none of the four components. *)
Theorem process_document_blank (title text : str) :
  forallb isspace text = true ->
  process_document title text
  = ([], format_output title (py "未知项目") (py "知识类文档") []
                       (py "文档内容为空"))
  /\ format_output title (py "未知项目") (py "知识类文档") [] (py "文档内容为空")
     = [ (py "文档标题", title); (py "所属项目", py "未知项目");
         (py "文档关键词", py "知识类文档; ");
         (py "文档内容概述", py "文档内容为空") ].
Proof.
  intros H. apply strip_blank in H.
  unfold process_document. rewrite H. split; reflexivity.
Qed.

(** ** The keyword extractor: the selection loop *)

(** The selection loop takes the first [num_keywords] selectable words. *)
Lemma selection_loop (num : Z) (items : list (str * nat)) (acc : list str) :
  fold_left
    (fun result_keywords item =>
       let '(word, count) := item in
       if negb (mem word common_words) && (1 <=? count)
          && (Z.of_nat (length result_keywords) <? num)%Z
       then result_keywords ++ [word]
       else result_keywords)
    items acc
  = acc ++ firstn (Z.to_nat num - length acc)
                  (map fst (filter selectable items)).
Proof.
  revert acc. induction items as [|[w c] items IH]; intros acc.
  - simpl. rewrite firstn_nil, app_nil_r. reflexivity.
  - cbn [fold_left filter].
    assert (Sel : selectable (w, c) = negb (mem w common_words) && (1 <=? c))
      by reflexivity.
    rewrite Sel.
    destruct (negb (mem w common_words) && (1 <=? c)) eqn:Ok; cbn [andb].
    + destruct (Z.of_nat (length acc) <? num)%Z eqn:Lt.
      * rewrite IH, length_app. cbn [length map].
        apply Z.ltb_lt in Lt.
        replace (Z.to_nat num - length acc)
          with (S (Z.to_nat num - (length acc + 1))) by lia.
        cbn [firstn]. rewrite <- app_assoc. reflexivity.
      * rewrite IH. apply Z.ltb_ge in Lt.
        replace (Z.to_nat num - length acc) with 0 by lia.
        reflexivity.
    + apply IH.
Qed.

Lemma verified_keywords_closed_form (text : str) (num : Z) :
  _extract_verified_keywords_from_text text num
  = firstn (Z.to_nat num)
           (map fst (filter selectable (most_common (word_count text)))).
Proof.
  unfold _extract_verified_keywords_from_text.
  rewrite selection_loop. simpl. rewrite Nat.sub_0_r. reflexivity.
Qed.

Lemma keywords_count_pos (n : Z) : (2 <= _get_keywords_count n)%Z.
Proof.
  unfold _get_keywords_count.
  repeat match goal with
         | |- context [(?a <? ?b)%Z] =>
           let E := fresh in destruct (Z.ltb_spec a b) as [E|E]
         end; try lia.
  assert (20 <= n / 1000)%Z by (apply Z.div_le_lower_bound; lia).
  lia.
Qed.

Lemma keywords_count_max (n : Z) : (_get_keywords_count n <= 30)%Z.
Proof.
  unfold _get_keywords_count.
  repeat match goal with
         | |- context [(?a <? ?b)%Z] =>
           let E := fresh in destruct (Z.ltb_spec a b) as [E|E]
         end; try lia.
Qed.

Lemma extract_keywords_length (text : str) :
  (Z.of_nat (length (extract_keywords text))
   <= _get_keywords_count (Z.of_nat (length text)))%Z.
Proof.
  pose proof (keywords_count_pos (Z.of_nat (length text))) as Hpos.
  unfold extract_keywords.
  destruct (negb (nonempty (strip text))).
  - simpl. lia.
  - cbv zeta. rewrite verified_keywords_closed_form.
    pose proof (firstn_le_length
                  (Z.to_nat (_get_keywords_count (Z.of_nat (length text))))
                  (map fst (filter selectable
                                   (most_common (word_count text))))).
    lia.
Qed.

(** C3. The number of keywords [extract_keywords] returns is at most the cap
    derived from the length of the text, the step function <200→2, <500→3,
    <1000→5, <2000→8, <3000→10, <5000→12, <8000→15, <12000→18, <20000→22,
    otherwise min(length/1000 + 3, 30): each step is stated with its bounds,
    [n] being the length of the text and [k] the number of keywords.  The
    cap is the one [_get_keywords_count] computes, and lies between 2 and
    30. *)
Theorem keywords_within_cap (text : str) :
  let n := Z.of_nat (length text) in
  let k := Z.of_nat (length (extract_keywords text)) in
  ((n < 200 -> k <= 2)
   /\ (200 <= n < 500 -> k <= 3)
   /\ (500 <= n < 1000 -> k <= 5)
   /\ (1000 <= n < 2000 -> k <= 8)
   /\ (2000 <= n < 3000 -> k <= 10)
   /\ (3000 <= n < 5000 -> k <= 12)
   /\ (5000 <= n < 8000 -> k <= 15)
   /\ (8000 <= n < 12000 -> k <= 18)
   /\ (12000 <= n < 20000 -> k <= 22)
   /\ (20000 <= n -> k <= Z.min (n / 1000 + 3) 30)
   /\ k <= _get_keywords_count n
   /\ 2 <= _get_keywords_count n <= 30)%Z.
Proof.
  cbv zeta.
  pose proof (extract_keywords_length text) as B.
  pose proof (keywords_count_pos (Z.of_nat (length text))) as Lo.
  pose proof (keywords_count_max (Z.of_nat (length text))) as Hi.
  repeat split; try assumption; intros H;
    unfold _get_keywords_count in B;
    repeat match type of B with
           | context [(?a <? ?b)%Z] =>
             let E := fresh in destruct (Z.ltb_spec a b) as [E|E]
           end; lia.
Qed.

(** C4, as the code has it. The cap is 2 at length 150, 5 at length 600 and
    28 at length 25000, and a text of 600 characters gets at most 5
    keywords. *)
Theorem keywords_cap_examples :
  _get_keywords_count 150 = 2%Z
  /\ _get_keywords_count 600 = 5%Z
  /\ _get_keywords_count 25000 = Z.min (25 + 3) 30
  /\ _get_keywords_count 25000 = 28%Z
  /\ forall text, length text = 600 -> length (extract_keywords text) <= 5.
Proof.
  repeat split; try reflexivity.
  intros text Hlen. pose proof (extract_keywords_length text) as H.
  rewrite Hlen in H. change (_get_keywords_count (Z.of_nat 600)) with 5%Z in H.
  lia.
Qed.

(** ** The project classifier: the first title check *)

(** C5. When the lower-cased title contains 超品中心 or 超品,
    [identify_project] returns 超品中心项目 whatever the text is: the check
    comes before the extraction of an explicit name and before the scoring.
    The title 超品中心V2.0需求文档 is such a title. *)
Theorem identify_project_tier1_first {L : UnicodeLaws U} :
  (forall text title,
      str_in (py "超品中心") (lower title) = true
      \/ str_in (py "超品") (lower title) = true ->
      identify_project text title = py "超品中心项目")
  /\ (forall text,
         identify_project text (py "超品中心V2.0需求文档") = py "超品中心项目").
Proof.
  assert (G : forall text title,
             str_in (py "超品中心") (lower title) = true
             \/ str_in (py "超品") (lower title) = true ->
             identify_project text title = py "超品中心项目").
  { intros text title H.
    unfold identify_project, identify_project_with.
    replace (any_in (pys ["超品中心"; "超品"]%string) (lower title)) with true.
    - reflexivity.
    - symmetry. unfold any_in, pys. cbn [map existsb].
      destruct H as [-> | ->]; [reflexivity | apply orb_true_iff; right; reflexivity]. }
  split; [exact G|].
  intros text. apply G. left.
  rewrite lower_plain by reflexivity. reflexivity.
Qed.


(** ** The project classifier: after the title checks *)

Lemma identify_project_with_eq (infer : str -> str -> str) (text title : str) :
  identify_project_with infer text title
  = match first_title_checks (lower title) with
    | Some project => project
    | None => identify_after_title_checks infer text title (lower title)
                (lower (title ++ py " " ++ text))
    end.
Proof.
  unfold identify_project_with, first_title_checks. cbv zeta.
  repeat match goal with
         | |- context [if any_in ?w ?t then _ else _] => destruct (any_in w t)
         end; reflexivity.
Qed.

Ltac eval_plain :=
  repeat match goal with
  | |- context [@re_search plain_db ?p ?s] =>
    let v := eval vm_compute in (@re_search plain_db p s) in
    change (@re_search plain_db p s) with v
  | |- context [@re_sub plain_db ?p ?r ?s] =>
    let v := eval vm_compute in (@re_sub plain_db p r s) in
    change (@re_sub plain_db p r s) with v
  | |- context [@strip plain_db ?s] =>
    let v := eval vm_compute in (@strip plain_db s) in
    change (@strip plain_db s) with v
  end.

Lemma standardize_ecommerce {L : UnicodeLaws U} :
  _standardize_project_name (py "电商项目") = py "电商项目项目".
Proof.
  unfold _standardize_project_name.
  rewrite re_sub_plain by reflexivity. eval_plain.
  rewrite strip_plain by reflexivity. eval_plain.
  reflexivity.
Qed.

Lemma explicit_name_ecommerce {L : UnicodeLaws U} (text : str) :
  _extract_explicit_project_name (py "电商项目V1.0") text = py "电商项目项目".
Proof.
  unfold _extract_explicit_project_name, title_patterns. cbv zeta.
  cbn [first_some].
  repeat (rewrite re_search_plain by reflexivity; eval_plain; cbv beta iota).
  cbn [m_group fst snd].
  change (slice (py "电商项目V1.0") 0 4) with (py "电商项目").
  rewrite standardize_ecommerce. reflexivity.
Qed.

(** C10. For every text, the title 电商项目V1.0 passes the six title checks,
    the pattern for X项目 captures 电商项目, no entry of the standardization
    table applies, and [identify_project] returns 电商项目项目: the captured
    name with 项目 appended once more. *)
Theorem identify_project_doubled_suffix {L : UnicodeLaws U} (text : str) :
  first_title_checks (lower (py "电商项目V1.0")) = None
  /\ _standardize_project_name (py "电商项目") = py "电商项目" ++ py "项目"
  /\ _extract_explicit_project_name (py "电商项目V1.0") text = py "电商项目项目"
  /\ identify_project text (py "电商项目V1.0") = py "电商项目项目"
  /\ py "电商项目项目" = py "电商" ++ py "项目" ++ py "项目".
Proof.
  assert (E : first_title_checks (lower (py "电商项目V1.0")) = None)
    by (rewrite lower_plain by reflexivity; reflexivity).
  split; [exact E|].
  split; [rewrite standardize_ecommerce; reflexivity|].
  split; [apply explicit_name_ecommerce|].
  split; [|reflexivity].
  unfold identify_project. rewrite identify_project_with_eq, E.
  unfold identify_after_title_checks.
  rewrite explicit_name_ecommerce. reflexivity.
Qed.

Lemma existsb_false_cons (A : Type) (p : A -> bool) (x : A) (l : list A) :
  existsb p (x :: l) = false -> p x = false /\ existsb p l = false.
Proof. simpl. apply orb_false_elim. Qed.

(** When the first copy of the title checks lets a title through, the
    second copy does too, unless the title has "onboard" in it. *)
Lemma second_title_checks_pass (text title : str) :
  first_title_checks (lower title) = None ->
  str_in (py "onboard") (lower title) = false ->
  _infer_project_from_content text title
  = _infer_project_from_content_without_title_checks text title.
Proof.
  unfold first_title_checks, _infer_project_from_content,
    _infer_project_from_content_without_title_checks.
  cbv zeta. intros H Onboard.
  destruct (any_in (pys ["超品中心"; "超品"]%string) (lower title));
    [discriminate|].
  destruct (any_in (pys ["财务"; "结算"; "业绩"; "毛利"]%string) (lower title));
    [discriminate|].
  destruct (any_in (pys ["新人"; "入职"; "培训"]%string) (lower title)) eqn:E3;
    [discriminate|].
  destruct (any_in (pys ["部门"; "组织"; "团队"; "职责"]%string) (lower title));
    [discriminate|].
  destruct (any_in (pys ["商家"; "星选"; "遥望星选"]%string) (lower title));
    [discriminate|].
  destruct (any_in (pys ["文档"; "分类"; "收集"; "知识"]%string) (lower title));
    [discriminate|].
  replace (any_in (pys ["新人"; "入职"; "培训"; "onboard"]%string) (lower title))
    with false; [reflexivity|].
  symmetry. unfold any_in, pys in *. cbn [map] in *.
  apply existsb_false_cons in E3. destruct E3 as (E31 & E3).
  apply existsb_false_cons in E3. destruct E3 as (E32 & E3).
  apply existsb_false_cons in E3. destruct E3 as (E33 & _).
  cbn [existsb]. rewrite E31, E32, E33, Onboard. reflexivity.
Qed.

(** C9, as the code has it. For every title whose lower-cased form does not
    contain "onboard", [identify_project] returns what it returns without
    the second copy of the title checks. *)
Theorem identify_project_second_checks_redundant (text title : str) :
  str_in (py "onboard") (lower title) = false ->
  identify_project text title
  = identify_project_without_second_checks text title.
Proof.
  intros Onboard.
  unfold identify_project, identify_project_without_second_checks.
  rewrite !identify_project_with_eq.
  destruct (first_title_checks (lower title)) eqn:E; [reflexivity|].
  unfold identify_after_title_checks.
  rewrite (second_title_checks_pass _ title E Onboard). reflexivity.
Qed.

(** ** The keyword extractor: what is counted *)

Lemma counting_loop (f : str -> str) (ok : str -> bool) (l : list str)
      (c : list (str * nat)) :
  fold_left
    (fun word_count word =>
       let word := f word in
       if ok word then counter_incr word_count word else word_count)
    l c
  = fold_left counter_incr (filter ok (map f l)) c.
Proof.
  revert c; induction l as [|w l IH]; intros c; [reflexivity|].
  cbn [fold_left map filter]. cbv zeta.
  destruct (ok (f w)); cbn [fold_left]; apply IH.
Qed.

Lemma word_count_Counter (text : str) :
  word_count text = Counter (counted_candidates text).
Proof.
  unfold word_count, counted_candidates, stripped_candidates, Counter.
  apply (counting_loop strip_punctuation (fun word => candidate_ok word text)).
Qed.

Lemma firstn_incl (A : Type) (n : nat) (l : list A) (x : A) :
  In x (firstn n l) -> In x l.
Proof.
  intros H. rewrite <- (firstn_skipn n l). apply in_or_app; left; exact H.
Qed.

(** A returned keyword is an item of the counter that is selectable, and
    it was counted. *)
Lemma keyword_item (text : str) (num : Z) (kw : str) :
  In kw (_extract_verified_keywords_from_text text num) ->
  exists n, In (kw, n) (word_count text) /\ selectable (kw, n) = true.
Proof.
  rewrite verified_keywords_closed_form. intros H.
  apply firstn_incl, in_map_iff in H. destruct H as ([k n] & E & H).
  simpl in E; subst k. apply filter_In in H. destruct H as (H & S).
  exists n. split; [|exact S].
  unfold most_common in H. apply sorted_desc_In in H. exact H.
Qed.

Lemma counted_word_ok (text kw : str) (n : nat) :
  In (kw, n) (word_count text) -> candidate_ok kw text = true.
Proof.
  intros H. apply (in_map fst) in H. simpl in H.
  rewrite word_count_Counter in H. apply Counter_keys in H.
  unfold counted_candidates in H. apply filter_In in H. apply H.
Qed.

(** C2. Every keyword [extract_keywords] returns is a contiguous part of
    the text: whatever way a candidate was produced, it is counted only
    when [_absolute_strict_verify_word_in_text] finds it in the text. *)
Theorem keywords_are_substrings (text : str) :
  Forall (fun kw => exists pre post, text = pre ++ kw ++ post)
         (extract_keywords text).
Proof.
  unfold extract_keywords.
  destruct (negb (nonempty (strip text))); [constructor|].
  cbv zeta. apply Forall_forall. intros kw H.
  apply keyword_item in H. destruct H as (n & H & _).
  apply counted_word_ok in H. unfold candidate_ok in H.
  apply andb_true_iff in H. destruct H as (_ & H).
  apply str_in_spec. exact H.
Qed.

End TaggerProperties.

Section KeywordOrder.
Context {U : UnicodeDB} {T : Tokenizer}.

Lemma dict_value_unique (A : Type) (d : list (str * A)) (k : str) (v v' : A) :
  NoDup (map fst d) -> In (k, v) d -> In (k, v') d -> v = v'.
Proof.
  intros N H H'. apply (dict_get_In _ _ _ _ N) in H.
  apply (dict_get_In _ _ _ _ N) in H'. congruence.
Qed.

Lemma word_count_NoDup (text : str) : NoDup (map fst (word_count text)).
Proof. rewrite word_count_Counter. apply Counter_NoDup. Qed.

(** The item of a key is the only one with this key. *)
Lemma word_count_item (text : str) (k : str) (n : nat) (x : str * nat) :
  In (k, n) (word_count text) -> In x (word_count text) ->
  str_eqb k (fst x) = true -> x = (k, n).
Proof.
  intros H Hx E. apply str_eqb_eq in E. destruct x as [k' n']. simpl in E.
  subst k'. f_equal.
  apply (dict_value_unique _ _ _ _ _ (word_count_NoDup text) Hx H).
Qed.

(** C7, as the code has it. Two returned keywords of equal frequency are in
    the order in which they first come among the candidates, which are the
    words of the first split, then those of the second split, then the runs
    of Chinese characters, each stripped of punctuation. *)
Theorem keyword_ties_in_candidate_order (text a b : str) :
  In a (extract_keywords text) ->
  In b (extract_keywords text) ->
  frequency text a = frequency text b ->
  (index a (extract_keywords text) < index b (extract_keywords text)
   <-> index a (stripped_candidates text) < index b (stripped_candidates text)).
Proof.
  unfold extract_keywords.
  destruct (negb (nonempty (strip text))); [intros []|].
  cbv zeta. set (num := _get_keywords_count _). intros Ha Hb Freq.
  destruct (keyword_item _ _ _ Ha) as (na & Ia & Sa).
  destruct (keyword_item _ _ _ Hb) as (nb & Ib & Sb).
  assert (Eq : na = nb).
  { unfold frequency in Freq.
    rewrite (dict_get_In _ _ _ _ (word_count_NoDup text) Ia) in Freq.
    rewrite (dict_get_In _ _ _ _ (word_count_NoDup text) Ib) in Freq.
    exact Freq. }
  subst nb.
  rewrite verified_keywords_closed_form in *.
  unfold index.
  rewrite (find_index_firstn _ (str_eqb a))
    by (exists a; split; [exact Ha | apply str_eqb_refl]).
  rewrite (find_index_firstn _ (str_eqb b))
    by (exists b; split; [exact Hb | apply str_eqb_refl]).
  rewrite !find_index_map.
  unfold most_common.
  rewrite find_index_filter.
  2:{ intros x Hx E. apply sorted_desc_In in Hx.
      rewrite (word_count_item text a na x Ia Hx E). exact Sa. }
  2:{ intros x Hx E. apply sorted_desc_In in Hx.
      rewrite (word_count_item text b na x Ib Hx E). exact Sb. }
  rewrite (sorted_desc_ties _ snd _ _ na).
  2:{ intros x Hx E. rewrite (word_count_item text a na x Ia Hx E).
      reflexivity. }
  2:{ intros x Hx E. rewrite (word_count_item text b na x Ib Hx E).
      reflexivity. }
  rewrite <- !(find_index_map _ _ fst (str_eqb _)).
  rewrite word_count_Counter.
  change (index a (map fst (Counter (counted_candidates text)))
          < index b (map fst (Counter (counted_candidates text)))
          <-> find_index (str_eqb a) (stripped_candidates text)
              < find_index (str_eqb b) (stripped_candidates text)).
  rewrite Counter_order. unfold index, counted_candidates.
  apply find_index_filter.
  - intros x _ E. apply str_eqb_eq in E; subst x.
    apply (counted_word_ok text a na Ia).
  - intros x _ E. apply str_eqb_eq in E; subst x.
    apply (counted_word_ok text b na Ib).
Qed.

End KeywordOrder.

(** ** Scoring tables and their maximum *)

Lemma max_item_from (rest pre mid : list (str * nat)) (best : str * nat) :
  Forall (fun y => snd y < snd best) pre ->
  Forall (fun y => snd y <= snd best) mid ->
  exists pre' x post',
    pre ++ best :: mid ++ rest = pre' ++ x :: post'
    /\ max_item best rest = x
    /\ Forall (fun y => snd y < snd x) pre'
    /\ Forall (fun y => snd y <= snd x) post'.
Proof.
  revert pre mid best.
  induction rest as [|kv rest IH]; intros pre mid best Hpre Hmid.
  - exists pre, best, mid. rewrite app_nil_r. auto.
  - unfold max_item. cbn [fold_left].
    destruct (Nat.ltb_spec (snd best) (snd kv)) as [Lt|Ge].
    + destruct (IH (pre ++ best :: mid) [] kv) as (pre' & x & post' & E & M & P).
      * apply Forall_app. split; [|constructor]; try assumption.
        -- eapply Forall_impl; [|exact Hpre]. simpl; intros; lia.
        -- eapply Forall_impl; [|exact Hmid]. simpl; intros; lia.
      * constructor.
      * exists pre', x, post'. split; [|split; assumption].
        rewrite <- E, <- app_assoc. reflexivity.
    + destruct (IH pre (mid ++ [kv]) best) as (pre' & x & post' & E & M & P).
      * assumption.
      * apply Forall_app. split; [assumption|].
        constructor; [exact Ge | constructor].
      * exists pre', x, post'. split; [|split; assumption].
        rewrite <- E, <- app_assoc. reflexivity.
Qed.

(** [max(d, key=d.get)]: the first item of maximal value. *)
Lemma max_item_first (first : str * nat) (rest : list (str * nat)) :
  exists pre x post,
    first :: rest = pre ++ x :: post
    /\ max_item first rest = x
    /\ Forall (fun y => snd y < snd x) pre
    /\ Forall (fun y => snd y <= snd x) post.
Proof. apply (max_item_from rest [] [] first); constructor. Qed.

Section Scoring.
Context {U : UnicodeDB}.

Lemma keyword_score_sum (bonus : nat) (combined_text title_lower : str)
      (keywords : list str) :
  keyword_score bonus combined_text title_lower keywords
  = list_sum
      (map (fun keyword =>
              count combined_text (lower keyword)
              + (if str_in (lower keyword) title_lower then bonus else 0))
           keywords).
Proof.
  unfold keyword_score.
  assert (G : forall acc,
             fold_left
               (fun score keyword =>
                  let keyword_lower := lower keyword in
                  let content_count := count combined_text keyword_lower in
                  let score := score + content_count in
                  if str_in keyword_lower title_lower
                  then score + bonus else score)
               keywords acc
             = acc + list_sum
                       (map (fun keyword =>
                               count combined_text (lower keyword)
                               + (if str_in (lower keyword) title_lower
                                  then bonus else 0))
                            keywords)).
  { induction keywords as [|k keywords IH]; intros acc; simpl; [lia|].
    rewrite IH. destruct (str_in (lower k) title_lower); lia. }
  apply G.
Qed.

(** On a catalog without repeated key, the table of the scores is the
    catalog with its scores, less the entries of score 0. *)
Lemma score_table_from (bonus : nat) (combined_text title_lower : str)
      (catalog : list (str * list str)) (acc : list (str * nat)) :
  NoDup (map fst catalog) ->
  (forall k, In k (map fst acc) -> ~ In k (map fst catalog)) ->
  fold_left
    (fun scores entry =>
       let score := keyword_score bonus combined_text title_lower (snd entry) in
       if 0 <? score then dict_set scores (fst entry) score else scores)
    catalog acc
  = acc ++ filter (fun kv => 0 <? snd kv)
                  (map (fun entry =>
                          (fst entry,
                           keyword_score bonus combined_text title_lower
                                         (snd entry)))
                       catalog).
Proof.
  revert acc; induction catalog as [|e catalog IH]; intros acc N D.
  - simpl. rewrite app_nil_r. reflexivity.
  - cbn [fold_left map filter snd]. cbv zeta.
    inversion N as [|? ? Ne N']; subst.
    destruct (0 <? keyword_score bonus combined_text title_lower (snd e)).
    + rewrite dict_set_fresh.
      * rewrite IH; [rewrite <- app_assoc; reflexivity | exact N' |].
        intros k Hk. rewrite map_app in Hk. apply in_app_or in Hk.
        destruct Hk as [Hk | [<- | []]].
        -- intros Hc. apply (D k Hk). right; exact Hc.
        -- exact Ne.
      * intros Hk. apply (D _ Hk). left; reflexivity.
    + apply IH; [exact N'|].
      intros k Hk Hc. apply (D k Hk). right; exact Hc.
Qed.

Lemma score_table_filter (bonus : nat) (combined_text title_lower : str)
      (catalog : list (str * list str)) :
  NoDup (map fst catalog) ->
  score_table bonus combined_text title_lower catalog
  = filter (fun kv => 0 <? snd kv)
           (map (fun entry =>
                   (fst entry,
                    keyword_score bonus combined_text title_lower (snd entry)))
                catalog).
Proof.
  intros N. unfold score_table.
  rewrite score_table_from; [reflexivity | exact N | intros k []].
Qed.

End Scoring.

Lemma document_types_NoDup : NoDup (map fst document_types).
Proof.
  vm_compute. repeat constructor; simpl; intuition discriminate.
Qed.

Lemma filter_nil_all (A : Type) (f : A -> bool) (l : list A) :
  filter f l = [] -> forall x, In x l -> f x = false.
Proof.
  induction l as [|y l IH]; intros E x Hx; [destruct Hx|].
  simpl in E. destruct (f y) eqn:Fy; [discriminate|].
  destruct Hx as [<- | Hx]; [exact Fy | apply IH; assumption].
Qed.

Section DocumentType.
Context {U : UnicodeDB} {T : Tokenizer}.

(** C6. [classify_document_type] scores each of the six buckets by the
    occurrences of its trigger keywords in the lower-cased title, space and
    text plus 5 for each trigger keyword in the lower-cased title. Either all
    six scores are zero and the result is 知识类文档, or the result is a
    bucket of maximal score before which every bucket scores less. *)
Theorem classify_document_type_first_maximum (text title : str) :
  length document_types = 6
  /\ ((Forall (fun bucket => bucket_score title text (snd bucket) = 0)
              document_types
       /\ classify_document_type text title = py "知识类文档")
      \/ (exists earlier best later,
             document_types = earlier ++ best :: later
             /\ classify_document_type text title = fst best
             /\ 0 < bucket_score title text (snd best)
             /\ Forall (fun bucket => bucket_score title text (snd bucket)
                                      < bucket_score title text (snd best))
                       earlier
             /\ Forall (fun bucket => bucket_score title text (snd bucket)
                                      <= bucket_score title text (snd best))
                       later)).
Proof.
  split; [reflexivity|].
  unfold classify_document_type. cbv zeta.
  rewrite (score_table_filter _ _ _ _ document_types_NoDup).
  set (sc := fun entry : str * list str =>
               (fst entry,
                keyword_score 5 (lower (title ++ py " " ++ text)) (lower title)
                              (snd entry))).
  assert (Sc : forall bucket, snd (sc bucket) = bucket_score title text (snd bucket)).
  { intros bucket. unfold sc, bucket_score. simpl. apply keyword_score_sum. }
  generalize document_types as catalog. intros catalog.
  destruct (filter (fun kv => 0 <? snd kv) (map sc catalog))
    as [|first rest] eqn:F.
  - left. split; [|reflexivity].
    apply Forall_forall. intros bucket Hb. rewrite <- Sc.
    pose proof (filter_nil_all _ _ _ F (sc bucket) (in_map sc _ _ Hb)) as Z0.
    apply Nat.ltb_ge in Z0. lia.
  - right.
    destruct (max_item_first first rest) as (pre & x & post & E & M & Hpre & Hpost).
    rewrite M. rewrite E in F. clear E M first rest.
    assert (Px : 0 < snd x).
    { assert (Hx : In x (filter (fun kv => 0 <? snd kv) (map sc catalog)))
        by (rewrite F; apply in_or_app; right; left; reflexivity).
      apply filter_In in Hx. apply Nat.ltb_lt, Hx. }
    destruct (filter_eq_cons_split _ _ _ _ _ _ F)
      as (pre' & post' & Em & Fpre & Fpost).
    apply map_eq_app in Em. destruct Em as (earlier & tl & -> & Eearlier & Etl).
    apply map_eq_cons in Etl. destruct Etl as (best & later & -> & Ebest & Elater).
    exists earlier, best, later. subst x pre' post' pre post.
    rewrite <- !Sc.
    split; [reflexivity|]. split; [reflexivity|]. split; [exact Px|].
    rewrite Forall_forall in Hpre, Hpost.
    split; apply Forall_forall; intros bucket Hb; rewrite <- Sc;
      destruct (0 <? snd (sc bucket)) eqn:Pos.
    + apply (Hpre (sc bucket)).
      apply filter_In. split; [apply in_map, Hb | exact Pos].
    + apply Nat.ltb_ge in Pos. lia.
    + apply (Hpost (sc bucket)).
      apply filter_In. split; [apply in_map, Hb | exact Pos].
    + apply Nat.ltb_ge in Pos. lia.
Qed.

End DocumentType.

(** ** The summary generator: the fallback of the content bucket *)

Section Summary.
Context {U : UnicodeDB} {T : Tokenizer}.

Lemma paragraph_score_hits (para : str) : paragraph_score para = hits para.
Proof.
  unfold paragraph_score, hits. cbv zeta.
  generalize important_keywords as l.
  assert (G : forall l acc,
             fold_left (fun score keyword => score + count (lower para) keyword)
                       l acc
             = acc + list_sum (map (fun keyword => count (lower para) keyword) l)).
  { induction l as [|k l IH]; intros acc; simpl; [lia|]. rewrite IH. lia. }
  intros l. apply G.
Qed.

Lemma scoring_loop (l : list str) (acc : list (str * nat)) :
  fold_left
    (fun scored para =>
       if 30 <? length para
       then let score := paragraph_score para in
            if 0 <? score then scored ++ [(para, score)] else scored
       else scored)
    l acc
  = acc ++ map (fun para => (para, hits para))
               (filter (fun para => (30 <? length para) && (0 <? hits para)) l).
Proof.
  revert acc; induction l as [|p l IH]; intros acc.
  - simpl. rewrite app_nil_r. reflexivity.
  - cbn [fold_left filter]. cbv zeta. rewrite paragraph_score_hits.
    destruct (30 <? length p); cbn [andb]; [|apply IH].
    destruct (0 <? hits p); [|apply IH].
    rewrite IH, <- app_assoc. reflexivity.
Qed.

Lemma scored_paragraphs_ranked (paragraphs : list str) :
  scored_paragraphs paragraphs
  = map (fun para => (para, hits para)) (ranked_paragraphs paragraphs).
Proof. unfold scored_paragraphs. rewrite scoring_loop. reflexivity. Qed.

(** C8, as the code has it. When no paragraph was put in any of the five
    buckets, the content bucket is the first 8 of the ranked paragraphs, which
    are those of the first 15 paragraphs that are longer than 30 characters
    and have at least one hit against the 27 important keywords, sorted by
    descending number of hits, those of equal hits in their original order. *)
Theorem content_bucket_fallback (text : str) :
  let paragraphs := paragraphs_of text in
  let ranked := ranked_paragraphs paragraphs in
  nothing_bucketed (bucketed paragraphs) = true ->
  content_bucket paragraphs = firstn 8 (sorted_desc hits ranked)
  /\ length important_keywords = 27
  /\ Permutation (sorted_desc hits ranked) ranked
  /\ StronglySorted (fun p q => hits q <= hits p) (sorted_desc hits ranked)
  /\ forall n, filter (fun p => hits p =? n) (sorted_desc hits ranked)
               = filter (fun p => hits p =? n) ranked.
Proof.
  intros paragraphs ranked H. split; [|split; [reflexivity|split; [|split]]].
  - unfold content_bucket. cbv zeta. fold paragraphs. rewrite H.
    rewrite scored_paragraphs_ranked. fold ranked.
    rewrite <- firstn_map, sorted_desc_map_fst. reflexivity.
  - apply sorted_desc_perm.
  - apply sorted_desc_sorted.
  - intros n. apply sorted_desc_stable.
Qed.

End Summary.

(** ** Runs on concrete documents, with [plain_db] and without jieba *)

Lemma process_document_blank_witness :
  forallb (@isspace plain_db) [32; 9; 10]%N = true
  /\ @process_document plain_db no_jieba (py "notes") [32; 9; 10]%N
     = ([], [ (py "文档标题", py "notes"); (py "所属项目", py "未知项目");
              (py "文档关键词", py "知识类文档; ");
              (py "文档内容概述", py "文档内容为空") ]).
Proof.
  split; [reflexivity|].
  destruct (@process_document_blank plain_db no_jieba (py "notes")
                                    [32; 9; 10]%N eq_refl) as [E1 E2].
  rewrite E1, E2. reflexivity.
Defined.

(** C4 as stated fails: at length 600 the cap is 5, not 3, and [text600],
    which has 600 characters, gets 5 keywords. *)
Lemma keywords_cap_600_is_not_3 :
  _get_keywords_count 600 <> 3%Z
  /\ length text600 = 600
  /\ ~ length (@extract_keywords plain_db text600) <= 3.
Proof.
  split; [vm_compute; discriminate|].
  split; [vm_compute; reflexivity|].
  assert (E : length (@extract_keywords plain_db text600) = 5)
    by (vm_compute; reflexivity).
  rewrite E. lia.
Qed.

Lemma keywords_cap_examples_witness :
  length text600 = 600 /\ length (@extract_keywords plain_db text600) <= 5.
Proof.
  assert (L : length text600 = 600) by (vm_compute; reflexivity).
  split; [exact L|].
  apply (proj2 (proj2 (proj2 (proj2 (@keywords_cap_examples plain_db))))).
  exact L.
Defined.

Lemma keywords_within_cap_witness :
  (Z.of_nat (length tie_text) < 200
   /\ Z.of_nat (length (@extract_keywords plain_db tie_text)) <= 2
   /\ Z.of_nat (length (@extract_keywords plain_db tie_text)) = 2)%Z.
Proof.
  assert (H : (Z.of_nat (length tie_text) < 200)%Z) by (vm_compute; reflexivity).
  split; [exact H|]. split.
  - apply (proj1 (@keywords_within_cap plain_db tie_text) H).
  - vm_compute. reflexivity.
Defined.

Lemma identify_project_tier1_first_witness :
  UnicodeLaws plain_db
  /\ @identify_project plain_db no_jieba (py "anything")
                       (py "超品中心V2.0需求文档")
     = py "超品中心项目".
Proof.
  split; [exact plain_db_laws|].
  apply (proj2 (@identify_project_tier1_first plain_db no_jieba plain_db_laws)).
Defined.

Lemma identify_project_doubled_suffix_witness :
  UnicodeLaws plain_db
  /\ @identify_project plain_db no_jieba (py "anything") (py "电商项目V1.0")
     = py "电商项目项目".
Proof.
  split; [exact plain_db_laws|].
  exact (proj1 (proj2 (proj2 (proj2 (@identify_project_doubled_suffix
                                       plain_db no_jieba plain_db_laws
                                       (py "anything")))))).
Defined.

(** C9 as stated fails: with the title "onboard" the second copy of the
    title checks answers, and without it the keywords decide. *)
Lemma second_title_checks_observable :
  @identify_project plain_db no_jieba (py "x") (py "onboard")
  = py "人力资源项目"
  /\ @identify_project_without_second_checks plain_db no_jieba
                                             (py "x") (py "onboard")
     = py "技术平台项目"
  /\ @identify_project plain_db no_jieba (py "x") (py "onboard")
     <> @identify_project_without_second_checks plain_db no_jieba
                                                (py "x") (py "onboard").
Proof.
  split; [vm_compute; reflexivity|].
  split; [vm_compute; reflexivity|].
  vm_compute. discriminate.
Qed.

Lemma identify_project_second_checks_redundant_witness :
  str_in (py "onboard") (@lower plain_db (py "Release notes")) = false
  /\ @identify_project plain_db no_jieba (py "x") (py "Release notes")
     = @identify_project_without_second_checks plain_db no_jieba
                                               (py "x") (py "Release notes").
Proof.
  split; [reflexivity|].
  apply (@identify_project_second_checks_redundant plain_db no_jieba).
  reflexivity.
Defined.

(** C7 as stated fails: in [tie_text] the words "e.f" and "ab" both have
    frequency 2 and "e.f" is returned first, while "ab" occurs first in the
    text. *)
Lemma keyword_ties_not_in_text_order :
  @extract_keywords plain_db tie_text = [py "e.f"; py "ab"]
  /\ @frequency plain_db tie_text (py "e.f") = 2
  /\ @frequency plain_db tie_text (py "ab") = 2
  /\ count tie_text (py "e.f") = 2
  /\ count tie_text (py "ab") = 2
  /\ first_occurrence (py "e.f") tie_text = 5
  /\ first_occurrence (py "ab") tie_text = 0
  /\ ~ (index (py "e.f") (@extract_keywords plain_db tie_text)
        < index (py "ab") (@extract_keywords plain_db tie_text)
        <-> first_occurrence (py "e.f") tie_text
            < first_occurrence (py "ab") tie_text).
Proof.
  assert (E : @extract_keywords plain_db tie_text = [py "e.f"; py "ab"])
    by (vm_compute; reflexivity).
  assert (Fa : first_occurrence (py "e.f") tie_text = 5)
    by (vm_compute; reflexivity).
  assert (Fb : first_occurrence (py "ab") tie_text = 0)
    by (vm_compute; reflexivity).
  repeat split; try assumption; try (vm_compute; reflexivity).
  rewrite E, Fa, Fb.
  change (index (py "e.f") [py "e.f"; py "ab"]) with 0.
  change (index (py "ab") [py "e.f"; py "ab"]) with 1.
  intros [H _]. specialize (H Nat.lt_0_1). lia.
Qed.

Lemma keyword_ties_in_candidate_order_witness :
  In (py "e.f") (@extract_keywords plain_db tie_text)
  /\ In (py "ab") (@extract_keywords plain_db tie_text)
  /\ @frequency plain_db tie_text (py "e.f")
     = @frequency plain_db tie_text (py "ab")
  /\ (index (py "e.f") (@extract_keywords plain_db tie_text)
      < index (py "ab") (@extract_keywords plain_db tie_text)
      <-> index (py "e.f") (@stripped_candidates plain_db tie_text)
          < index (py "ab") (@stripped_candidates plain_db tie_text)).
Proof.
  assert (Ia : In (py "e.f") (@extract_keywords plain_db tie_text))
    by (vm_compute; auto).
  assert (Ib : In (py "ab") (@extract_keywords plain_db tie_text))
    by (vm_compute; auto).
  assert (F : @frequency plain_db tie_text (py "e.f")
              = @frequency plain_db tie_text (py "ab"))
    by (vm_compute; reflexivity).
  repeat split; try assumption;
    apply (@keyword_ties_in_candidate_order plain_db tie_text
                                            (py "e.f") (py "ab") Ia Ib F).
Defined.

(** C8 as stated fails: a paragraph longer than 30 characters that has no
    important keyword is not put in the content bucket. *)
Lemma content_bucket_skips_paragraphs_without_hits :
  @paragraphs_of plain_db plain_paragraph = [plain_paragraph]
  /\ @nothing_bucketed
       (@bucketed plain_db (@paragraphs_of plain_db plain_paragraph)) = true
  /\ @content_bucket plain_db (@paragraphs_of plain_db plain_paragraph) = []
  /\ @content_bucket_as_specified
       plain_db (@paragraphs_of plain_db plain_paragraph) = [plain_paragraph]
  /\ @content_bucket plain_db (@paragraphs_of plain_db plain_paragraph)
     <> @content_bucket_as_specified
          plain_db (@paragraphs_of plain_db plain_paragraph).
Proof.
  repeat split; try (vm_compute; reflexivity).
  vm_compute. discriminate.
Qed.

Lemma content_bucket_fallback_witness :
  @nothing_bucketed
    (@bucketed plain_db (@paragraphs_of plain_db two_paragraphs)) = true
  /\ @content_bucket plain_db (@paragraphs_of plain_db two_paragraphs)
     = firstn 8 (sorted_desc
                   (@hits plain_db)
                   (@ranked_paragraphs
                      plain_db (@paragraphs_of plain_db two_paragraphs))).
Proof.
  assert (N : @nothing_bucketed
                (@bucketed plain_db (@paragraphs_of plain_db two_paragraphs))
              = true) by (vm_compute; reflexivity).
  split; [exact N|].
  apply (proj1 (@content_bucket_fallback plain_db two_paragraphs N)).
Defined.

(** ** More on lists and sorting *)

(** The items kept by a filter have distinct keys when all items have. *)
Lemma NoDup_map_filter (A B : Type) (key : A -> B) (keep : A -> bool)
      (items : list A) :
  NoDup (map key items) -> NoDup (map key (filter keep items)).
Proof.
  induction items as [|x l IH]; intros N; simpl; [constructor|].
  inversion N as [|? ? Nx N']; subst.
  destruct (keep x); simpl; [|apply IH, N'].
  constructor; [|apply IH, N'].
  intros H. apply Nx. apply in_map_iff in H. destruct H as (y & E & H).
  apply filter_In in H. apply in_map_iff. exists y. tauto.
Qed.

Lemma NoDup_firstn_of (A : Type) (n : nat) (l : list A) :
  NoDup l -> NoDup (firstn n l).
Proof.
  intros N. rewrite <- (firstn_skipn n l) in N.
  apply NoDup_app_remove_r in N. exact N.
Qed.

Lemma StronglySorted_filter (A : Type) (R : A -> A -> Prop) (p : A -> bool)
      (l : list A) :
  StronglySorted R l -> StronglySorted R (filter p l).
Proof.
  induction 1 as [|x l S IH F]; simpl; [constructor|].
  destruct (p x); [|exact IH].
  constructor; [exact IH|].
  rewrite Forall_forall in *. intros y Hy. apply filter_In in Hy. apply F, Hy.
Qed.

Lemma StronglySorted_app_inv (A : Type) (R : A -> A -> Prop) (l1 l2 : list A) :
  StronglySorted R (l1 ++ l2) ->
  StronglySorted R l1
  /\ forall x y, In x l1 -> In y l2 -> R x y.
Proof.
  induction l1 as [|a l1 IH]; simpl; intros S.
  - split; [constructor | intros x y []].
  - inversion S as [|? ? S' F]; subst. destruct (IH S') as [S1 H].
    split.
    + constructor; [exact S1|].
      rewrite Forall_forall in *. intros y Hy. apply F, in_or_app. left; exact Hy.
    + intros x y [<- | Hx] Hy; [|apply H; assumption].
      rewrite Forall_forall in F. apply F, in_or_app. right; exact Hy.
Qed.

Lemma StronglySorted_map_in (A B : Type) (R : A -> A -> Prop)
      (R' : B -> B -> Prop) (f : A -> B) (l : list A) :
  (forall x y, In x l -> In y l -> R x y -> R' (f x) (f y)) ->
  StronglySorted R l -> StronglySorted R' (map f l).
Proof.
  intros H S. induction S as [|x l S IH F]; simpl; [constructor|].
  constructor.
  - apply IH. intros a b Ha Hb. apply H; right; assumption.
  - rewrite Forall_forall in *. intros y Hy.
    apply in_map_iff in Hy. destruct Hy as (z & <- & Hz).
    apply H; [left; reflexivity | right; exact Hz | apply F, Hz].
Qed.

Lemma counter_incr_positive (c : list (str * nat)) (w : str) :
  Forall (fun item => 1 <= snd item) c ->
  Forall (fun item => 1 <= snd item) (counter_incr c w).
Proof.
  induction c as [|[k n] c IH]; intros F; simpl.
  - repeat constructor.
  - inversion F as [|? ? Hn F']; subst.
    destruct (str_eqb w k); constructor; simpl in *; auto; lia.
Qed.

Lemma Counter_positive (l : list str) :
  Forall (fun item => 1 <= snd item) (Counter l).
Proof.
  unfold Counter.
  assert (G : forall c, Forall (fun item => 1 <= snd item) c ->
                        Forall (fun item => 1 <= snd item)
                               (fold_left counter_incr l c)).
  { induction l as [|w l IH]; intros c F; simpl; [exact F|].
    apply IH, counter_incr_positive, F. }
  apply G. constructor.
Qed.

Section KeywordInvariants.
Context {U : UnicodeDB} {T : Tokenizer}.

Lemma word_count_frequency (text kw : str) (n : nat) :
  In (kw, n) (word_count text) -> frequency text kw = n.
Proof.
  intros H. unfold frequency.
  rewrite (dict_get_In _ _ _ _ (word_count_NoDup text) H). reflexivity.
Qed.

(** The selectable words of the counter, most frequent first. *)
Lemma ranked_words_sorted (text : str) :
  StronglySorted (fun a b => frequency text b <= frequency text a)
                 (map fst (filter selectable (most_common (word_count text)))).
Proof.
  apply StronglySorted_map_in
    with (R := fun a b : str * nat => snd b <= snd a).
  - intros [a na] [b nb] Ha Hb. simpl.
    apply filter_In in Ha. apply filter_In in Hb.
    destruct Ha as [Ha _]. destruct Hb as [Hb _].
    apply sorted_desc_In in Ha. apply sorted_desc_In in Hb.
    rewrite (word_count_frequency _ _ _ Ha), (word_count_frequency _ _ _ Hb).
    tauto.
  - apply StronglySorted_filter, sorted_desc_sorted.
Qed.

Lemma ranked_words_NoDup (text : str) :
  NoDup (map fst (filter selectable (most_common (word_count text)))).
Proof.
  apply NoDup_map_filter.
  apply (Permutation_NoDup (l := map fst (word_count text))).
  - apply Permutation_map. symmetry. apply sorted_desc_perm.
  - apply word_count_NoDup.
Qed.

(** X1. The keywords [extract_keywords] returns are pairwise distinct. *)
Theorem keywords_distinct (text : str) : NoDup (extract_keywords text).
Proof.
  unfold extract_keywords.
  destruct (negb (nonempty (strip text))); [constructor|].
  cbv zeta. rewrite verified_keywords_closed_form.
  apply NoDup_firstn_of, ranked_words_NoDup.
Qed.

(** X2. Every keyword [extract_keywords] returns has 2 to 8 characters, is
    not a number, is not blank, is none of the web words html, http, https
    and www in any case, and is not a common word. *)
Theorem keywords_well_formed (text : str) :
  Forall (fun kw =>
            2 <= length kw <= 8
            /\ str_isdigit kw = false
            /\ str_isspace kw = false
            /\ mem (lower kw) (pys ["html"; "http"; "https"; "www"]%string) = false
            /\ mem kw common_words = false)
         (extract_keywords text).
Proof.
  unfold extract_keywords.
  destruct (negb (nonempty (strip text))); [constructor|].
  cbv zeta. apply Forall_forall. intros kw H.
  apply keyword_item in H. destruct H as (n & H & S).
  apply counted_word_ok in H. unfold candidate_ok in H.
  unfold selectable in S. simpl in S.
  repeat match goal with
         | H : _ && _ = true |- _ => apply andb_true_iff in H; destruct H
         | H : negb _ = true |- _ => apply negb_true_iff in H
         | H : (_ <=? _) = true |- _ => apply Nat.leb_le in H
         end.
  repeat split; assumption.
Qed.

(** X3. The keywords come by descending frequency: a keyword is counted at
    least as often among the candidates as every keyword after it. *)
Theorem keywords_by_descending_frequency (text : str) :
  StronglySorted (fun a b => frequency text b <= frequency text a)
                 (extract_keywords text).
Proof.
  unfold extract_keywords.
  destruct (negb (nonempty (strip text))); [constructor|].
  cbv zeta. rewrite verified_keywords_closed_form.
  set (n := Z.to_nat _).
  pose proof (ranked_words_sorted text) as S.
  set (L := map fst (filter selectable (most_common (word_count text)))) in *.
  rewrite <- (firstn_skipn n L) in S.
  apply StronglySorted_app_inv in S. apply S.
Qed.

(** X4. The cap cuts the least frequent words off: a counted word that is
    not a common word and is not returned is counted at most as often as
    every keyword that is returned. *)
Theorem keywords_are_most_frequent (text kw word : str) :
  In kw (extract_keywords text) ->
  In word (map fst (word_count text)) ->
  mem word common_words = false ->
  ~ In word (extract_keywords text) ->
  frequency text word <= frequency text kw.
Proof.
  unfold extract_keywords.
  destruct (negb (nonempty (strip text))); [intros []|].
  cbv zeta. rewrite verified_keywords_closed_form.
  set (n := Z.to_nat _).
  set (L := map fst (filter selectable (most_common (word_count text)))).
  intros Hkw Hw Hc Hout.
  pose proof (ranked_words_sorted text) as S. fold L in S.
  rewrite <- (firstn_skipn n L) in S.
  apply StronglySorted_app_inv in S. destruct S as [_ S].
  apply (S kw word Hkw).
  assert (HL : In word L).
  { apply in_map_iff in Hw. destruct Hw as ([w c] & E & Hw). simpl in E; subst w.
    apply in_map_iff. exists (word, c). split; [reflexivity|].
    apply filter_In. split; [apply sorted_desc_In, Hw|].
    unfold selectable. cbn [fst snd]. rewrite Hc. cbn [negb andb].
    apply Nat.leb_le.
    pose proof (Counter_positive (counted_candidates text)) as P.
    rewrite <- word_count_Counter in P. rewrite Forall_forall in P.
    apply (P _ Hw). }
  rewrite <- (firstn_skipn n L) in HL. apply in_app_or in HL.
  destruct HL as [HL | HL]; [contradiction | exact HL].
Qed.

End KeywordInvariants.

(** X5. [_get_keywords_count] is monotone: a longer text is never allowed
    fewer keywords. *)
Lemma keywords_count_monotone (a b : Z) :
  (a <= b)%Z -> (_get_keywords_count a <= _get_keywords_count b)%Z.
Proof.
  intros H. unfold _get_keywords_count.
  repeat match goal with
         | |- context [(?x <? ?y)%Z] =>
           let E := fresh in destruct (Z.ltb_spec x y) as [E|E]
         end; try lia.
  all: assert (20 <= b / 1000)%Z by (apply Z.div_le_lower_bound; lia);
    try lia.
  assert (a / 1000 <= b / 1000)%Z by (apply Z.div_le_mono; lia). lia.
Qed.

(** ** Parts of a string *)

Lemma part_trans (a b c : str) :
  (exists pre post, b = pre ++ a ++ post) ->
  (exists pre post, c = pre ++ b ++ post) ->
  exists pre post, c = pre ++ a ++ post.
Proof.
  intros (p1 & q1 & ->) (p2 & q2 & ->).
  exists (p2 ++ p1), (q1 ++ q2). rewrite <- !app_assoc. reflexivity.
Qed.

Lemma dropwhile_suffix (p : N -> bool) (s : str) :
  exists pre, s = pre ++ dropwhile p s.
Proof.
  induction s as [|c s (pre & IH)]; simpl; [exists []; reflexivity|].
  destruct (p c); [|exists []; reflexivity].
  exists (c :: pre). simpl. f_equal. exact IH.
Qed.

Lemma strip_with_part (p : N -> bool) (s : str) :
  exists pre post, s = pre ++ strip_with p s ++ post.
Proof.
  unfold strip_with.
  destruct (dropwhile_suffix p s) as (pre & E).
  destruct (dropwhile_suffix p (rev (dropwhile p s))) as (post & E').
  exists pre, (rev post).
  rewrite <- rev_app_distr, <- E', rev_involutive. exact E.
Qed.

Lemma slice_part (s : str) (i j : nat) :
  exists pre post, s = pre ++ slice s i j ++ post.
Proof.
  unfold slice. exists (firstn i s), (skipn (j - i) (skipn i s)).
  rewrite firstn_skipn, firstn_skipn. reflexivity.
Qed.

Section Separators.
Context {U : UnicodeDB}.

Lemma match_here_run (cs : charset) (s : str) (pos : nat) (g : nat * nat) :
  match_here [Rep cs 1 None] s pos g
  = match run_length (charset_test cs) None s with
    | 0 => None
    | S n => Some (pos + S n, g)
    end.
Proof.
  cbn [match_here].
  destruct (run_length (charset_test cs) None s) as [|n]; reflexivity.
Qed.

(** Replacing the runs of separators by a space and splitting at whitespace
    gives words that are parts of the text. *)
Lemma separated_words_parts (cs : charset) :
  isspace 32 = true ->
  (forall c, isspace c = true -> charset_test cs c = true) ->
  forall s done cur pos skip,
    (skip <> 0 -> cur = []) ->
    (exists pre, done = pre ++ rev cur) ->
    Forall (fun w => exists pre post, done ++ s = pre ++ w ++ post)
           (split_runs isspace (sub_from [Rep cs 1 None] [32%N] s pos skip) cur).
Proof.
  intros H32 Hcs.
  induction s as [|c s IH]; intros done cur pos skip Hskip (pre & Hdone).
  - rewrite app_nil_r.
    assert (E : sub_from [Rep cs 1 None] [32%N] [] pos skip = []).
    { destruct skip; reflexivity. }
    rewrite E. simpl. destruct cur as [|x cur]; constructor; [|constructor].
    exists pre, []. rewrite app_nil_r. exact Hdone.
  - replace (done ++ c :: s) with ((done ++ [c]) ++ s)
      by (rewrite <- app_assoc; reflexivity).
    destruct skip as [|k].
    + cbn [sub_from]. rewrite match_here_run. cbn [run_length].
      destruct (charset_test cs c) eqn:Cc.
      * replace (pos + S (run_length (charset_test cs) None s) =? pos)
          with false by (symmetry; apply Nat.eqb_neq; lia).
        cbn [app split_runs]. rewrite H32.
        assert (Rest : Forall
                         (fun w => exists pre0 post, (done ++ [c]) ++ s
                                                     = pre0 ++ w ++ post)
                         (split_runs isspace
                            (sub_from [Rep cs 1 None] [32%N] s (S pos)
                               (pos + S (run_length (charset_test cs) None s)
                                - pos - 1)) [])).
        { apply IH; [reflexivity|]. exists (done ++ [c]).
          rewrite app_nil_r; reflexivity. }
        destruct cur as [|x cur]; [exact Rest|].
        constructor; [|exact Rest].
        exists pre, (c :: s). rewrite Hdone, <- !app_assoc. reflexivity.
      * cbn [split_runs].
        assert (Sc : isspace c = false).
        { destruct (isspace c) eqn:E; [|reflexivity].
          rewrite (Hcs c E) in Cc. discriminate. }
        rewrite Sc. apply IH; [congruence|].
        exists pre. simpl. rewrite Hdone, <- app_assoc. reflexivity.
    + cbn [sub_from].
      rewrite (Hskip (Nat.neq_succ_0 k)).
      apply IH; [reflexivity|].
      exists (done ++ [c]). rewrite app_nil_r. reflexivity.
Qed.

Lemma separated_words (cs : charset) (text : str) :
  isspace 32 = true ->
  (forall c, isspace c = true -> charset_test cs c = true) ->
  Forall (fun w => exists pre post, text = pre ++ w ++ post)
         (split_runs isspace (re_sub [Rep cs 1 None] [32%N] text) []).
Proof.
  intros H32 Hcs.
  apply (separated_words_parts cs H32 Hcs text [] [] 0 0); [reflexivity|].
  exists []. reflexivity.
Qed.

End Separators.

Section Verification.
Context {U : UnicodeDB} {T : Tokenizer}.

Lemma candidate_words_parts (text : str) :
  isspace 32 = true ->
  Forall (fun w => exists pre post, text = pre ++ w ++ post)
         (candidate_words text).
Proof.
  intros H32. unfold candidate_words. cbv zeta.
  repeat (apply Forall_app; split).
  - apply (separated_words _ text H32).
    intros c Hc. simpl. rewrite Hc. apply orb_true_iff. right. reflexivity.
  - apply (separated_words _ text H32).
    intros c Hc. simpl. rewrite Hc. apply orb_true_iff. right. reflexivity.
  - unfold re_findall0. apply Forall_forall. intros w Hw.
    apply in_map_iff in Hw. destruct Hw as (m & <- & _). apply slice_part.
Qed.

(** X6. The strict verification never rejects a candidate: every candidate
    word, once stripped of punctuation, is a contiguous part of the text, so
    [_absolute_strict_verify_word_in_text] answers [True] for it. *)
Theorem verification_never_rejects (text : str) :
  isspace 32 = true ->
  Forall (fun word =>
            _absolute_strict_verify_word_in_text (strip_punctuation word) text
            = true)
         (candidate_words text).
Proof.
  intros H32. pose proof (candidate_words_parts text H32) as P.
  rewrite Forall_forall in *. intros w Hw.
  apply str_in_spec. apply (part_trans _ w); [|apply P, Hw].
  apply strip_with_part.
Qed.

End Verification.

(** ** Suffixes and first results *)

Lemma endswith_spec (suffix s : str) :
  endswith suffix s = true <-> exists pre, s = pre ++ suffix.
Proof.
  unfold endswith. rewrite startswith_spec. split.
  - intros (post & E). exists (rev post).
    rewrite <- (rev_involutive s), E, rev_app_distr, rev_involutive.
    reflexivity.
  - intros (pre & ->). exists (rev pre). apply rev_app_distr.
Qed.

Lemma endswith_app (suffix s : str) : endswith suffix (s ++ suffix) = true.
Proof. apply endswith_spec. exists s. reflexivity. Qed.

Lemma first_some_Some (A B : Type) (f : A -> option B) (l : list A) (y : B) :
  first_some f l = Some y -> exists x, In x l /\ f x = Some y.
Proof.
  induction l as [|x l IH]; simpl; [discriminate|].
  destruct (f x) as [z|] eqn:E.
  - intros H; inversion H; subst. exists x. auto.
  - intros H. destruct (IH H) as (x' & Hx & Hf). exists x'. auto.
Qed.

Lemma max_item_In (first : str * nat) (rest : list (str * nat)) :
  In (max_item first rest) (first :: rest).
Proof.
  destruct (max_item_first first rest) as (pre & x & post & E & M & _).
  rewrite M, E. apply in_or_app. right. left. reflexivity.
Qed.

Lemma max_value_item (first : str * nat) (rest : list (str * nat)) :
  max_value first rest = snd (max_item first rest).
Proof.
  unfold max_value, max_item. revert first.
  induction rest as [|kv rest IH]; intros first; [reflexivity|].
  cbn [map fold_left].
  destruct (Nat.ltb_spec (snd first) (snd kv)) as [Lt|Ge].
  - rewrite <- IH. f_equal. lia.
  - rewrite <- IH. f_equal. lia.
Qed.

Lemma project_keywords_NoDup : NoDup (map fst project_keywords).
Proof.
  vm_compute. repeat constructor; simpl; intuition discriminate.
Qed.

(** ** The project classifier: the names it gives *)

Section ProjectNames.
Context {U : UnicodeDB} {T : Tokenizer}.

Lemma standardize_shape (project_core : str) :
  In (_standardize_project_name project_core) (map snd standardization_map)
  \/ _standardize_project_name project_core
     = strip (re_sub version_number [] project_core) ++ py "项目".
Proof.
  unfold _standardize_project_name. cbv zeta.
  destruct (first_some _ standardization_map) as [name|] eqn:E.
  - left. apply first_some_Some in E. destruct E as (entry & He & Hf).
    destruct (str_in (fst entry) _); [|discriminate].
    inversion Hf; subst. apply in_map, He.
  - right.
    destruct (any_in _ _); [reflexivity|].
    destruct (str_in _ _); reflexivity.
Qed.

Lemma standard_names_suffix (name : str) :
  In name (map snd standardization_map) -> endswith (py "项目") name = true.
Proof.
  assert (F : forallb (endswith (py "项目")) (map snd standardization_map) = true)
    by (vm_compute; reflexivity).
  rewrite forallb_forall in F. apply F.
Qed.

Lemma standardize_suffix (project_core : str) :
  endswith (py "项目") (_standardize_project_name project_core) = true.
Proof.
  destruct (standardize_shape project_core) as [H | ->].
  - apply standard_names_suffix, H.
  - apply endswith_app.
Qed.

Lemma title_pattern_name_suffix (title name : str) :
  title_pattern_name title = Some name -> endswith (py "项目") name = true.
Proof.
  unfold title_pattern_name. intros H. apply first_some_Some in H.
  destruct H as (pattern & _ & H).
  destruct (re_search pattern title); [|discriminate].
  inversion H; subst. apply standardize_suffix.
Qed.

Lemma explicit_name_cases (title text : str) :
  _extract_explicit_project_name title text
  = match title_pattern_name title with
    | Some name => name
    | None =>
      match first_some
              (fun pattern =>
                 first_some accept_content_match
                            (re_findall1 pattern
                                         (title ++ py " " ++ firstn 500 text)))
              content_patterns with
      | Some name => name
      | None => []
      end
    end.
Proof. reflexivity. Qed.

Lemma accept_content_match_shape (m name : str) :
  accept_content_match m = Some name ->
  name = _standardize_project_name (strip m)
  /\ name <> strip m ++ py "项目".
Proof.
  unfold accept_content_match. cbv zeta.
  destruct (_ && _); [|discriminate].
  destruct (negb (str_eqb _ _)) eqn:E; [|discriminate].
  intros H; inversion H; subst. split; [reflexivity|].
  apply negb_true_iff, str_eqb_neq in E. exact E.
Qed.

Lemma content_name_shape (title text name : str) :
  first_some
    (fun pattern =>
       first_some accept_content_match
                  (re_findall1 pattern (title ++ py " " ++ firstn 500 text)))
    content_patterns = Some name ->
  exists m, name = _standardize_project_name m /\ name <> m ++ py "项目".
Proof.
  intros H. apply first_some_Some in H. destruct H as (pattern & _ & H).
  apply first_some_Some in H. destruct H as (m & _ & H).
  apply accept_content_match_shape in H. exists (strip m). exact H.
Qed.

Lemma explicit_name_suffix (title text : str) :
  _extract_explicit_project_name title text = []
  \/ endswith (py "项目") (_extract_explicit_project_name title text) = true.
Proof.
  rewrite explicit_name_cases.
  destruct (title_pattern_name title) as [name|] eqn:E.
  - right. apply (title_pattern_name_suffix title), E.
  - destruct (first_some _ content_patterns) as [name|] eqn:E'; [|left; reflexivity].
    right. apply content_name_shape in E'. destruct E' as (m & -> & _).
    apply standardize_suffix.
Qed.

Lemma first_title_checks_suffix (title_lower name : str) :
  first_title_checks title_lower = Some name ->
  endswith (py "项目") name = true.
Proof.
  unfold first_title_checks.
  repeat match goal with
         | |- context [if any_in ?w ?t then _ else _] => destruct (any_in w t)
         end; intros H; inversion H; reflexivity.
Qed.

(** The names the inference from the keywords can give. *)
Lemma infer_from_keywords_names (keywords : list str) :
  In (infer_from_keywords keywords)
     (pys ["财务管理项目"; "人力资源项目"; "产品研发项目"; "技术平台项目";
           "运营推广项目"; "组织管理项目"; "知识管理项目";
           "业务运营项目"]%string).
Proof.
  unfold infer_from_keywords. cbv zeta.
  match goal with
  | |- context [max_item ?f ?r] => pose proof (max_item_In f r) as M;
                                     destruct (max_item f r) as [name n]
  end.
  destruct (0 <? _).
  - cbn [fst]. cbn [In] in M.
    repeat match goal with
           | H : _ \/ _ |- _ => destruct H as [H | H]
           | H : (_, _) = (_, _) |- _ => inversion H; subst; clear H
           | H : False |- _ => destruct H
           end; vm_compute; tauto.
  - destruct (_ && _); [vm_compute; tauto|].
    destruct (_ <=? _); vm_compute; tauto.
Qed.

Lemma infer_suffix (text title : str) :
  endswith (py "项目") (_infer_project_from_content text title) = true.
Proof.
  unfold _infer_project_from_content. cbv zeta.
  repeat match goal with
         | |- context [if any_in ?w ?t then _ else _] => destruct (any_in w t)
         end; try reflexivity.
  pose proof (infer_from_keywords_names (infer_keywords text)) as H.
  revert H. generalize (infer_from_keywords (infer_keywords text)) as name.
  assert (F : forallb (endswith (py "项目"))
                      (pys ["财务管理项目"; "人力资源项目"; "产品研发项目";
                            "技术平台项目"; "运营推广项目"; "组织管理项目";
                            "知识管理项目"; "业务运营项目"]%string) = true)
    by (vm_compute; reflexivity).
  rewrite forallb_forall in F. exact F.
Qed.

Lemma score_table_keys (bonus : nat) (combined_text title_lower : str)
      (catalog : list (str * list str)) (item : str * nat) :
  NoDup (map fst catalog) ->
  In item (score_table bonus combined_text title_lower catalog) ->
  In (fst item) (map fst catalog).
Proof.
  intros N H. rewrite (score_table_filter _ _ _ _ N) in H.
  apply filter_In in H. destruct H as [H _].
  apply in_map_iff in H. destruct H as (entry & <- & H).
  cbn [fst]. apply (in_map fst), H.
Qed.

Lemma project_names_suffix (name : str) :
  In name (map fst project_keywords) -> endswith (py "项目") name = true.
Proof.
  assert (F : forallb (endswith (py "项目")) (map fst project_keywords) = true)
    by (vm_compute; reflexivity).
  rewrite forallb_forall in F. apply F.
Qed.

Lemma identify_project_suffix (text title : str) :
  endswith (py "项目") (identify_project text title) = true.
Proof.
  unfold identify_project. rewrite identify_project_with_eq.
  destruct (first_title_checks (lower title)) as [name|] eqn:E.
  - apply (first_title_checks_suffix _ _ E).
  - unfold identify_after_title_checks. cbv zeta.
    destruct (explicit_name_suffix title text) as [-> | H].
    + cbn [nonempty].
      destruct (score_table _ _ _ _) as [|first rest] eqn:S;
        [apply infer_suffix|].
      destruct (3 <=? _); [|apply infer_suffix].
      apply project_names_suffix.
      apply (score_table_keys 3 (lower (title ++ py " " ++ text)) (lower title)
                              project_keywords _ project_keywords_NoDup).
      rewrite S. apply max_item_In.
    + destruct (_extract_explicit_project_name title text) as [|c name];
        [discriminate|].
      cbn [nonempty]. exact H.
Qed.

End ProjectNames.

Lemma max_value_bound (first : str * nat) (rest : list (str * nat))
      (item : str * nat) :
  In item (first :: rest) -> snd item <= max_value first rest.
Proof.
  rewrite max_value_item.
  destruct (max_item_first first rest) as (pre & x & post & E & M & Hpre & Hpost).
  rewrite M, E. intros H. apply in_app_or in H.
  rewrite Forall_forall in Hpre, Hpost.
  destruct H as [H | [<- | H]]; [apply Nat.lt_le_incl, Hpre, H | lia | apply Hpost, H].
Qed.

Lemma domain_count_zero (keywords words : list str) :
  domain_count keywords words = 0 ->
  forall kw, In kw keywords -> any_in words kw = false.
Proof.
  unfold domain_count. intros H kw Hkw.
  destruct (any_in words kw) eqn:E; [|reflexivity].
  assert (In kw (filter (fun kw => any_in words kw) keywords))
    by (apply filter_In; auto).
  destruct (filter _ keywords); [contradiction | discriminate].
Qed.

Lemma domain_count_zero_intro (keywords words : list str) :
  (forall kw, In kw keywords -> any_in words kw = false) ->
  domain_count keywords words = 0.
Proof.
  unfold domain_count. induction keywords as [|kw l IH]; intros H; [reflexivity|].
  simpl. rewrite (H kw (or_introl eq_refl)). apply IH.
  intros k Hk. apply H. right; exact Hk.
Qed.

Lemma domain_count_pos (keywords words : list str) :
  0 < domain_count keywords words ->
  exists kw, In kw keywords /\ any_in words kw = true.
Proof.
  unfold domain_count. intros H.
  destruct (filter (fun kw => any_in words kw) keywords) as [|kw l] eqn:E;
    [simpl in H; lia|].
  assert (Hin : In kw (filter (fun kw => any_in words kw) keywords))
    by (rewrite E; left; reflexivity).
  apply filter_In in Hin. exists kw. exact Hin.
Qed.

Lemma any_in_false_incl (words words' : list str) (kw : str) :
  forallb (fun w => mem w words') words = true ->
  any_in words' kw = false -> any_in words kw = false.
Proof.
  unfold any_in. intros Incl H.
  destruct (existsb (fun word => str_in word kw) words) eqn:E; [|reflexivity].
  apply existsb_exists in E. destruct E as (w & Hw & Hin).
  rewrite forallb_forall in Incl. apply Incl, mem_In in Hw.
  assert (existsb (fun word => str_in word kw) words' = true)
    by (apply existsb_exists; exists w; auto).
  congruence.
Qed.

Lemma any_in_app (words1 words2 : list str) (kw : str) :
  any_in (words1 ++ words2) kw = any_in words1 kw || any_in words2 kw.
Proof. unfold any_in. apply existsb_app. Qed.

Section ProjectResults.
Context {U : UnicodeDB} {T : Tokenizer}.

(** X7. [_standardize_project_name] gives a name of the table or the cleaned
    core followed by 项目; either way a name that ends in 项目. *)
Theorem standardize_project_name_result (project_core : str) :
  let cleaned := strip (re_sub version_number [] project_core) in
  (In (_standardize_project_name project_core) (map snd standardization_map)
   \/ _standardize_project_name project_core = cleaned ++ py "项目")
  /\ exists stem, _standardize_project_name project_core = stem ++ py "项目".
Proof.
  intros cleaned. split; [apply standardize_shape|].
  apply endswith_spec, standardize_suffix.
Qed.

(** X8. [identify_project] always names a project: its result ends in 项目 and
    so is never empty. *)
Theorem identify_project_names_a_project (text title : str) :
  (exists stem, identify_project text title = stem ++ py "项目")
  /\ identify_project text title <> [].
Proof.
  pose proof (identify_project_suffix text title) as H.
  apply endswith_spec in H. destruct H as (stem & E).
  split; [exists stem; exact E|].
  rewrite E. destruct stem; discriminate.
Qed.

(** X9. The inference from the keywords answers 组织管理项目 only when a keyword
    contains one of the management words: the last branch of
    [_infer_project_from_content] is never taken. *)
Theorem infer_management_needs_keyword (keywords : list str) :
  infer_from_keywords keywords = py "组织管理项目" ->
  exists kw,
    In kw keywords
    /\ any_in (pys ["管理"; "流程"; "制度"; "规范"; "优化"; "团队";
                    "组织"]%string) kw = true.
Proof.
  unfold infer_from_keywords. cbv zeta.
  match goal with
  | |- context [max_item ?f ?r] =>
    pose proof (max_item_In f r) as M;
    pose proof (max_value_item f r) as V;
    pose proof (max_value_bound f r) as B;
    set (first := f) in *; set (rest := r) in *
  end.
  destruct (0 <? max_value first rest) eqn:Pos.
  - apply Nat.ltb_lt in Pos. rewrite V in Pos.
    destruct (max_item first rest) as [name n]. cbn [fst snd] in *.
    intros Hname. apply domain_count_pos.
    subst first rest. cbn [In] in M.
    repeat match goal with
           | H : _ \/ _ |- _ => destruct H as [H | H]
           | H : False |- _ => destruct H
           end;
      injection M as E1 E2; subst name n;
      try (vm_compute in Hname; discriminate).
    exact Pos.
  - apply Nat.ltb_ge in Pos.
    assert (Zero : forall item, In item (first :: rest) -> snd item = 0).
    { intros item Hi. specialize (B item Hi). lia. }
    assert (Hr : forall kw, In kw keywords ->
                            any_in (pys ["人力"; "招聘"; "培训"; "员工"; "入职";
                                         "薪酬"; "绩效"; "考核"]%string) kw
                            = false).
    { apply domain_count_zero.
      apply (Zero (py "人力资源项目", _)). subst first rest. simpl. tauto. }
    assert (Mg : forall kw, In kw keywords ->
                            any_in (pys ["管理"; "流程"; "制度"; "规范"; "优化";
                                         "团队"; "组织"]%string) kw = false).
    { apply domain_count_zero.
      apply (Zero (py "组织管理项目", _)). subst first rest. simpl. tauto. }
    assert (M0 : domain_count keywords
                   (pys ["管理"; "流程"; "制度"; "培训"; "团队"]%string) = 0).
    { apply domain_count_zero_intro. intros kw' Hk.
      apply (any_in_false_incl _
               (pys ["人力"; "招聘"; "培训"; "员工"; "入职"; "薪酬"; "绩效";
                     "考核"]%string
                ++ pys ["管理"; "流程"; "制度"; "规范"; "优化"; "团队";
                        "组织"]%string)).
      - vm_compute. reflexivity.
      - rewrite any_in_app, (Hr _ Hk), (Mg _ Hk). reflexivity. }
    rewrite M0. cbn [Nat.leb].
    destruct (_ && _); [vm_compute; discriminate|].
    vm_compute; discriminate.
Qed.

End ProjectResults.

(** ** Score tables: the first entry of maximal score *)

Section ScoreTables.
Context {U : UnicodeDB}.

Lemma score_table_first_max (bonus : nat) (combined_text title_lower : str)
      (catalog : list (str * list str)) :
  NoDup (map fst catalog) ->
  match score_table bonus combined_text title_lower catalog with
  | [] =>
    Forall (fun entry =>
              keyword_score bonus combined_text title_lower (snd entry) = 0)
           catalog
  | first :: rest =>
    exists earlier best later,
      catalog = earlier ++ best :: later
      /\ max_item first rest
         = (fst best, keyword_score bonus combined_text title_lower (snd best))
      /\ 0 < keyword_score bonus combined_text title_lower (snd best)
      /\ Forall (fun entry =>
                   keyword_score bonus combined_text title_lower (snd entry)
                   < keyword_score bonus combined_text title_lower (snd best))
                earlier
      /\ Forall (fun entry =>
                   keyword_score bonus combined_text title_lower (snd entry)
                   <= keyword_score bonus combined_text title_lower (snd best))
                later
  end.
Proof.
  intros N. rewrite (score_table_filter _ _ _ _ N).
  set (sc := fun entry : str * list str =>
               (fst entry,
                keyword_score bonus combined_text title_lower (snd entry))).
  destruct (filter (fun kv => 0 <? snd kv) (map sc catalog))
    as [|first rest] eqn:F.
  - apply Forall_forall. intros entry He.
    pose proof (filter_nil_all _ _ _ F (sc entry) (in_map sc _ _ He)) as Z0.
    apply Nat.ltb_ge in Z0. simpl in Z0. lia.
  - destruct (max_item_first first rest)
      as (pre & x & post & E & M & Hpre & Hpost).
    rewrite M. rewrite E in F. clear E M first rest.
    assert (Px : 0 < snd x).
    { assert (Hx : In x (filter (fun kv => 0 <? snd kv) (map sc catalog)))
        by (rewrite F; apply in_or_app; right; left; reflexivity).
      apply filter_In in Hx. apply Nat.ltb_lt, Hx. }
    destruct (filter_eq_cons_split _ _ _ _ _ _ F)
      as (pre' & post' & Em & Fpre & Fpost).
    apply map_eq_app in Em. destruct Em as (earlier & tl & -> & Eearlier & Etl).
    apply map_eq_cons in Etl.
    destruct Etl as (best & later & -> & Ebest & Elater).
    exists earlier, best, later. subst x pre' post' pre post.
    split; [reflexivity|]. split; [reflexivity|]. split; [exact Px|].
    rewrite Forall_forall in Hpre, Hpost.
    split; apply Forall_forall; intros entry He;
      destruct (0 <? snd (sc entry)) eqn:Pos.
    + apply (Hpre (sc entry)).
      apply filter_In. split; [apply in_map, He | exact Pos].
    + apply Nat.ltb_ge in Pos. simpl in *. lia.
    + apply (Hpost (sc entry)).
      apply filter_In. split; [apply in_map, He | exact Pos].
    + apply Nat.ltb_ge in Pos. simpl in *. lia.
Qed.

End ScoreTables.

Section ProjectPaths.
Context {U : UnicodeDB} {T : Tokenizer}.

Lemma project_score_keyword_score (title text : str) (keywords : list str) :
  keyword_score 3 (lower (title ++ py " " ++ text)) (lower title) keywords
  = project_score title text keywords.
Proof. apply keyword_score_sum. Qed.

(** X10. When no title check fires and no explicit name is found, the catalog
    decides if one of its projects scores at least 3, and then the first
    project of maximal score is the answer; otherwise the content decides. *)
Theorem identify_project_by_score (text title : str) :
  first_title_checks (lower title) = None ->
  _extract_explicit_project_name title text = [] ->
  (Forall (fun entry => project_score title text (snd entry) < 3)
          project_keywords
   /\ identify_project text title
      = _infer_project_from_content (lower (title ++ py " " ++ text)) title)
  \/ (exists earlier best later,
         project_keywords = earlier ++ best :: later
         /\ 3 <= project_score title text (snd best)
         /\ Forall (fun entry => project_score title text (snd entry)
                                 < project_score title text (snd best))
                   earlier
         /\ Forall (fun entry => project_score title text (snd entry)
                                 <= project_score title text (snd best))
                   later
         /\ identify_project text title = fst best).
Proof.
  intros Checks Explicit.
  unfold identify_project. rewrite identify_project_with_eq, Checks.
  unfold identify_after_title_checks. cbv zeta. rewrite Explicit.
  cbn [nonempty].
  pose proof (score_table_first_max 3 (lower (title ++ py " " ++ text))
                                    (lower title) project_keywords
                                    project_keywords_NoDup) as S.
  destruct (score_table 3 _ _ project_keywords) as [|first rest].
  - left. split; [|reflexivity].
    eapply Forall_impl; [|exact S]. intros entry E. cbv beta in E.
    rewrite <- project_score_keyword_score, E. lia.
  - destruct S as (earlier & best & later & Ecat & M & Pos & Hearlier & Hlater).
    rewrite max_value_item, M. cbn [fst snd].
    rewrite project_score_keyword_score.
    destruct (Nat.leb_spec 3 (project_score title text (snd best))) as [Ge|Lt].
    + right. exists earlier, best, later.
      split; [exact Ecat|]. split; [exact Ge|].
      split; [|split; [|reflexivity]].
      * eapply Forall_impl; [|exact Hearlier]. intros entry. cbv beta.
        rewrite !project_score_keyword_score. tauto.
      * eapply Forall_impl; [|exact Hlater]. intros entry. cbv beta.
        rewrite !project_score_keyword_score. tauto.
    + left. split; [|reflexivity].
      rewrite Ecat. apply Forall_app. split; [|constructor; [exact Lt|]].
      * eapply Forall_impl; [|exact Hearlier]. intros entry. cbv beta.
        rewrite !project_score_keyword_score. lia.
      * eapply Forall_impl; [|exact Hlater]. intros entry. cbv beta.
        rewrite !project_score_keyword_score. lia.
Qed.

(** X11. When a title check fires or a title pattern matches, the title alone
    decides the project: the text plays no part. *)
Theorem identify_project_title_decides (title text1 text2 : str) :
  first_title_checks (lower title) <> None
  \/ title_pattern_name title <> None ->
  identify_project text1 title = identify_project text2 title.
Proof.
  intros H. unfold identify_project. rewrite !identify_project_with_eq.
  destruct (first_title_checks (lower title)) as [name|]; [reflexivity|].
  destruct H as [H | H]; [congruence|].
  unfold identify_after_title_checks. cbv zeta.
  rewrite !explicit_name_cases.
  destruct (title_pattern_name title) as [name|] eqn:E; [|congruence].
  pose proof (title_pattern_name_suffix _ _ E) as S.
  apply endswith_spec in S. destruct S as (stem & ->).
  destruct stem; reflexivity.
Qed.

Lemma first_some_split (A B : Type) (f : A -> option B) (l : list A) (y : B) :
  first_some f l = Some y ->
  exists before x after,
    l = before ++ x :: after
    /\ (forall z, In z before -> f z = None)
    /\ f x = Some y.
Proof.
  induction l as [|x l IH]; simpl; [discriminate|].
  destruct (f x) as [z|] eqn:E.
  - intros H. exists [], x, l. rewrite E, H.
    split; [reflexivity|]. split; [intros ? []|reflexivity].
  - intros H. destruct (IH H) as (before & x' & after & -> & N & F).
    exists (x :: before), x', after.
    split; [reflexivity|]. split; [|exact F].
    intros z [<- | Hz]; [exact E | apply N, Hz].
Qed.

Lemma first_some_None (A B : Type) (f : A -> option B) (l : list A) :
  first_some f l = None -> forall x, In x l -> f x = None.
Proof.
  induction l as [|x l IH]; simpl; [intros _ ? []|].
  destruct (f x) eqn:E; [discriminate|].
  intros H z [<- | Hz]; [exact E | apply (IH H), Hz].
Qed.

(** What the loop over the matches refuses, and what it accepts. *)
Lemma accept_content_match_refused (m : str) :
  accept_content_match m = None <-> refused_match m.
Proof.
  unfold accept_content_match, refused_match. cbv zeta.
  destruct (Nat.leb_spec 2 (length (strip m))) as [L | L];
    [|split; [left; exact L | reflexivity]].
  destruct (str_isdigit (strip m)) eqn:D;
    [split; [right; left; reflexivity | reflexivity]|].
  destruct (startswith (py "：") (strip m)) eqn:S;
    [split; [right; right; left; reflexivity | reflexivity]|].
  destruct (str_in (py "解决") (strip m)) eqn:I;
    [split; [right; right; right; left; reflexivity | reflexivity]|].
  cbn [negb andb].
  destruct (str_eqb (_standardize_project_name (strip m))
                    (strip m ++ py "项目")) eqn:E; cbn [negb].
  - apply str_eqb_eq in E. split; [|reflexivity].
    intros _. right. right. right. right. exact E.
  - apply str_eqb_neq in E. split; [discriminate|].
    intros [H | [H | [H | [H | H]]]];
      [lia | discriminate | discriminate | discriminate | contradiction].
Qed.

Lemma accept_content_match_accepted (m name : str) :
  accept_content_match m = Some name ->
  2 <= length (strip m)
  /\ str_isdigit (strip m) = false
  /\ startswith (py "：") (strip m) = false
  /\ str_in (py "解决") (strip m) = false
  /\ name = _standardize_project_name (strip m)
  /\ name <> strip m ++ py "项目".
Proof.
  intros H. destruct (accept_content_match_shape _ _ H) as (E & Diff).
  unfold accept_content_match in H. cbv zeta in H.
  destruct (Nat.leb_spec 2 (length (strip m))) as [L | L]; [|discriminate].
  destruct (str_isdigit (strip m)); [discriminate|].
  destruct (startswith (py "：") (strip m)); [discriminate|].
  destruct (str_in (py "解决") (strip m)); [discriminate|].
  repeat split; assumption.
Qed.

(** X12. When no title pattern matches, the name taken from the content is
    that of the first match, in the order of the content patterns and of the
    matches of each in the title, a space and the first 500 characters of the
    text, that is not refused: the match, stripped, has at least 2 characters,
    is not a number, does not start with ： and does not contain 解决, and its
    standardized name is not just the match followed by 项目. That name is a
    name of the standardization table, or the match without a version number,
    followed by 项目, when removing the version number changed the match.  When
    every match is refused the name is empty. *)
Theorem explicit_name_from_content (title text : str) :
  title_pattern_name title = None ->
  let search_text := title ++ py " " ++ firstn 500 text in
  (_extract_explicit_project_name title text = []
   /\ forall pattern m,
       In pattern content_patterns ->
       In m (re_findall1 pattern search_text) ->
       refused_match m)
  \/ exists earlier_patterns pattern later_patterns earlier m later,
      content_patterns = earlier_patterns ++ pattern :: later_patterns
      /\ re_findall1 pattern search_text = earlier ++ m :: later
      /\ (forall pattern' m',
             In pattern' earlier_patterns ->
             In m' (re_findall1 pattern' search_text) ->
             refused_match m')
      /\ (forall m', In m' earlier -> refused_match m')
      /\ 2 <= length (strip m)
      /\ str_isdigit (strip m) = false
      /\ startswith (py "：") (strip m) = false
      /\ str_in (py "解决") (strip m) = false
      /\ _standardize_project_name (strip m) <> strip m ++ py "项目"
      /\ _extract_explicit_project_name title text
         = _standardize_project_name (strip m)
      /\ (In (_standardize_project_name (strip m))
             (map snd standardization_map)
          \/ (strip (re_sub version_number [] (strip m)) <> strip m
              /\ _standardize_project_name (strip m)
                 = strip (re_sub version_number [] (strip m)) ++ py "项目")).
Proof.
  intros Title. cbv zeta. rewrite explicit_name_cases, Title.
  destruct (first_some _ content_patterns) as [name|] eqn:E.
  - right. apply first_some_split in E.
    destruct E as (earlier_patterns & pattern & later_patterns & Ep & Np & E).
    apply first_some_split in E.
    destruct E as (earlier & m & later & Em & Nm & E).
    apply accept_content_match_accepted in E.
    destruct E as (L & D & S & I & -> & Diff).
    exists earlier_patterns, pattern, later_patterns, earlier, m, later.
    repeat (split; [assumption|]).
    split; [|split; [|repeat (split; [assumption|])]].
    + intros pattern' m' Hp Hm. apply accept_content_match_refused.
      apply (first_some_None _ _ _ _ (Np pattern' Hp)), Hm.
    + intros m' Hm. apply accept_content_match_refused, Nm, Hm.
    + split; [reflexivity|].
      destruct (standardize_shape (strip m)) as [H | H]; [left; exact H|].
      right. split; [|exact H].
      intros E. apply Diff. rewrite H, E. reflexivity.
  - left. split; [reflexivity|].
    intros pattern m Hp Hm. apply accept_content_match_refused.
    apply (first_some_None _ _ _ _
                           (first_some_None _ _ _ _ E pattern Hp)), Hm.
Qed.

(** ** The document-type classifier *)

Lemma document_type_In (text title : str) :
  In (classify_document_type text title) (map fst document_types).
Proof.
  unfold classify_document_type. cbv zeta.
  destruct (score_table 5 _ _ document_types) as [|first rest] eqn:S.
  - vm_compute. tauto.
  - apply (score_table_keys 5 (lower (title ++ py " " ++ text)) (lower title)
                            document_types _ document_types_NoDup).
    rewrite S. apply max_item_In.
Qed.

(** X13. [classify_document_type] always answers one of the six document types
    of the catalog, whose names all end in 文档. *)
Theorem classify_document_type_in_catalog (text title : str) :
  In (classify_document_type text title) (map fst document_types)
  /\ length (map fst document_types) = 6
  /\ endswith (py "类文档") (classify_document_type text title) = true.
Proof.
  pose proof (document_type_In text title) as H.
  split; [exact H|]. split; [reflexivity|].
  assert (F : forallb (endswith (py "类文档")) (map fst document_types) = true)
    by (vm_compute; reflexivity).
  rewrite forallb_forall in F. apply F, H.
Qed.

End ProjectPaths.

(** ** The summary generator *)

Lemma startswith_app (p s rest : str) :
  startswith p s = true -> startswith p (s ++ rest) = true.
Proof.
  rewrite !startswith_spec. intros (post & ->).
  exists (post ++ rest). rewrite app_assoc. reflexivity.
Qed.

Lemma join_first (sep x : str) (l : list str) :
  exists rest, join sep (x :: l) = x ++ rest.
Proof.
  destruct l as [|y l].
  - exists []. simpl. rewrite app_nil_r. reflexivity.
  - exists (sep ++ join sep (y :: l)). reflexivity.
Qed.

Lemma Forall_firstn_of (A : Type) (P : A -> Prop) (n : nat) (l : list A) :
  Forall P l -> Forall P (firstn n l).
Proof.
  rewrite !Forall_forall. intros H x Hx. apply H, (firstn_incl _ n), Hx.
Qed.

Lemma filter_longer_nil (k k' : nat) (l : list str) :
  k <= k' ->
  Forall (fun p => length p <= k) l ->
  filter (fun p => k' <? length p) l = [].
Proof.
  intros Hk. induction 1 as [|p l Hp F IH]; [reflexivity|].
  simpl. destruct (Nat.ltb_spec k' (length p)); [lia | exact IH].
Qed.

Lemma filter_longer_and_nil (k k' : nat) (also : str -> bool) (l : list str) :
  k <= k' ->
  Forall (fun p => length p <= k) l ->
  filter (fun p => (k' <? length p) && also p) l = [].
Proof.
  intros Hk H. induction H as [|p l Hp F IH]; [reflexivity|].
  simpl. destruct (Nat.ltb_spec k' (length p)); [lia | exact IH].
Qed.

(** A list of parts that all start with a bracket joins to a string that
    starts with a bracket. *)
Lemma join_bracketed (l : list str) :
  Forall (fun part => startswith (py "【") part = true) l ->
  l <> [] ->
  startswith (py "【") (join (py " ") l) = true.
Proof.
  intros Hl Hn. destruct l as [|p l]; [congruence|].
  inversion Hl as [|? ? Hp _]; subst.
  destruct (join_first (py " ") p l) as (more & ->).
  apply startswith_app, Hp.
Qed.

Section SummaryProperties.
Context {U : UnicodeDB} {T : Tokenizer}.

Lemma section_bracketed (label : str) (n : nat) (bucket : list str) :
  startswith (py "【") label = true ->
  Forall (fun part => startswith (py "【") part = true) (section label n bucket).
Proof.
  intros H. unfold section.
  destruct bucket; constructor; [|constructor].
  apply startswith_app, H.
Qed.

Lemma summary_bracketed (text title : str) :
  negb (nonempty (strip text)) = false ->
  startswith (py "【") (generate_content_summary text title) = true.
Proof.
  intros H. unfold generate_content_summary. rewrite H. cbv zeta.
  set (parts := if HAS_JIEBA then _ else _).
  assert (HP : Forall (fun part => startswith (py "【") part = true) parts).
  { subst parts. destruct HAS_JIEBA.
    - repeat (apply Forall_app; split);
        apply section_bracketed; reflexivity.
    - apply section_bracketed; reflexivity. }
  clearbody parts.
  destruct parts as [|p parts].
  - destruct (filter _ _); reflexivity.
  - apply join_bracketed; [exact HP | discriminate].
Qed.

Lemma bucket_paragraph_short (b : buckets) (para : str) :
  length para <= 15 -> bucket_paragraph b para = b.
Proof.
  intros H. unfold bucket_paragraph. cbv zeta.
  replace (15 <? length para) with false
    by (symmetry; apply Nat.ltb_ge; exact H).
  repeat match goal with
         | |- context [if any_in ?w ?t then _ else _] => destruct (any_in w t)
         end; reflexivity.
Qed.

Lemma bucketed_short_from (paragraphs : list str) (b : buckets) :
  Forall (fun p => length p <= 15) paragraphs ->
  fold_left bucket_paragraph paragraphs b = b.
Proof.
  intros H. revert b. induction H as [|p l Hp F IH]; intros b; [reflexivity|].
  simpl. rewrite (bucket_paragraph_short b p Hp). apply IH.
Qed.

Lemma bucketed_short (paragraphs : list str) :
  Forall (fun p => length p <= 15) paragraphs ->
  bucketed paragraphs = no_buckets.
Proof. apply bucketed_short_from. Qed.

End SummaryProperties.

Section SummaryResults.
Context {U : UnicodeDB} {T : Tokenizer}.

(** X14. The summary of a blank text is the placeholder, and the summary of
    any other text starts with the bracket of a label: it is never empty and
    never the placeholder. *)
Theorem summary_placeholder_or_labelled (text title : str) :
  (forallb isspace text = true
   /\ generate_content_summary text title = py "文档内容为空")
  \/ (forallb isspace text = false
      /\ (exists rest, generate_content_summary text title = py "【" ++ rest)
      /\ generate_content_summary text title <> py "文档内容为空").
Proof.
  destruct (forallb isspace text) eqn:B.
  - left. split; [reflexivity|].
    apply strip_blank in B. unfold generate_content_summary. rewrite B.
    reflexivity.
  - right. split; [reflexivity|].
    assert (N : negb (nonempty (strip text)) = false).
    { destruct (negb (nonempty (strip text))) eqn:E; [|reflexivity].
      apply strip_blank in E. congruence. }
    pose proof (summary_bracketed text title N) as S.
    split.
    + apply startswith_spec in S. exact S.
    + intros E. rewrite E in S. discriminate.
Qed.

(** X15. When every paragraph has at most 15 characters, nothing is bucketed,
    ranked or previewed, with or without jieba: the summary is the last
    fallback, the first 300 characters of the text followed by three dots. *)
Theorem summary_of_short_paragraphs (text title : str) :
  forallb isspace text = false ->
  Forall (fun para => length para <= 15) (paragraphs_of text) ->
  generate_content_summary text title
  = py "【文档概述】本文档描述了" ++ title ++ py "相关内容："
       ++ firstn 300 text ++ py "..."
  /\ endswith (py "...") (generate_content_summary text title) = true.
Proof.
  intros B Short.
  assert (N : negb (nonempty (strip text)) = false).
  { destruct (negb (nonempty (strip text))) eqn:E; [|reflexivity].
    apply strip_blank in E. congruence. }
  assert (E : generate_content_summary text title
              = py "【文档概述】本文档描述了" ++ title ++ py "相关内容："
                   ++ firstn 300 text ++ py "...").
  { unfold generate_content_summary. rewrite N. cbv zeta.
    unfold content_bucket. cbv zeta.
    rewrite (bucketed_short _ Short).
    change (nothing_bucketed no_buckets) with true. cbv iota.
    rewrite scored_paragraphs_ranked. unfold ranked_paragraphs.
    assert (R : filter (fun para => (30 <? length para) && (0 <? hits para))
                       (firstn 15 (paragraphs_of text)) = []).
    { apply (filter_longer_and_nil 15 30); [lia|].
      apply Forall_firstn_of, Short. }
    rewrite R.
    rewrite (filter_longer_nil 15 30) by (try lia; apply Forall_firstn_of, Short).
    rewrite (filter_longer_nil 15 20) by (try lia; apply Forall_firstn_of, Short).
    destruct HAS_JIEBA; reflexivity. }
  split; [exact E|].
  rewrite E, !app_assoc. apply endswith_app.
Qed.

Lemma bucket_paragraph_priority (b : buckets) (para : str) :
  buckets_in_priority b -> buckets_in_priority (bucket_paragraph b para).
Proof.
  intros (H1 & H2 & H3 & H4 & H5).
  unfold bucket_paragraph. cbv zeta.
  destruct (any_in background_patterns (lower para)) eqn:A1.
  { destruct (Nat.ltb_spec 15 (length para)) as [Len|Len];
      [|repeat split; assumption].
    repeat split; try assumption. cbn [background_info].
    apply Forall_app. split; [assumption|].
    repeat constructor; assumption. }
  destruct (any_in objective_patterns (lower para)) eqn:A2.
  { destruct (Nat.ltb_spec 15 (length para)) as [Len|Len];
      [|repeat split; assumption].
    repeat split; try assumption. cbn [objective_info].
    apply Forall_app. split; [assumption|].
    repeat constructor; assumption. }
  destruct (any_in solution_patterns (lower para)) eqn:A3.
  { destruct (Nat.ltb_spec 15 (length para)) as [Len|Len];
      [|repeat split; assumption].
    repeat split; try assumption. cbn [solution_info].
    apply Forall_app. split; [assumption|].
    repeat constructor; assumption. }
  destruct (any_in result_patterns (lower para)) eqn:A4.
  { destruct (Nat.ltb_spec 15 (length para)) as [Len|Len];
      [|repeat split; assumption].
    repeat split; try assumption. cbn [result_info].
    apply Forall_app. split; [assumption|].
    repeat constructor; assumption. }
  destruct (any_in content_patterns_summary (lower para)) eqn:A5;
    [|repeat split; assumption].
  destruct (Nat.ltb_spec 15 (length para)) as [Len|Len];
    [|repeat split; assumption].
  repeat split; try assumption. cbn [content_info].
  apply Forall_app. split; [assumption|].
  repeat constructor; assumption.
Qed.

Lemma bucket_paragraph_count (b : buckets) (para : str) :
  bucketed_count (bucket_paragraph b para) <= S (bucketed_count b).
Proof.
  unfold bucket_paragraph, bucketed_count. cbv zeta.
  repeat match goal with
         | |- context [if any_in ?w ?t then _ else _] => destruct (any_in w t)
         end;
    try destruct (15 <? length para);
    cbn [background_info objective_info solution_info result_info
                         content_info];
    rewrite ?length_app; cbn [length]; lia.
Qed.

(** X16. The paragraphs of a bucket are longer than 15 characters and contain
    a trigger word of their group and none of a group tested before it:
    background, objective, solution, result, content, in this order.  A
    paragraph is put in one bucket at most. *)
Theorem buckets_follow_priority (paragraphs : list str) :
  buckets_in_priority (bucketed paragraphs)
  /\ bucketed_count (bucketed paragraphs) <= length paragraphs.
Proof.
  unfold bucketed.
  assert (G : forall l b,
             buckets_in_priority b ->
             buckets_in_priority (fold_left bucket_paragraph l b)
             /\ bucketed_count (fold_left bucket_paragraph l b)
                <= bucketed_count b + length l).
  { induction l as [|para l IH]; intros b H.
    - cbn [fold_left length]. split; [exact H | lia].
    - cbn [fold_left length].
      destruct (IH (bucket_paragraph b para)
                   (bucket_paragraph_priority b para H)) as (P & C).
      split; [exact P|].
      pose proof (bucket_paragraph_count b para). lia. }
  apply (G paragraphs no_buckets).
  repeat split; constructor.
Qed.

End SummaryResults.

(** ** The orchestrator and the table of [main] *)

Section Records.
Context {U : UnicodeDB} {T : Tokenizer}.

(** X17. Whatever the title and the text, the record [process_document]
    returns has a project that ends in 项目, one of the six document types, at
    most 30 keywords and a summary that is not empty; the four components are
    called once each, in this order, unless the text is blank. *)
Theorem process_document_record (title text : str) :
  exists project doc_type keywords summary,
    snd (process_document title text)
    = format_output title project doc_type keywords summary
    /\ endswith (py "项目") project = true
    /\ In doc_type (map fst document_types)
    /\ length keywords <= 30
    /\ summary <> []
    /\ fst (process_document title text)
       = if forallb isspace text then []
         else [ProjectClassifier; DocumentTypeClassifier; KeywordExtractor;
               SummaryGenerator].
Proof.
  unfold process_document.
  destruct (forallb isspace text) eqn:B.
  - apply strip_blank in B. rewrite B.
    exists (py "未知项目"), (py "知识类文档"), [], (py "文档内容为空").
    split; [reflexivity|]. split; [reflexivity|].
    split; [vm_compute; tauto|]. split; [simpl; lia|].
    split; [discriminate | reflexivity].
  - assert (N : negb (nonempty (strip text)) = false).
    { destruct (negb (nonempty (strip text))) eqn:E; [|reflexivity].
      apply strip_blank in E. congruence. }
    rewrite N.
    exists (identify_project text title), (classify_document_type text title),
      (extract_keywords text), (generate_content_summary text title).
    split; [reflexivity|].
    split; [apply identify_project_suffix|].
    split; [apply document_type_In|].
    split.
    + pose proof (extract_keywords_length text).
      pose proof (keywords_count_max (Z.of_nat (length text))). lia.
    + split; [|reflexivity].
      pose proof (summary_bracketed text title N) as S.
      intros E. rewrite E in S. discriminate.
Qed.

End Records.

Lemma startswith_two (a b c d : N) (s : str) :
  startswith [a; b] (c :: d :: s) = (a =? c)%N && (b =? d)%N.
Proof. simpl. rewrite andb_true_r. reflexivity. Qed.

(** [split] undoes [join] when no piece contains the separator. *)
Lemma split_piece (piece rest cur : str) :
  str_in (py "; ") piece = false ->
  split_str_from (py "; ") (piece ++ py "; " ++ rest) cur 0
  = (rev cur ++ piece) :: split_str_from (py "; ") rest [] 0.
Proof.
  revert cur. induction piece as [|c piece IH]; intros cur H.
  - rewrite app_nil_r. reflexivity.
  - cbn [str_in] in H. apply orb_false_elim in H. destruct H as (H0 & H).
    change ((c :: piece) ++ py "; " ++ rest)
      with (c :: (piece ++ py "; " ++ rest)).
    cbn [split_str_from].
    assert (S : startswith (py "; ") (c :: piece ++ py "; " ++ rest) = false).
    { change (py "; ") with [59%N; 32%N] in *.
      destruct piece as [|d piece].
      - change (c :: [] ++ [59%N; 32%N] ++ rest) with (c :: 59%N :: 32%N :: rest).
        rewrite startswith_two. apply andb_false_r.
      - change (c :: (d :: piece) ++ [59%N; 32%N] ++ rest)
          with (c :: d :: (piece ++ [59%N; 32%N] ++ rest)).
        rewrite startswith_two in *. exact H0. }
    rewrite S, (IH _ H). cbn [rev]. rewrite <- app_assoc. reflexivity.
Qed.

Lemma split_last_piece (piece cur : str) :
  str_in (py "; ") piece = false ->
  split_str_from (py "; ") piece cur 0 = [rev cur ++ piece].
Proof.
  revert cur. induction piece as [|c piece IH]; intros cur H.
  - rewrite app_nil_r. reflexivity.
  - cbn [str_in] in H. apply orb_false_elim in H. destruct H as (H0 & H).
    cbn [split_str_from]. rewrite H0, (IH _ H). cbn [rev].
    rewrite <- app_assoc. reflexivity.
Qed.

Lemma split_join (pieces : list str) :
  pieces <> [] ->
  Forall (fun piece => str_in (py "; ") piece = false) pieces ->
  split_str (py "; ") (join (py "; ") pieces) = pieces.
Proof.
  unfold split_str. induction pieces as [|p l IH]; intros N F; [congruence|].
  inversion F as [|? ? Hp Hl]; subst.
  destruct l as [|q l].
  - cbn [join]. apply (split_last_piece p [] Hp).
  - change (join (py "; ") (p :: q :: l))
      with (p ++ py "; " ++ join (py "; ") (q :: l)).
    rewrite (split_piece p _ [] Hp). cbn [rev app].
    rewrite IH; [reflexivity | discriminate | exact Hl].
Qed.

Section Table.
Context {U : UnicodeDB} {T : Tokenizer}.

(** X18. The line of the table [main] prints for a record of [format_output]
    shows the title, the project and the document type of the record, and as
    number of keywords the number of its keywords, except that a record
    without keywords is shown with 1: the field ends with the separator, and
    the empty piece after it is counted. *)
Theorem table_line_of_record (title project doc_type : str)
        (keywords : list str) (summary : str) :
  str_in (py "; ") doc_type = false ->
  Forall (fun keyword => str_in (py "; ") keyword = false) keywords ->
  table_line (format_output title project doc_type keywords summary)
  = Some (title, project, doc_type,
          match keywords with
          | [] => 1
          | _ => length keywords
          end).
Proof.
  intros Hd Hk. unfold table_line.
  change (dict_get (format_output title project doc_type keywords summary)
                   (py "文档关键词"))
    with (Some (doc_type ++ py "; "
                         ++ (if nonempty keywords
                             then join (py "; ") keywords else []))).
  change (dict_get (format_output title project doc_type keywords summary)
                   (py "文档标题")) with (Some title).
  change (dict_get (format_output title project doc_type keywords summary)
                   (py "所属项目")) with (Some project).
  cbv zeta.
  set (field := doc_type ++ py "; " ++ _).
  assert (Nf : nonempty field = true).
  { subst field. destruct doc_type; reflexivity. }
  cbv beta iota. rewrite Nf.
  assert (S : split_str (py "; ") field
              = doc_type :: match keywords with
                            | [] => [[]]
                            | _ => keywords
                            end).
  { subst field. unfold split_str. rewrite (split_piece doc_type _ [] Hd).
    cbn [rev app]. f_equal.
    destruct keywords as [|k l]; [reflexivity|].
    cbn [nonempty]. apply split_join; [discriminate | exact Hk]. }
  rewrite S. cbn [hd tl]. destruct keywords; reflexivity.
Qed.

End Table.

(** ** Sets, dictionaries and the order of strings *)

Lemma set_add_In (s : list str) (x y : str) :
  In y (set_add s x) <-> In y s \/ y = x.
Proof.
  unfold set_add. destruct (mem x s) eqn:M.
  - apply mem_In in M. split; [tauto | intros [H | ->]; assumption].
  - rewrite in_app_iff. simpl. split; intros [H | H]; auto.
    + destruct H as [<- | []]. auto.
Qed.

Lemma set_add_NoDup (s : list str) (x : str) : NoDup s -> NoDup (set_add s x).
Proof.
  intros N. unfold set_add. destruct (mem x s) eqn:M; [exact N|].
  apply NoDup_app; [exact N | repeat constructor; intros [] |].
  intros y Hy [<- | []]. apply mem_In in Hy. congruence.
Qed.

Lemma mem_set_add_fold (l : list str) (acc : list str) (x : str) :
  mem x (fold_left set_add l acc) = mem x acc || mem x l.
Proof.
  revert acc. induction l as [|y l IH]; intros acc; simpl.
  - rewrite orb_false_r. reflexivity.
  - rewrite IH.
    assert (E : mem x (set_add acc y) = mem x acc || str_eqb x y).
    { destruct (mem x (set_add acc y)) eqn:A.
      - apply mem_In, set_add_In in A. symmetry. apply orb_true_iff.
        destruct A as [A | ->]; [left; apply mem_In, A | right; apply str_eqb_refl].
      - symmetry. apply orb_false_iff. split.
        + destruct (mem x acc) eqn:B; [|reflexivity].
          apply mem_In in B.
          assert (In x (set_add acc y)) by (apply set_add_In; auto).
          apply mem_In in H. congruence.
        + destruct (str_eqb x y) eqn:B; [|reflexivity].
          apply str_eqb_eq in B. subst y.
          assert (In x (set_add acc x)) by (apply set_add_In; auto).
          apply mem_In in H. congruence. }
    rewrite E, orb_assoc. reflexivity.
Qed.

Lemma dict_get_set (A : Type) (d : list (str * A)) (k k' : str) (v : A) :
  dict_get (dict_set d k v) k' = if str_eqb k' k then Some v else dict_get d k'.
Proof.
  induction d as [|[k0 v0] d IH]; simpl.
  - destruct (str_eqb k' k); reflexivity.
  - destruct (str_eqb k k0) eqn:E; simpl.
    + apply str_eqb_eq in E. subst k0.
      destruct (str_eqb k' k); reflexivity.
    + rewrite IH. destruct (str_eqb k' k0) eqn:E0; [|reflexivity].
      apply str_eqb_eq in E0. subst k0.
      destruct (str_eqb k' k) eqn:E1; [|reflexivity].
      apply str_eqb_eq in E1. subst k'. rewrite str_eqb_refl in E. discriminate.
Qed.

Lemma dict_set_keys (A : Type) (d : list (str * A)) (k : str) (v : A) :
  map fst (dict_set d k v)
  = if mem k (map fst d) then map fst d else map fst d ++ [k].
Proof.
  induction d as [|[k0 v0] d IH]; simpl; [reflexivity|].
  destruct (str_eqb k k0); simpl; [reflexivity|].
  rewrite IH. destruct (mem k (map fst d)); reflexivity.
Qed.

Lemma str_ltb_irrefl (a : str) : str_ltb a a = false.
Proof.
  induction a as [|x a IH]; simpl; [reflexivity|].
  rewrite N.ltb_irrefl, N.eqb_refl, IH. reflexivity.
Qed.

Lemma str_ltb_trans (a b c : str) :
  str_ltb a b = true -> str_ltb b c = true -> str_ltb a c = true.
Proof.
  revert b c. induction a as [|x a IH]; intros [|y b] [|z c]; simpl;
    try discriminate; try reflexivity.
  rewrite !orb_true_iff, !andb_true_iff, !N.ltb_lt, !N.eqb_eq.
  intros [H1 | [E1 H1]] [H2 | [E2 H2]].
  - left. lia.
  - left. lia.
  - left. lia.
  - right. split; [lia | eapply IH; eassumption].
Qed.

Lemma str_ltb_total (a b : str) :
  str_ltb a b = false -> a = b \/ str_ltb b a = true.
Proof.
  revert b. induction a as [|x a IH]; intros [|y b]; simpl;
    try discriminate; auto.
  rewrite orb_false_iff, andb_false_iff, N.ltb_ge, N.eqb_neq.
  intros [H1 H2].
  destruct (N.eq_dec x y) as [E | NE].
  - subst y. destruct H2 as [H2 | H2]; [congruence|].
    destruct (IH _ H2) as [-> | H]; [left; reflexivity|].
    right. rewrite N.eqb_refl, H. apply orb_true_r.
  - right. apply orb_true_iff. left. apply N.ltb_lt. lia.
Qed.

Lemma insert_asc_perm (x : str) (l : list str) :
  Permutation (insert_asc x l) (x :: l).
Proof.
  induction l as [|y l IH]; simpl; [reflexivity|].
  destruct (str_ltb y x); [|reflexivity].
  rewrite IH. apply perm_swap.
Qed.

Lemma sorted_asc_perm (l : list str) : Permutation (sorted_asc l) l.
Proof.
  induction l as [|x l IH]; simpl; [reflexivity|].
  rewrite insert_asc_perm, IH. reflexivity.
Qed.

Lemma insert_asc_sorted (x : str) (l : list str) :
  ~ In x l ->
  StronglySorted (fun a b => str_ltb a b = true) l ->
  StronglySorted (fun a b => str_ltb a b = true) (insert_asc x l).
Proof.
  induction l as [|y l IH]; intros Hx S; simpl.
  - repeat constructor.
  - inversion S as [|? ? S' F]; subst.
    destruct (str_ltb y x) eqn:L.
    + constructor; [apply IH; [intros H; apply Hx; right; exact H | exact S']|].
      rewrite Forall_forall in *. intros z Hz.
      apply (Permutation_in _ (insert_asc_perm x l)) in Hz.
      destruct Hz as [<- | Hz]; [exact L | apply F, Hz].
    + assert (Lx : str_ltb x y = true).
      { destruct (str_ltb_total _ _ L) as [E | H]; [|exact H].
        exfalso. apply Hx. left. exact E. }
      constructor; [exact S|].
      constructor; [exact Lx|].
      rewrite Forall_forall in *. intros z Hz.
      apply (str_ltb_trans x y z Lx), F, Hz.
Qed.

(** Sorting a list without repetition gives a strictly ascending list. *)
Lemma sorted_asc_sorted (l : list str) :
  NoDup l -> StronglySorted (fun a b => str_ltb a b = true) (sorted_asc l).
Proof.
  induction 1 as [|x l Hx N IH]; simpl; [constructor|].
  apply insert_asc_sorted; [|exact IH].
  intros H. apply Hx. apply (Permutation_in _ (sorted_asc_perm l)), H.
Qed.

(** ** The rows of the CSV file *)

Lemma find_app_first (A : Type) (f : A -> bool) (l1 l2 : list A) :
  List.find f (l1 ++ l2)
  = match List.find f l1 with
    | Some x => Some x
    | None => List.find f l2
    end.
Proof.
  induction l1 as [|x l1 IH]; simpl; [reflexivity|].
  destruct (f x); [reflexivity | exact IH].
Qed.

(** Storing pairs one after the other: the last item of a key decides. *)
Lemma dict_of_pairs (pairs : list (str * str)) (d : list (str * str))
      (key : str) :
  dict_get (fold_left (fun d item => dict_set d (fst item) (snd item)) pairs d)
           key
  = match List.find (fun item => str_eqb key (fst item)) (rev pairs) with
    | Some item => Some (snd item)
    | None => dict_get d key
    end.
Proof.
  revert d. induction pairs as [|[k v] pairs IH]; intros d; [reflexivity|].
  cbn [fold_left rev fst snd]. rewrite IH, find_app_first.
  destruct (List.find _ (rev pairs)); [reflexivity|].
  cbn [List.find fst snd]. rewrite dict_get_set.
  destruct (str_eqb key k); reflexivity.
Qed.

Section Rows.
Context {U : UnicodeDB} {T : Tokenizer}.

Lemma read_csv_mapping_from (rows : list csv_row) (d : list (str * str)) :
  fold_left
    (fun mapping row =>
       match mapping with
       | None => None
       | Some mapping =>
         match row_field row (py "文档标题") with
         | None => None
         | Some title =>
           match row_field row (py "所属项目") with
           | None => None
           | Some project =>
             if nonempty title && nonempty project
             then Some (dict_set mapping title project)
             else Some mapping
           end
         end
       end)
    rows (Some d)
  = if forallb (fun row =>
                  match row_field row (py "文档标题"),
                        row_field row (py "所属项目") with
                  | Some _, Some _ => true
                  | _, _ => false
                  end) rows
    then Some (fold_left (fun d item => dict_set d (fst item) (snd item))
                         (mapped_pairs rows) d)
    else None.
Proof.
  revert d. induction rows as [|row rows IH]; intros d; [reflexivity|].
  cbn [fold_left forallb mapped_pairs flat_map].
  destruct (row_field row (py "文档标题")) as [title|].
  - destruct (row_field row (py "所属项目")) as [project|].
    + cbn [andb]. rewrite fold_left_app.
      destruct (nonempty title && nonempty project); apply IH.
    + cbn [andb]. clear IH. induction rows; [reflexivity | assumption].
  - cbn [andb]. clear IH. induction rows; [reflexivity | assumption].
Qed.

Lemma row_field_None (row : csv_row) (key : str) :
  row_field row key = None <-> row_get row key = None.
Proof.
  unfold row_field. destruct (row_get row key); split; congruence.
Qed.

Lemma read_csv_mapping_None (rows : list csv_row) :
  read_csv_mapping rows = None
  <-> exists row,
      In row rows
      /\ (row_get row (py "文档标题") = None
          \/ row_get row (py "所属项目") = None).
Proof.
  unfold read_csv_mapping. rewrite read_csv_mapping_from.
  match goal with |- context [forallb ?f rows] => set (ok := f) end.
  destruct (forallb ok rows) eqn:F.
  - split; [discriminate|]. intros (row & Hr & H).
    rewrite forallb_forall in F. specialize (F row Hr). subst ok. cbv beta in F.
    rewrite <- !row_field_None in H.
    destruct H as [H | H]; rewrite H in F;
      [|destruct (row_field row (py "文档标题"))]; discriminate.
  - split; [intros _|reflexivity].
    assert (E : exists row, In row rows /\ ok row = false).
    { clear -F. induction rows as [|row rows IH]; [discriminate|].
      simpl in F. apply andb_false_iff in F. destruct F as [F | F].
      - exists row. split; [left; reflexivity | exact F].
      - destruct (IH F) as (r & Hr & Hok). exists r. split; [right|]; assumption. }
    destruct E as (row & Hr & Hok). exists row. split; [exact Hr|].
    subst ok. cbv beta in Hok. rewrite <- !row_field_None.
    destruct (row_field row (py "文档标题")); [|left; reflexivity].
    destruct (row_field row (py "所属项目")); [discriminate | right; reflexivity].
Qed.


Lemma read_csv_mapping_lookup (rows : list csv_row) (mapping : list (str * str))
      (title : str) :
  read_csv_mapping rows = Some mapping ->
  dict_get mapping title
  = match List.find (fun item => str_eqb title (fst item)) (rev (mapped_pairs rows))
    with
    | Some item => Some (snd item)
    | None => None
    end.
Proof.
  unfold read_csv_mapping. rewrite read_csv_mapping_from.
  destruct (forallb _ rows); [|discriminate].
  intros E. inversion E; subst. apply dict_of_pairs.
Qed.

Lemma mapped_pairs_In (rows : list csv_row) (title project : str) :
  In (title, project) (mapped_pairs rows)
  <-> exists row,
      In row rows
      /\ row_field row (py "文档标题") = Some title
      /\ row_field row (py "所属项目") = Some project
      /\ title <> [] /\ project <> [].
Proof.
  unfold mapped_pairs. rewrite in_flat_map. split.
  - intros (row & Hr & H). exists row. split; [exact Hr|].
    destruct (row_field row (py "文档标题")) as [t|]; [|destruct H].
    destruct (row_field row (py "所属项目")) as [p|]; [|destruct H].
    destruct t as [|c t]; [destruct H|]. destruct p as [|c' p]; [destruct H|].
    simpl in H. destruct H as [H | []]. inversion H; subst.
    repeat split; discriminate.
  - intros (row & Hr & Ht & Hp & Nt & Np). exists row. split; [exact Hr|].
    rewrite Ht, Hp. destruct title; [congruence|]. destruct project; [congruence|].
    left. reflexivity.
Qed.

Lemma dict_set_In (A : Type) (d : list (str * A)) (k k' : str) (v v' : A) :
  In (k', v') (dict_set d k v) -> In (k', v') d \/ (k', v') = (k, v).
Proof.
  induction d as [|[k0 v0] d IH]; simpl.
  - intros [H | []]. right. symmetry. exact H.
  - destruct (str_eqb k k0) eqn:E; simpl.
    + apply str_eqb_eq in E. subst k0.
      intros [H | H]; [right; symmetry; exact H | left; right; exact H].
    + intros [H | H]; [left; left; exact H|].
      destruct (IH H) as [H' | H']; [left; right; exact H' | right; exact H'].
Qed.

Lemma dict_of_pairs_In (items d : list (str * str)) (k v : str) :
  In (k, v) (fold_left (fun d item => dict_set d (fst item) (snd item)) items d)
  -> In (k, v) d \/ In (k, v) items.
Proof.
  revert d. induction items as [|[k0 v0] items IH]; intros d H; [left; exact H|].
  cbn [fold_left fst snd] in H. apply IH in H.
  destruct H as [H | H]; [|right; right; exact H].
  apply dict_set_In in H. destruct H as [H | H]; [left; exact H|].
  right. left. symmetry. exact H.
Qed.

(** X19. [read_csv_mapping] fails exactly when a row has no title field or no
    project field, that is when a line of the file is too short; otherwise it
    returns a mapping in which no title and no project is empty. *)
Theorem read_csv_mapping_fails_on_short_rows (rows : list csv_row) :
  (read_csv_mapping rows = None
   <-> exists row,
       In row rows
       /\ (row_get row (py "文档标题") = None
           \/ row_get row (py "所属项目") = None))
  /\ (forall mapping title project,
         read_csv_mapping rows = Some mapping ->
         In (title, project) mapping ->
         title <> [] /\ project <> []).
Proof.
  split; [apply read_csv_mapping_None|].
  intros mapping title project E Hin.
  unfold read_csv_mapping in E. rewrite read_csv_mapping_from in E.
  destruct (forallb _ rows); [|discriminate].
  inversion E; subst. apply dict_of_pairs_In in Hin.
  destruct Hin as [[] | Hin].
  apply mapped_pairs_In in Hin. destruct Hin as (_ & _ & _ & _ & H). exact H.
Qed.

(** X20. In the mapping the last row of a title decides: the project of a
    title is the one of the last row that has this title and a project, both
    not empty after stripping; a title without such a row is not in the
    mapping. *)
Theorem read_csv_mapping_last_row_wins (rows : list csv_row)
        (mapping : list (str * str)) :
  read_csv_mapping rows = Some mapping ->
  (forall title,
      dict_get mapping title
      = match List.find (fun item => str_eqb title (fst item))
                   (rev (mapped_pairs rows)) with
        | Some item => Some (snd item)
        | None => None
        end)
  /\ (forall before title project later,
         mapped_pairs rows = before ++ (title, project) :: later ->
         ~ In title (map fst later) ->
         dict_get mapping title = Some project).
Proof.
  intros E. split; [intros title; apply (read_csv_mapping_lookup _ _ _ E)|].
  intros before title project later Hp Hl.
  rewrite (read_csv_mapping_lookup _ _ _ E), Hp.
  rewrite rev_app_distr. cbn [rev]. rewrite <- app_assoc, find_app_first.
  destruct (List.find _ (rev later)) as [[k v]|] eqn:F.
  - exfalso. apply find_some in F. destruct F as (Hin & Hk).
    apply str_eqb_eq in Hk. simpl in Hk. subst k.
    apply Hl. apply in_rev in Hin. apply (in_map fst) in Hin. exact Hin.
  - cbn [app List.find fst]. rewrite str_eqb_refl. reflexivity.
Qed.

Lemma extract_projects_from (rows : list csv_row) (acc res : list str) :
  fold_left
    (fun projects row =>
       match projects with
       | None => None
       | Some projects =>
         match row_field row (py "所属项目") with
         | None => None
         | Some project =>
           if nonempty project then Some (set_add projects project)
           else Some projects
         end
       end)
    rows (Some acc) = Some res ->
  NoDup acc ->
  NoDup res
  /\ forall project,
      In project res
      <-> In project acc
          \/ (project <> []
              /\ exists row, In row rows
                             /\ row_field row (py "所属项目") = Some project).
Proof.
  revert acc. induction rows as [|row rows IH]; intros acc E N.
  - simpl in E. inversion E; subst. split; [exact N|].
    intros project. split; [tauto|]. intros [H | (_ & row & [] & _)]. exact H.
  - cbn [fold_left] in E.
    destruct (row_field row (py "所属项目")) as [p|] eqn:Hp.
    + destruct (nonempty p) eqn:Np.
      * destruct (IH _ E (set_add_NoDup _ p N)) as (Nr & Hr).
        split; [exact Nr|]. intros project. rewrite Hr, set_add_In.
        split.
        -- intros [[H | ->] | (Hn & r & Hin & Hf)].
           ++ left; exact H.
           ++ right. split; [destruct p; discriminate|].
              exists row. split; [left; reflexivity | exact Hp].
           ++ right. split; [exact Hn|]. exists r. split; [right|]; assumption.
        -- intros [H | (Hn & r & [<- | Hin] & Hf)].
           ++ left; left; exact H.
           ++ left; right. congruence.
           ++ right. split; [exact Hn|]. exists r. split; assumption.
      * destruct (IH _ E N) as (Nr & Hr).
        split; [exact Nr|]. intros project. rewrite Hr. split.
        -- intros [H | (Hn & r & Hin & Hf)]; [left; exact H|].
           right. split; [exact Hn|]. exists r. split; [right|]; assumption.
        -- intros [H | (Hn & r & [<- | Hin] & Hf)]; [left; exact H | |].
           ++ exfalso. rewrite Hp in Hf. inversion Hf; subst.
              destruct project; [congruence | discriminate].
           ++ right. split; [exact Hn|]. exists r. split; assumption.
    + exfalso. clear -E. induction rows; simpl in E; [discriminate | auto].
Qed.

Lemma extract_projects_members (rows : list csv_row) (projects : list str) :
  extract_projects_from_csv rows = Some projects ->
  StronglySorted (fun a b => str_ltb a b = true) projects
  /\ forall project,
      In project projects
      <-> project <> []
          /\ exists row, In row rows
                         /\ row_field row (py "所属项目") = Some project.
Proof.
  unfold extract_projects_from_csv.
  destruct (fold_left _ rows (Some [])) as [set|] eqn:E; [|discriminate].
  intros H. inversion H; subst.
  destruct (extract_projects_from rows [] set E (NoDup_nil _)) as (N & M).
  split; [apply sorted_asc_sorted, N|].
  intros project. split.
  - intros Hin.
    apply (Permutation_in _ (sorted_asc_perm set)) in Hin.
    apply M in Hin. destruct Hin as [[] | Hin]. exact Hin.
  - intros Hin.
    apply (Permutation_in _ (Permutation_sym (sorted_asc_perm set))).
    apply M. right. exact Hin.
Qed.

(** X21. The projects [extract_projects_from_csv] returns are those of the
    rows, stripped, the empty one left out, each once and in ascending order.
    *)
Theorem extract_projects_sorted_and_unique (rows : list csv_row)
        (projects : list str) :
  extract_projects_from_csv rows = Some projects ->
  StronglySorted (fun a b => str_ltb a b = true) projects
  /\ NoDup projects
  /\ forall project,
      In project projects
      <-> project <> []
          /\ exists row, In row rows
                         /\ row_field row (py "所属项目") = Some project.
Proof.
  intros E. destruct (extract_projects_members rows projects E) as (S & M).
  split; [exact S|]. split; [|exact M].
  clear -S. induction S as [|x l S IH F]; constructor; [|exact IH].
  intros Hin. rewrite Forall_forall in F. specialize (F x Hin).
  rewrite str_ltb_irrefl in F. discriminate.
Qed.

End Rows.

Section RowsTogether.
Context {U : UnicodeDB} {T : Tokenizer}.

Lemma extract_projects_total (rows : list csv_row) :
  (forall row, In row rows -> row_field row (py "所属项目") <> None) ->
  exists projects, extract_projects_from_csv rows = Some projects.
Proof.
  intros H. unfold extract_projects_from_csv.
  assert (G : forall acc, exists set,
               fold_left
                 (fun projects row =>
                    match projects with
                    | None => None
                    | Some projects =>
                      match row_field row (py "所属项目") with
                      | None => None
                      | Some project =>
                        if nonempty project then Some (set_add projects project)
                        else Some projects
                      end
                    end)
                 rows (Some acc) = Some set).
  { induction rows as [|row rows IH]; intros acc; [exists acc; reflexivity|].
    cbn [fold_left].
    destruct (row_field row (py "所属项目")) as [p|] eqn:E.
    - destruct (nonempty p); apply IH; intros r Hr; apply H; right; exact Hr.
    - exfalso. apply (H row); [left; reflexivity | exact E]. }
  destruct (G []) as (set & ->). eexists. reflexivity.
Qed.

(** X22. The two scripts agree on a file: when [read_csv_mapping] reads it,
    [extract_projects_from_csv] reads it too, and the project of every mapped
    title is one of the projects it returns. *)
Theorem mapped_projects_are_extracted (rows : list csv_row)
        (mapping : list (str * str)) :
  read_csv_mapping rows = Some mapping ->
  exists projects,
    extract_projects_from_csv rows = Some projects
    /\ forall title project,
        dict_get mapping title = Some project -> In project projects.
Proof.
  intros E.
  assert (Ok : forall row, In row rows ->
                           row_field row (py "所属项目") <> None).
  { intros row Hr Hn.
    assert (F : read_csv_mapping rows = None).
    { apply read_csv_mapping_None. exists row.
      split; [exact Hr|]. right. apply row_field_None, Hn. }
    congruence. }
  destruct (extract_projects_total rows Ok) as (projects & Ep).
  exists projects. split; [exact Ep|].
  intros title project Hg.
  rewrite (read_csv_mapping_lookup _ _ _ E) in Hg.
  destruct (List.find _ (rev (mapped_pairs rows))) as [[t p]|] eqn:F;
    [|discriminate].
  inversion Hg; subst. apply find_some in F. destruct F as (Hin & _).
  apply in_rev in Hin. apply mapped_pairs_In in Hin.
  destruct Hin as (row & Hr & _ & Hp & _ & Np).
  apply (extract_projects_members rows projects Ep).
  split; [exact Np|]. exists row. split; assumption.
Qed.

(** *** Which results are saved *)

Lemma existing_identifiers (existing : list csv_row) (identifier : str) :
  mem identifier
      (fold_left (fun ids row => set_add ids (row_identifier row)) existing [])
  = mem identifier (map row_identifier existing).
Proof.
  assert (E : forall acc,
             fold_left (fun ids row => set_add ids (row_identifier row))
                       existing acc
             = fold_left set_add (map row_identifier existing) acc).
  { induction existing as [|row l IH]; intros acc; [reflexivity|]. apply IH. }
  rewrite E, mem_set_add_fold. reflexivity.
Qed.

(** X23. A result is saved exactly when its identifier is not the identifier
    of a row of the file: the results of one batch are not compared with one
    another, so a result that comes twice in a batch is saved twice. *)
Theorem new_results_checks_the_file_only (existing : list csv_row)
        (results : list (list (str * str))) :
  Forall (fun result => result_identifier result <> None) results ->
  new_results existing results
  = Some (filter
            (fun result =>
               match result_identifier result with
               | Some identifier =>
                 negb (mem identifier (map row_identifier existing))
               | None => false
               end)
            results)
  /\ forall result identifier,
      In result results ->
      result_identifier result = Some identifier ->
      ~ In identifier (map row_identifier existing) ->
      new_results existing (results ++ [result])
      = Some (filter
                (fun result =>
                   match result_identifier result with
                   | Some identifier =>
                     negb (mem identifier (map row_identifier existing))
                   | None => false
                   end)
                results ++ [result]).
Proof.
  assert (G : forall results acc,
             Forall (fun result => result_identifier result <> None) results ->
             fold_left
               (fun new_results result =>
                  match new_results, result_identifier result with
                  | Some new_results, Some identifier =>
                    if negb (mem identifier
                                 (fold_left
                                    (fun ids row =>
                                       set_add ids (row_identifier row))
                                    existing []))
                    then Some (new_results ++ [result])
                    else Some new_results
                  | _, _ => None
                  end)
               results (Some acc)
             = Some (acc ++ filter
                             (fun result =>
                                match result_identifier result with
                                | Some identifier =>
                                  negb (mem identifier
                                            (map row_identifier existing))
                                | None => false
                                end)
                             results)).
  { induction results0 as [|r l IH]; intros acc F.
    - simpl. rewrite app_nil_r. reflexivity.
    - inversion F as [|? ? Hr Hl]; subst. cbn [fold_left filter].
      destruct (result_identifier r) as [id|]; [|congruence].
      rewrite existing_identifiers.
      destruct (negb (mem id (map row_identifier existing))).
      + rewrite (IH _ Hl), <- app_assoc. reflexivity.
      + apply (IH _ Hl). }
  intros F. split; [apply (G results [] F)|].
  intros result identifier Hin Hid Hnew.
  unfold new_results. cbv zeta. rewrite G.
  - cbn [app]. rewrite filter_app. cbn [filter]. rewrite Hid.
    replace (mem identifier (map row_identifier existing)) with false;
      [reflexivity|].
    symmetry. destruct (mem identifier _) eqn:M; [|reflexivity].
    apply mem_In in M. contradiction.
  - apply Forall_app. split; [exact F|]. constructor; [congruence | constructor].
Qed.

(** X24. The identifier of a record does not tell where the title ends and the
    project starts, and it leaves the summary out: a record is taken for
    another one when a hyphen can be moved from one field to the other. *)
Theorem result_identifier_is_ambiguous (title middle project doc_type : str)
        (keywords : list str) (summary summary' : str) :
  result_identifier
    (format_output (title ++ py "-" ++ middle) project doc_type keywords summary)
  = result_identifier
      (format_output title (middle ++ py "-" ++ project) doc_type keywords
                     summary')
  /\ result_identifier
       (format_output title project doc_type keywords summary) <> None.
Proof.
  unfold result_identifier.
  repeat match goal with
         | |- context [dict_get (format_output ?t ?p ?d ?k ?s) (py "文档标题")] =>
           change (dict_get (format_output t p d k s) (py "文档标题"))
             with (Some t)
         | |- context [dict_get (format_output ?t ?p ?d ?k ?s) (py "所属项目")] =>
           change (dict_get (format_output t p d k s) (py "所属项目"))
             with (Some p)
         | |- context [dict_get (format_output ?t ?p ?d ?k ?s)
                                (py "文档关键词")] =>
           change (dict_get (format_output t p d k s) (py "文档关键词"))
             with (Some (d ++ py "; "
                           ++ (if nonempty k then join (py "; ") k else [])))
         end.
  split; [|discriminate].
  f_equal. rewrite <- !app_assoc. reflexivity.
Qed.

End RowsTogether.

(** ** The simple keyword extractor *)

Lemma dict_set_NoDup (A : Type) (d : list (str * A)) (k : str) (v : A) :
  NoDup (map fst d) -> NoDup (map fst (dict_set d k v)).
Proof.
  intros N. rewrite dict_set_keys.
  destruct (mem k (map fst d)) eqn:M; [exact N|].
  apply NoDup_app; [exact N | repeat constructor; intros [] |].
  intros x Hx [<- | []]. apply mem_In in Hx. congruence.
Qed.

Section SimpleKeywords.
Context {U : UnicodeDB} {T : Tokenizer}.

Lemma simple_selection_loop (num : Z) (items : list (str * nat))
      (acc : list str) :
  fold_left
    (fun result item =>
       let '(word, count) := item in
       if (1 <=? count) && (Z.of_nat (length result) <? num)%Z
       then result ++ [word]
       else result)
    items acc
  = acc ++ firstn (Z.to_nat num - length acc)
                  (map fst (filter (fun item => 1 <=? snd item) items)).
Proof.
  revert acc. induction items as [|[w c] items IH]; intros acc.
  - simpl. rewrite firstn_nil, app_nil_r. reflexivity.
  - cbn [fold_left filter snd].
    destruct (1 <=? c) eqn:Ok; cbn [andb].
    + destruct (Z.of_nat (length acc) <? num)%Z eqn:Lt.
      * rewrite IH, length_app. cbn [length map fst].
        apply Z.ltb_lt in Lt.
        replace (Z.to_nat num - length acc)
          with (S (Z.to_nat num - (length acc + 1))) by lia.
        cbn [firstn]. rewrite <- app_assoc. reflexivity.
      * rewrite IH. apply Z.ltb_ge in Lt.
        replace (Z.to_nat num - length acc) with 0 by lia.
        reflexivity.
    + apply IH.
Qed.

(** The keys of the dictionary of the simple extractor are stripped words of
    the text, 2 to 8 characters long, each once. *)
Lemma simple_word_count_keys (text : str) :
  NoDup (map fst (simple_word_count text))
  /\ forall key,
      In key (map fst (simple_word_count text)) ->
      2 <= length key <= 8
      /\ exists word,
          In word (split (re_sub simple_separators (py " ") text))
          /\ key = strip_punctuation word.
Proof.
  unfold simple_word_count. cbv zeta.
  generalize (split (re_sub simple_separators (py " ") text)) as words.
  intros words.
  assert (G : forall l d,
             NoDup (map fst d) ->
             (forall key, In key (map fst d) ->
                          2 <= length key <= 8
                          /\ exists word, In word words
                                          /\ key = strip_punctuation word) ->
             (forall word, In word l -> In word words) ->
             let d' :=
                 fold_left
                   (fun word_count word =>
                      let word := strip_punctuation word in
                      if (2 <=? length word) && (length word <=? 8)
                         && negb (str_isdigit word) && nonempty (strip word)
                      then dict_set word_count word
                                    (match dict_get word_count word with
                                     | Some n => n
                                     | None => 0
                                     end + 1)
                      else word_count)
                   l d in
             NoDup (map fst d')
             /\ forall key, In key (map fst d') ->
                            2 <= length key <= 8
                            /\ exists word, In word words
                                            /\ key = strip_punctuation word).
  { induction l as [|w l IH]; intros d N K Sub; [split; assumption|].
    cbn [fold_left]. cbv zeta.
    destruct ((2 <=? length (strip_punctuation w))
              && (length (strip_punctuation w) <=? 8)
              && negb (str_isdigit (strip_punctuation w))
              && nonempty (strip (strip_punctuation w))) eqn:Ok.
    - apply IH.
      + apply (dict_set_NoDup _ _ _ _ N).
      + intros key Hk. rewrite dict_set_keys in Hk.
        revert Hk.
        match goal with
        | |- context [if ?c then _ else _] => destruct c
        end; intros Hk; [apply K, Hk|].
        apply in_app_or in Hk. destruct Hk as [Hk | [<- | []]]; [apply K, Hk|].
        repeat (apply andb_true_iff in Ok; destruct Ok as [Ok ?]).
        split; [split; [apply Nat.leb_le; assumption
                       | apply Nat.leb_le; assumption]|].
        exists w. split; [apply Sub; left; reflexivity | reflexivity].
      + intros word Hw. apply Sub. right. exact Hw.
    - apply IH; [exact N | exact K |].
      intros word Hw. apply Sub. right. exact Hw. }
  apply (G words []); [constructor | intros key [] | auto].
Qed.

(** X25. [_extract_simple_keywords_from_text] checks no word against the text
    and still returns parts of the text only: distinct words of 2 to 8
    characters, at most [num_keywords] of them and none when [num_keywords] is
    not positive. *)
Theorem simple_keywords_are_parts_of_the_text (text : str) (num_keywords : Z) :
  isspace 32 = true ->
  Forall (fun kw => (exists pre post, text = pre ++ kw ++ post)
                    /\ 2 <= length kw <= 8)
         (_extract_simple_keywords_from_text text num_keywords)
  /\ NoDup (_extract_simple_keywords_from_text text num_keywords)
  /\ (Z.of_nat (length (_extract_simple_keywords_from_text text num_keywords))
      <= Z.max 0 num_keywords)%Z.
Proof.
  intros H32. unfold _extract_simple_keywords_from_text. cbv zeta.
  rewrite simple_selection_loop. cbn [app length]. rewrite Nat.sub_0_r.
  destruct (simple_word_count_keys text) as (N & K).
  set (L := map fst (filter (fun item => 1 <=? snd item)
                            (sorted_desc snd (simple_word_count text)))).
  assert (Sub : forall kw, In kw L -> In kw (map fst (simple_word_count text))).
  { intros kw Hk. subst L. apply in_map_iff in Hk.
    destruct Hk as (item & <- & Hi). apply filter_In in Hi.
    destruct Hi as (Hi & _). apply sorted_desc_In in Hi. apply in_map, Hi. }
  split; [|split].
  - apply Forall_forall. intros kw Hk.
    apply (firstn_incl _ _ L), Sub, K in Hk.
    destruct Hk as (Len & word & Hw & ->). split; [|exact Len].
    apply (part_trans _ word); [apply strip_with_part|].
    assert (P : Forall (fun w => exists pre post, text = pre ++ w ++ post)
                       (split (re_sub simple_separators (py " ") text))).
    { apply (separated_words _ text H32).
      intros c Hc. simpl. rewrite Hc. apply orb_true_iff. right. reflexivity. }
    rewrite Forall_forall in P. apply P, Hw.
  - apply NoDup_firstn_of. subst L. apply NoDup_map_filter.
    apply (Permutation_NoDup (l := map fst (simple_word_count text)));
      [|exact N].
    apply Permutation_map. symmetry. apply sorted_desc_perm.
  - pose proof (firstn_le_length (Z.to_nat num_keywords) L). lia.
Qed.

End SimpleKeywords.

(** ** The properties at sample inputs *)

Lemma keywords_are_most_frequent_witness :
  In (py "ab") (@extract_keywords plain_db tie_text)
  /\ ~ In (py "ab.c") (@extract_keywords plain_db tie_text)
  /\ @frequency plain_db tie_text (py "ab.c")
     <= @frequency plain_db tie_text (py "ab").
Proof.
  assert (I : In (py "ab") (@extract_keywords plain_db tie_text))
    by (vm_compute; auto).
  assert (N : ~ In (py "ab.c") (@extract_keywords plain_db tie_text))
    by (vm_compute; intuition discriminate).
  repeat split; try assumption.
  apply (@keywords_are_most_frequent plain_db tie_text (py "ab") (py "ab.c")
                                     I);
    [vm_compute; auto | vm_compute; reflexivity | exact N].
Defined.

Lemma keywords_count_monotone_witness :
  (_get_keywords_count 150 <= _get_keywords_count 600)%Z.
Proof. apply (keywords_count_monotone 150 600). lia. Defined.

Lemma verification_never_rejects_witness :
  Forall (fun word =>
            _absolute_strict_verify_word_in_text (strip_punctuation word)
                                                 tie_text = true)
         (@candidate_words plain_db tie_text).
Proof. apply (@verification_never_rejects plain_db tie_text). reflexivity. Defined.

Lemma infer_management_needs_keyword_witness :
  exists kw,
    In kw [py "项目管理"]
    /\ any_in (pys ["管理"; "流程"; "制度"; "规范"; "优化"; "团队";
                    "组织"]%string) kw = true.
Proof.
  apply (infer_management_needs_keyword [py "项目管理"]).
  vm_compute. reflexivity.
Defined.

Lemma identify_project_by_score_witness :
  (Forall (fun entry =>
             @project_score plain_db (py "weekly") (py "直播 直播 直播 主播")
                            (snd entry) < 3)
          project_keywords
   /\ @identify_project plain_db no_jieba (py "直播 直播 直播 主播")
                        (py "weekly")
      = @_infer_project_from_content
          plain_db no_jieba
          (@lower plain_db (py "weekly" ++ py " " ++ py "直播 直播 直播 主播"))
          (py "weekly"))
  \/ (exists earlier best later,
         project_keywords = earlier ++ best :: later
         /\ 3 <= @project_score plain_db (py "weekly")
                                (py "直播 直播 直播 主播") (snd best)
         /\ Forall (fun entry =>
                      @project_score plain_db (py "weekly")
                                     (py "直播 直播 直播 主播") (snd entry)
                      < @project_score plain_db (py "weekly")
                                       (py "直播 直播 直播 主播") (snd best))
                   earlier
         /\ Forall (fun entry =>
                      @project_score plain_db (py "weekly")
                                     (py "直播 直播 直播 主播") (snd entry)
                      <= @project_score plain_db (py "weekly")
                                        (py "直播 直播 直播 主播") (snd best))
                   later
         /\ @identify_project plain_db no_jieba (py "直播 直播 直播 主播")
                              (py "weekly")
            = fst best).
Proof.
  apply (@identify_project_by_score plain_db no_jieba
                                    (py "直播 直播 直播 主播") (py "weekly"));
    vm_compute; reflexivity.
Defined.

Lemma identify_project_title_decides_witness :
  @identify_project plain_db no_jieba (py "直播 主播") (py "电商项目V1.0")
  = @identify_project plain_db no_jieba (py "财务 预算") (py "电商项目V1.0").
Proof.
  apply (@identify_project_title_decides plain_db no_jieba (py "电商项目V1.0")
                                         (py "直播 主播") (py "财务 预算")).
  right. vm_compute. discriminate.
Defined.

Lemma explicit_name_from_content_witness :
  exists pattern m,
    In pattern content_patterns
    /\ In m (@re_findall1 plain_db pattern
                          (py "report" ++ py " "
                              ++ firstn 500 (py "项目：电商V2 说明")))
    /\ @_extract_explicit_project_name plain_db (py "report")
                                       (py "项目：电商V2 说明")
       = @_standardize_project_name plain_db (@strip plain_db m)
    /\ @_standardize_project_name plain_db (@strip plain_db m)
       <> @strip plain_db m ++ py "项目".
Proof.
  assert (Title : @title_pattern_name plain_db (py "report") = None)
    by (vm_compute; reflexivity).
  destruct (@explicit_name_from_content plain_db (py "report")
                                        (py "项目：电商V2 说明") Title)
    as [(E & _) | (earlier_patterns & pattern & later_patterns & earlier & m
                   & later & Ep & Em & _ & _ & _ & _ & _ & _ & Diff & R & _)].
  - vm_compute in E. discriminate.
  - exists pattern, m. split; [|split; [|split; [exact R | exact Diff]]].
    + rewrite Ep. apply in_or_app. right. left. reflexivity.
    + rewrite Em. apply in_or_app. right. left. reflexivity.
Defined.

Lemma summary_of_short_paragraphs_witness :
  @generate_content_summary plain_db no_jieba (py "short text") (py "note")
  = py "【文档概述】本文档描述了" ++ py "note" ++ py "相关内容："
       ++ firstn 300 (py "short text") ++ py "..."
  /\ endswith (py "...")
              (@generate_content_summary plain_db no_jieba (py "short text")
                                         (py "note")) = true.
Proof.
  apply (@summary_of_short_paragraphs plain_db no_jieba (py "short text")
                                      (py "note")).
  - vm_compute. reflexivity.
  - vm_compute. repeat constructor.
Defined.

Lemma table_line_of_record_witness :
  table_line (format_output (py "a") (py "P1") (py "知识类文档") [] (py "s"))
  = Some (py "a", py "P1", py "知识类文档", 1).
Proof.
  apply (table_line_of_record (py "a") (py "P1") (py "知识类文档") [] (py "s")).
  - vm_compute. reflexivity.
  - constructor.
Defined.

Lemma read_csv_mapping_fails_on_short_rows_witness :
  @read_csv_mapping plain_db short_rows = None.
Proof.
  apply (proj1 (@read_csv_mapping_fails_on_short_rows plain_db short_rows)).
  exists [(py "文档标题", Some (py "b")); (py "所属项目", None)].
  split; [right; left; reflexivity | right; vm_compute; reflexivity].
Defined.

Lemma read_csv_mapping_last_row_wins_witness :
  @read_csv_mapping plain_db sample_rows
  = Some [(py "a", py "P1"); (py "b", py "P2")]
  /\ dict_get [(py "a", py "P1"); (py "b", py "P2")] (py "a")
     = Some (py "P1").
Proof.
  assert (R : @read_csv_mapping plain_db sample_rows
              = Some [(py "a", py "P1"); (py "b", py "P2")])
    by (vm_compute; reflexivity).
  split; [exact R|].
  apply (proj2 (@read_csv_mapping_last_row_wins plain_db sample_rows _ R)
               [(py "a", py "P2")] (py "a") (py "P1") [(py "b", py "P2")]).
  - vm_compute. reflexivity.
  - vm_compute. intuition discriminate.
Defined.

Lemma extract_projects_sorted_and_unique_witness :
  @extract_projects_from_csv plain_db sample_rows = Some [py "P1"; py "P2"]
  /\ StronglySorted (fun a b => str_ltb a b = true) [py "P1"; py "P2"]
  /\ NoDup [py "P1"; py "P2"].
Proof.
  assert (E : @extract_projects_from_csv plain_db sample_rows
              = Some [py "P1"; py "P2"]) by (vm_compute; reflexivity).
  split; [exact E|]. split.
  - apply (proj1 (@extract_projects_sorted_and_unique plain_db sample_rows _ E)).
  - apply (proj1 (proj2 (@extract_projects_sorted_and_unique
                           plain_db sample_rows _ E))).
Defined.

Lemma mapped_projects_are_extracted_witness :
  exists projects,
    @extract_projects_from_csv plain_db sample_rows = Some projects
    /\ forall title project,
        dict_get [(py "a", py "P1"); (py "b", py "P2")] title = Some project ->
        In project projects.
Proof.
  apply (@mapped_projects_are_extracted plain_db sample_rows).
  vm_compute. reflexivity.
Defined.

Lemma new_results_checks_the_file_only_witness :
  new_results sample_existing sample_results
  = Some [format_output (py "a") (py "P1") (py "知识类文档") [py "ab"]
                        (py "s")].
Proof.
  assert (F : Forall (fun result => result_identifier result <> None)
                     sample_results)
    by (repeat constructor; vm_compute; discriminate).
  rewrite (proj1 (new_results_checks_the_file_only sample_existing
                                                   sample_results F)).
  vm_compute. reflexivity.
Defined.

Lemma simple_keywords_are_parts_of_the_text_witness :
  NoDup (@_extract_simple_keywords_from_text plain_db tie_text 2)
  /\ (Z.of_nat (length (@_extract_simple_keywords_from_text plain_db
                                                            tie_text 2))
      <= Z.max 0 2)%Z.
Proof.
  apply (proj2 (@simple_keywords_are_parts_of_the_text plain_db tie_text 2
                                                       eq_refl)).
Defined.

(** ** The keyword extractor for the catalog *)

Section SimpleExtractionProperties.
Context {U : UnicodeDB}.

(** Splitting a text in which some characters were replaced by whitespace
    gives words that are parts of the text as it was. *)
Lemma replaced_words_parts (g : N -> N) :
  (forall c, g c = c \/ isspace (g c) = true) ->
  forall s done cur,
    (exists pre, done = pre ++ rev cur) ->
    Forall (fun w => exists pre post, done ++ s = pre ++ w ++ post)
           (split_runs isspace (map g s) cur).
Proof.
  intros Hg. induction s as [|c s IH]; intros done cur (pre & Hdone).
  - rewrite app_nil_r. simpl.
    destruct cur as [|x cur]; constructor; [|constructor].
    exists pre, []. rewrite app_nil_r. exact Hdone.
  - replace (done ++ c :: s) with ((done ++ [c]) ++ s)
      by (rewrite <- app_assoc; reflexivity).
    cbn [map split_runs]. destruct (isspace (g c)) eqn:Sc.
    + assert (Rest : Forall
                       (fun w => exists pre0 post,
                            (done ++ [c]) ++ s = pre0 ++ w ++ post)
                       (split_runs isspace (map g s) [])).
      { apply IH. exists (done ++ [c]). rewrite app_nil_r. reflexivity. }
      destruct cur as [|x cur]; [exact Rest|].
      constructor; [|exact Rest].
      exists pre, (c :: s). rewrite Hdone, <- !app_assoc. reflexivity.
    + destruct (Hg c) as [E | E]; [|congruence].
      rewrite E. apply IH. exists pre. simpl.
      rewrite Hdone, <- app_assoc. reflexivity.
Qed.

Lemma catalog_words_parts (text : str) :
  isspace 32 = true ->
  Forall (fun w => (exists pre post, text = pre ++ w ++ post)
                   /\ 2 <= length w <= 6 /\ str_isdigit w = false)
         (catalog_words text).
Proof.
  intros H32. unfold catalog_words, split, replace_char.
  rewrite !map_map.
  set (g := fun c : N => _).
  assert (P : Forall (fun w => exists pre post, text = pre ++ w ++ post)
                     (split_runs isspace (map g text) [])).
  { apply (replaced_words_parts g) with (done := []) (cur := []).
    - intros c. subst g. cbv beta.
      destruct (c =? 65292)%N.
      + right. change (32 =? 12290)%N with false. cbv iota.
        change (32 =? 12289)%N with false. cbv iota. exact H32.
      + destruct (c =? 12290)%N.
        * right. change (32 =? 12289)%N with false. cbv iota. exact H32.
        * destruct (c =? 12289)%N; [right; exact H32 | left; reflexivity].
    - exists []. reflexivity. }
  revert P. generalize (split_runs isspace (map g text) []) as l.
  intros l P.
  assert (G : forall l acc,
             Forall (fun w => exists pre post, text = pre ++ w ++ post) l ->
             Forall (fun w => (exists pre post, text = pre ++ w ++ post)
                              /\ 2 <= length w <= 6 /\ str_isdigit w = false)
                    acc ->
             Forall (fun w => (exists pre post, text = pre ++ w ++ post)
                              /\ 2 <= length w <= 6 /\ str_isdigit w = false)
                    (fold_left
                       (fun words word =>
                          let word := strip_punctuation word in
                          if (2 <=? length word) && (length word <=? 6)
                             && negb (str_isdigit word)
                          then words ++ [word] else words)
                       l acc)).
  { clear l P. induction l as [|w l IH]; intros acc Hl Hacc; [exact Hacc|].
    inversion Hl as [|? ? Hw Hl']; subst.
    cbn [fold_left]. cbv zeta.
    destruct ((2 <=? length (strip_punctuation w))
              && (length (strip_punctuation w) <=? 6)
              && negb (str_isdigit (strip_punctuation w))) eqn:Ok;
      [|apply IH; assumption].
    apply IH; [assumption|].
    apply Forall_app. split; [exact Hacc|]. constructor; [|constructor].
    repeat (apply andb_true_iff in Ok; destruct Ok as [Ok ?]).
    split; [|split; [split; apply Nat.leb_le; assumption
                    | apply negb_true_iff; assumption]].
    apply (part_trans _ w); [apply strip_with_part | exact Hw]. }
  apply G; [exact P | constructor].
Qed.

(** The keys of the catalog count are catalog keywords that occur in the
    lower-cased text, each once. *)
Lemma catalog_count_keys (text : str) :
  NoDup (map fst (catalog_count text))
  /\ forall key,
      In key (map fst (catalog_count text)) ->
      In key common_keywords /\ 0 < count (lower text) key.
Proof.
  unfold catalog_count. cbv zeta.
  assert (G : forall l d,
             NoDup (map fst d) ->
             (forall key, In key (map fst d) ->
                          In key common_keywords
                          /\ 0 < count (lower text) key) ->
             (forall key, In key l -> In key common_keywords) ->
             let d' :=
                 fold_left
                   (fun keyword_count keyword =>
                      if 0 <? count (lower text) keyword
                      then dict_set keyword_count keyword
                                    (count (lower text) keyword)
                      else keyword_count)
                   l d in
             NoDup (map fst d')
             /\ forall key, In key (map fst d') ->
                            In key common_keywords
                            /\ 0 < count (lower text) key).
  { induction l as [|w l IH]; intros d N K Sub; [split; assumption|].
    cbn [fold_left].
    destruct (0 <? count (lower text) w) eqn:Ok.
    - apply IH.
      + apply (dict_set_NoDup _ _ _ _ N).
      + intros key Hk. rewrite dict_set_keys in Hk.
        revert Hk.
        match goal with
        | |- context [if ?c then _ else _] => destruct c
        end; intros Hk; [apply K, Hk|].
        apply in_app_or in Hk. destruct Hk as [Hk | [<- | []]]; [apply K, Hk|].
        split; [apply Sub; left; reflexivity | apply Nat.ltb_lt, Ok].
      + intros key Hk. apply Sub. right. exact Hk.
    - apply IH; [exact N | exact K |].
      intros key Hk. apply Sub. right. exact Hk. }
  apply (G common_keywords []); [constructor | intros key [] | auto].
Qed.

Lemma prefix_firstn (A : Type) (n : Z) (l : list A) :
  (0 <= n)%Z -> prefix n l = firstn (Z.to_nat n) l.
Proof.
  intros H. unfold prefix.
  destruct (Z.leb_spec 0 n); [reflexivity | lia].
Qed.

Lemma prefix_incl (A : Type) (n : Z) (l : list A) (x : A) :
  In x (prefix n l) -> In x l.
Proof. unfold prefix. destruct (0 <=? n)%Z; apply firstn_incl. Qed.

Lemma prefix_NoDup (A : Type) (n : Z) (l : list A) :
  NoDup l -> NoDup (prefix n l).
Proof. unfold prefix. destruct (0 <=? n)%Z; apply NoDup_firstn_of. Qed.

Lemma prefix_keys_NoDup (A B : Type) (key : A -> B) (n : Z) (l : list A) :
  NoDup (map key l) -> NoDup (map key (prefix n l)).
Proof.
  unfold prefix. destruct (0 <=? n)%Z; rewrite <- firstn_map;
    apply NoDup_firstn_of.
Qed.

(** X26. When the number asked for is not negative,
    [_simple_keyword_extraction] returns at most that many words, all
    distinct, and every word returned is a keyword of the catalog that occurs
    in the lower-cased text, or a part of the text of 2 to 6 characters that
    is not a number. *)
Theorem simple_keyword_extraction_result (text : str) (num_keywords : Z) :
  isspace 32 = true ->
  (0 <= num_keywords)%Z ->
  NoDup (_simple_keyword_extraction text num_keywords)
  /\ (Z.of_nat (length (_simple_keyword_extraction text num_keywords))
      <= num_keywords)%Z
  /\ Forall (fun kw =>
               (In kw common_keywords /\ 0 < count (lower text) kw)
               \/ ((exists pre post, text = pre ++ kw ++ post)
                   /\ 2 <= length kw <= 6 /\ str_isdigit kw = false))
            (_simple_keyword_extraction text num_keywords).
Proof.
  intros H32 Hn. unfold _simple_keyword_extraction. cbv zeta.
  destruct (catalog_count_keys text) as (N & K).
  set (result := map fst (prefix num_keywords
                                 (sorted_desc snd (catalog_count text)))).
  assert (Nr : NoDup result).
  { subst result. apply prefix_keys_NoDup.
    apply (Permutation_NoDup (l := map fst (catalog_count text)));
      [|exact N].
    apply Permutation_map. symmetry. apply sorted_desc_perm. }
  assert (Kr : forall kw, In kw result ->
                          In kw common_keywords /\ 0 < count (lower text) kw).
  { intros kw Hk. apply K. subst result. apply in_map_iff in Hk.
    destruct Hk as (item & <- & Hi). apply prefix_incl, sorted_desc_In in Hi.
    apply in_map, Hi. }
  set (additional :=
         filter (fun word => negb (mem word result))
                (map fst (most_common_n (Z.to_nat (num_keywords * 2))
                                        (Counter (catalog_words text))))).
  assert (Na : NoDup additional).
  { subst additional. apply NoDup_filter. unfold most_common_n.
    rewrite <- firstn_map. apply NoDup_firstn_of.
    apply (Permutation_NoDup
             (l := map fst (Counter (catalog_words text))));
      [|apply Counter_NoDup].
    apply Permutation_map. symmetry. apply sorted_desc_perm. }
  assert (Ka : forall kw, In kw additional ->
                          ~ In kw result /\ In kw (catalog_words text)).
  { intros kw Hk. subst additional. apply filter_In in Hk.
    destruct Hk as (Hk & M). split.
    - intros Hr. apply mem_In in Hr. rewrite Hr in M. discriminate.
    - apply Counter_keys. unfold most_common_n in Hk.
      apply in_map_iff in Hk. destruct Hk as (item & <- & Hi).
      apply firstn_incl in Hi. apply sorted_desc_In in Hi.
      apply in_map, Hi. }
  set (final := if (Z.of_nat (length result) <? num_keywords)%Z
                then result
                       ++ prefix (num_keywords - Z.of_nat (length result))
                                 additional
                else result).
  assert (Nf : NoDup final).
  { subst final. destruct (Z.of_nat (length result) <? num_keywords)%Z;
      [|exact Nr].
    apply NoDup_app; [exact Nr | apply prefix_NoDup, Na |].
    intros kw Hr Ha. apply prefix_incl in Ha. apply Ka in Ha.
    destruct Ha as (Ha & _). contradiction. }
  split; [apply prefix_NoDup, Nf|]. split.
  - rewrite (prefix_firstn _ num_keywords final Hn).
    pose proof (firstn_le_length (Z.to_nat num_keywords) final). lia.
  - apply Forall_forall. intros kw Hk. apply prefix_incl in Hk.
    assert (Hk' : In kw result \/ In kw additional).
    { subst final. destruct (Z.of_nat (length result) <? num_keywords)%Z;
        [|left; exact Hk].
      apply in_app_or in Hk. destruct Hk as [Hk | Hk]; [left; exact Hk|].
      right. apply prefix_incl in Hk. exact Hk. }
    destruct Hk' as [Hr | Ha]; [left; apply Kr, Hr|].
    right. apply Ka in Ha. destruct Ha as (_ & Ha).
    pose proof (catalog_words_parts text H32) as P.
    rewrite Forall_forall in P. apply P, Ha.
Qed.

End SimpleExtractionProperties.

Lemma simple_keyword_extraction_result_witness :
  NoDup (@_simple_keyword_extraction plain_db (py "用户 产品 ab cd 用户") 3)
  /\ (Z.of_nat (length (@_simple_keyword_extraction
                          plain_db (py "用户 产品 ab cd 用户") 3))
      <= 3)%Z.
Proof.
  assert (H : (0 <= 3)%Z) by lia.
  split.
  - apply (proj1 (@simple_keyword_extraction_result
                    plain_db (py "用户 产品 ab cd 用户") 3 eq_refl H)).
  - apply (proj1 (proj2 (@simple_keyword_extraction_result
                           plain_db (py "用户 产品 ab cd 用户") 3 eq_refl H))).
Defined.
